(** * Research-Reasoner: relationship inference and knowledge-graph cache

    A shallow embedding of
    - [services/relationshipService.ts] (class [RelationshipService]) and
    - [routes/research.ts] (class [InstantCache], the handlers of
      [POST /build-knowledge-graph] and [GET /cache-stats] and their
      helpers),
    followed by properties of the code and by the claims of the
    specification that concern it.

    Conventions of the embedding.
    - JavaScript strings are [string]s of 8-bit characters; [toLowerCase],
      [trim] and the regular expressions act on the ASCII range.
    - JavaScript numbers that hold counts, years and timestamps are [Z];
      relationship strengths and scores are IEEE-754 binary64 ([float]).
    - A [Map] is an association list in insertion order ([Js.Map]); a [Set]
      of strings is a list of its members.
    - [Math.random] reads from an explicit stream of draws and [Date.now]
      from an explicit stream of clock readings; code that calls them is
      written in a state monad over that stream. *)

From Stdlib Require Import List String Ascii ZArith Lia Bool Permutation FinFun Sorted.
From Stdlib Require Import PrimFloat Uint63 DecimalString.
From Stdlib Require SpecFloat FloatAxioms FloatOps.
Import ListNotations.
Set Warnings "-inexact-float".

Local Open Scope string_scope.
Local Open Scope list_scope.

(* ===================================================================== *)
(** ** The JavaScript library functions the code relies on *)
(* ===================================================================== *)

Module Js.

(** *** Arrays *)

(** Relative index of [Array.prototype.slice] and [String.prototype.slice]:
    a negative index counts from the end, everything is clamped to
    [0 .. len]. *)
Definition relIndex (len i : Z) : Z :=
  if (i <? 0)%Z then Z.max (len + i) 0 else Z.min i len.

(** [arr.slice(start, end)]. *)
Definition slice {A} (l : list A) (start end_ : Z) : list A :=
  let len := Z.of_nat (List.length l) in
  let k := relIndex len start in
  let f := relIndex len end_ in
  firstn (Z.to_nat (f - k)) (skipn (Z.to_nat k) l).

(** [arr.slice(start)]. *)
Definition sliceFrom {A} (l : list A) (start : Z) : list A :=
  slice l start (Z.of_nat (List.length l)).

(** [arr.find(pred)]. *)
Definition find {A} (pred : A -> bool) (l : list A) : option A :=
  List.find pred l.

(** [arr.sort(cmp)]: the sort is stable, so for a consistent comparator
    its result is the one of a stable insertion sort. [gt a b] stands for
    [cmp(a, b) > 0]. *)
Fixpoint insert {A} (gt : A -> A -> bool) (x : A) (l : list A) : list A :=
  match l with
  | [] => [x]
  | y :: r => if gt x y then y :: insert gt x r else x :: y :: r
  end.

Fixpoint sort {A} (gt : A -> A -> bool) (l : list A) : list A :=
  match l with
  | [] => []
  | x :: r => insert gt x (sort gt r)
  end.

(** *** Numbers *)

(** [String(n)] for an integer [n] of fewer than 22 digits; from [1e21] on
    JavaScript prints an exponent. The years and indexes of the code are
    integers in this range. *)
Definition numberToString (n : Z) : string :=
  NilZero.string_of_int (Z.to_int n).

(** The default comparator of [sort()]: elements are compared as strings,
    by code units. *)
Definition defaultGt (a b : string) : bool := String.ltb b a.

(** [Math.ceil(a / b)] for integers [a] and [b > 0]. For [b = 0] the
    JavaScript value is [NaN] or an infinity; the embedding returns [0]
    there and the callers never use it. *)
Definition ceilDiv (a b : Z) : Z := (- ((- a) / b))%Z.

(** A count as a binary64 number. *)
Definition ofNat (n : nat) : float :=
  PrimFloat.of_uint63 (Uint63.of_Z (Z.of_nat n)).

Definition isNaN (x : float) : bool := negb (PrimFloat.eqb x x).

(** [Math.min(a, b)]. *)
Definition Math_min (a b : float) : float :=
  if isNaN a || isNaN b then PrimFloat.nan
  else if PrimFloat.ltb a b then a
  else if PrimFloat.ltb b a then b
  else if PrimFloat.is_zero a && PrimFloat.get_sign a then a
  else b.

(** *** Strings *)

Definition lowerChar (c : ascii) : ascii :=
  let n := nat_of_ascii c in
  if (65 <=? n)%nat && (n <=? 90)%nat then ascii_of_nat (n + 32) else c.

(** [s.toLowerCase()] on a string of ASCII characters: the letters [A] to
    [Z] are folded and every other character stays (JavaScript folds the
    capital letters outside ASCII as well). *)
Fixpoint toLowerCase (s : string) : string :=
  match s with
  | EmptyString => EmptyString
  | String c r => String (lowerChar c) (toLowerCase r)
  end.

(** White space of [\s] and of [trim] among the ASCII characters: TAB, LF,
    VT, FF, CR and space (JavaScript counts U+00A0, U+FEFF and the space
    separators of Unicode too). *)
Definition isSpace (c : ascii) : bool :=
  let n := nat_of_ascii c in
  ((9 <=? n)%nat && (n <=? 13)%nat) || (n =? 32)%nat.

(** [\w]: letters, digits and the underscore. *)
Definition isWord (c : ascii) : bool :=
  let n := nat_of_ascii c in
  ((48 <=? n)%nat && (n <=? 57)%nat) || ((65 <=? n)%nat && (n <=? 90)%nat)
  || ((97 <=? n)%nat && (n <=? 122)%nat) || (n =? 95)%nat.

Fixpoint trimStart (s : string) : string :=
  match s with
  | EmptyString => EmptyString
  | String c r => if isSpace c then trimStart r else s
  end.

Fixpoint rev (s : string) : string :=
  match s with
  | EmptyString => EmptyString
  | String c r => rev r ++ String c EmptyString
  end.

(** [s.trim()]. *)
Definition trim (s : string) : string :=
  rev (trimStart (rev (trimStart s))).

(** [s.replace(/[^\w\s]/g, ' ')]. *)
Fixpoint replaceNonWord (s : string) : string :=
  match s with
  | EmptyString => EmptyString
  | String c r =>
      String (if isWord c || isSpace c then c else " "%char) (replaceNonWord r)
  end.

(** [s.split(/\s+/)]: [cur] is the piece being read, [inSep] tells that
    the previous character was white space. *)
Fixpoint splitSpacesFrom (s cur : string) (inSep : bool) : list string :=
  match s with
  | EmptyString => [cur]
  | String c r =>
      if isSpace c then
        if inSep then splitSpacesFrom r EmptyString true
        else cur :: splitSpacesFrom r EmptyString true
      else splitSpacesFrom r (cur ++ String c EmptyString) false
  end.

Definition splitSpaces (s : string) : list string :=
  splitSpacesFrom s EmptyString false.

(** [s.split(' ')]. *)
Fixpoint splitOnSpaceFrom (s cur : string) : list string :=
  match s with
  | EmptyString => [cur]
  | String c r =>
      if Ascii.eqb c " "%char then cur :: splitOnSpaceFrom r EmptyString
      else splitOnSpaceFrom r (cur ++ String c EmptyString)
  end.

Definition splitOnSpace (s : string) : list string := splitOnSpaceFrom s EmptyString.

(** [s.includes(sub)]. *)
Fixpoint includes (s sub : string) : bool :=
  String.prefix sub s
  || match s with
     | EmptyString => false
     | String _ r => includes r sub
     end.

(** [s.slice(0, n)] for [n >= 0]. *)
Definition strSlice0 (s : string) (n : nat) : string := substring 0 n s.

(** [arr.join(sep)]. *)
Definition join (sep : string) (l : list string) : string :=
  String.concat sep l.

(** *** Maps in insertion order *)

Section Maps.
Context {K V : Type} (eqb : K -> K -> bool).

Definition Map := list (K * V).

Fixpoint get (k : K) (m : Map) : option V :=
  match m with
  | [] => None
  | (k', v) :: r => if eqb k k' then Some v else get k r
  end.

Definition has (k : K) (m : Map) : bool :=
  match get k m with Some _ => true | None => false end.

(** [m.set(k, v)]: an existing key keeps its place. *)
Fixpoint set (k : K) (v : V) (m : Map) : Map :=
  match m with
  | [] => [(k, v)]
  | (k', v') :: r =>
      if eqb k k' then (k', v) :: r else (k', v') :: set k v r
  end.

(** [m.delete(k)]. *)
Fixpoint delete (k : K) (m : Map) : Map :=
  match m with
  | [] => []
  | (k', v') :: r => if eqb k k' then r else (k', v') :: delete k r
  end.

Definition keys (m : Map) : list K := map fst m.
Definition size (m : Map) : nat := List.length m.
End Maps.

Arguments Map : clear implicits.

End Js.


(* ===================================================================== *)
(** ** Effects: a state monad, [Math.random] and [Date.now] *)
(* ===================================================================== *)

Module St.

(** Computations that read and update a state of type [S]. *)
Definition M (S A : Type) : Type := S -> A * S.

Definition ret {S A} (a : A) : M S A := fun s => (a, s).

Definition bind {S A B} (c : M S A) (k : A -> M S B) : M S B :=
  fun s => let (a, s') := c s in k a s'.

(** A [forEach] whose body pushes to one result array. *)
Fixpoint flatMapM {S A B} (f : A -> M S (list B)) (l : list A) : M S (list B) :=
  match l with
  | [] => ret []
  | x :: r =>
      bind (f x) (fun ys => bind (flatMapM f r) (fun zs => ret (ys ++ zs)))
  end.

(** [arr.map(f)] for an effectful [f]. *)
Fixpoint mapM {S A B} (f : A -> M S B) (l : list A) : M S (list B) :=
  match l with
  | [] => ret []
  | x :: r => bind (f x) (fun y => bind (mapM f r) (fun ys => ret (y :: ys)))
  end.

End St.

Declare Scope st_scope.
Delimit Scope st_scope with st.
Notation "x <- c ;; k" := (St.bind c (fun x => k))
  (at level 61, c at next level, right associativity) : st_scope.

Module Random.

(** The draws that [Math.random()] will return, in order. *)
Definition Source := nat -> float.

Definition Rand (A : Type) : Type := St.M Source A.

(** [Math.random()]: the head of the stream; the rest remains. *)
Definition Math_random : Rand float :=
  fun s => (s 0%nat, fun n => s (S n)).

End Random.

Module Clock.

(** The readings that [Date.now()] will return, in order (milliseconds). *)
Definition Source := nat -> Z.

Definition Date_now : St.M Source Z :=
  fun s => (s 0%nat, fun n => s (S n)).

End Clock.

(* ===================================================================== *)
(** ** [services/relationshipService.ts] *)
(* ===================================================================== *)

Module RelationshipType.

(** ['citation' | 'content' | 'author' | 'temporal' | 'venue'] *)
Inductive t : Type := citation | content | author | temporal | venue.

(** The string a template literal prints for the type. *)
Definition name (k : t) : string :=
  match k with
  | citation => "citation"
  | content => "content"
  | author => "author"
  | temporal => "temporal"
  | venue => "venue"
  end.

Definition eqb (a b : t) : bool :=
  match a, b with
  | citation, citation | content, content | author, author
  | temporal, temporal | venue, venue => true
  | _, _ => false
  end.

End RelationshipType.

Module Metadata.

(** The optional [metadata] object of a relationship; every field is
    optional, and [citationCount] copies a field that may be undefined. *)
Record t : Type := mk {
  sharedKeywords : option (list string);
  authorOverlap : option (list string);
  citationCount : option (option Z);
  yearDifference : option Z;
  venueMatch : option bool
}.

End Metadata.

Module RelationshipService.

Import St Random.
Local Open Scope st_scope.

Record PaperRelationship : Type := {
  sourceId : string;
  targetId : string;
  relationshipType : RelationshipType.t;
  strength : float;
  metadata : option Metadata.t
}.

Record Paper : Type := {
  id : string;
  title : string;
  authors : list string;
  abstract : option string;
  year : option Z;
  venue : option string;
  citationCount : option Z;
  references : option (list string);
  citations : option (list string)
}.

(** [x || d] on an optional number: [undefined] and [0] are falsy. *)
Definition numberOr (x : option Z) (d : Z) : Z :=
  match x with
  | Some n => if (n =? 0)%Z then d else n
  | None => d
  end.

(** An optional number in a condition: its value when it is truthy. *)
Definition truthyNumber (x : option Z) : option Z :=
  match x with
  | Some n => if (n =? 0)%Z then None else Some n
  | None => None
  end.

(** An optional string in a condition: its value when it is truthy. *)
Definition truthyString (x : option string) : option string :=
  match x with
  | Some s => if String.eqb s EmptyString then None else Some s
  | None => None
  end.

(** [x || ''] on an optional string. *)
Definition stringOrEmpty (x : option string) : string :=
  match x with Some s => s | None => EmptyString end.

(** The idiom
    [if (!m.has(k)) m.set(k, []); m.get(k)!.push(paper)]. *)
Definition pushInto {K} (eqb : K -> K -> bool) (k : K) (paper : Paper)
    (m : Js.Map K (list Paper)) : Js.Map K (list Paper) :=
  let m' := if negb (Js.has eqb k m) then Js.set eqb k [] m else m in
  match Js.get eqb k m' with
  | Some arr => Js.set eqb k (arr ++ [paper]) m'
  | None => m'
  end.

(** [index.get(k) || []]. *)
Definition bucket (k : string) (index : Js.Map string (list Paper)) : list Paper :=
  match Js.get String.eqb k index with Some arr => arr | None => [] end.

(** *** Stratified sampling *)

Definition groupByYear (papers : list Paper) : Js.Map Z (list Paper) :=
  fold_left (fun yearGroups paper =>
               pushInto Z.eqb (numberOr (year paper) 2024) paper yearGroups)
            papers [].

(** The comparator [(a, b) => (b.citationCount || 0) - (a.citationCount || 0)]
    is positive. *)
Definition lessCited (a b : Paper) : bool :=
  (0 <? numberOr (citationCount b) 0 - numberOr (citationCount a) 0)%Z.

Definition stratifiedSample (papers : list Paper) (sampleSize : Z) : list Paper :=
  let yearGroups := groupByYear papers in
  let yearsArray :=
    Js.sort (fun a b => Js.defaultGt (Js.numberToString a) (Js.numberToString b))
            (Js.keys yearGroups) in
  let papersPerYear := Js.ceilDiv sampleSize (Z.of_nat (List.length yearsArray)) in
  let sample :=
    flat_map (fun y =>
                match Js.get Z.eqb y yearGroups with
                | Some yearPapers => Js.slice (Js.sort lessCited yearPapers) 0 papersPerYear
                | None => []
                end)
             yearsArray in
  Js.slice sample 0 sampleSize.

(** *** Indexes *)

Definition buildAuthorIndex (papers : list Paper) : Js.Map string (list Paper) :=
  fold_left (fun authorIndex paper =>
               fold_left (fun authorIndex author =>
                            pushInto String.eqb (Js.trim (Js.toLowerCase author))
                                     paper authorIndex)
                         (authors paper) authorIndex)
            papers [].

Definition buildVenueIndex (papers : list Paper) : Js.Map string (list Paper) :=
  fold_left (fun venueIndex paper =>
               match truthyString (venue paper) with
               | Some v => pushInto String.eqb (Js.trim (Js.toLowerCase v))
                                    paper venueIndex
               | None => venueIndex
               end)
            papers [].

Definition stopWords : list string :=
  ["the"; "a"; "an"; "and"; "or"; "but"; "in"; "on"; "at"; "to"; "for"; "of";
   "with"; "by"; "is"; "are"; "was"; "were"; "be"; "been"; "being"; "have";
   "has"; "had"; "do"; "does"; "did"; "will"; "would"; "could"; "should";
   "this"; "that"; "these"; "those"].

Definition inStrings (s : string) (l : list string) : bool :=
  existsb (String.eqb s) l.

Definition extractKeywords (text : string) : list string :=
  Js.slice
    (filter (fun word => (3 <? String.length word)%nat && negb (inStrings word stopWords))
            (Js.splitSpaces (Js.replaceNonWord (Js.toLowerCase text))))
    0 20.

Definition paperText (paper : Paper) : string :=
  title paper ++ " " ++ stringOrEmpty (abstract paper).

Definition buildKeywordIndex (papers : list Paper) : Js.Map string (list Paper) :=
  fold_left (fun keywordIndex paper =>
               fold_left (fun keywordIndex keyword =>
                            pushInto String.eqb keyword paper keywordIndex)
                         (extractKeywords (paperText paper)) keywordIndex)
            papers [].

(** *** The five detectors *)

Definition sharedAuthorsOf (paper otherPaper : Paper) : list string :=
  filter (fun a =>
            existsb (fun oa => String.eqb (Js.toLowerCase oa) (Js.toLowerCase a))
                    (authors otherPaper))
         (authors paper).

Definition findAuthorRelationships (papers : list Paper)
    (authorIndex : Js.Map string (list Paper)) : list PaperRelationship :=
  flat_map (fun paper =>
    flat_map (fun author =>
      flat_map (fun otherPaper =>
        if negb (String.eqb (id paper) (id otherPaper)) then
          let sharedAuthors := sharedAuthorsOf paper otherPaper in
          if (0 <? List.length sharedAuthors)%nat then
            [ {| sourceId := id paper;
                 targetId := id otherPaper;
                 relationshipType := RelationshipType.author;
                 strength :=
                   Js.Math_min 0.9 (PrimFloat.mul (Js.ofNat (List.length sharedAuthors)) 0.3);
                 metadata :=
                   Some (Metadata.mk None (Some sharedAuthors) None None None) |} ]
          else []
        else [])
      (bucket (Js.toLowerCase author) authorIndex))
    (authors paper))
  papers.

Definition findVenueRelationships (papers : list Paper)
    (venueIndex : Js.Map string (list Paper)) : Rand (list PaperRelationship) :=
  flatMapM (fun paper =>
    match truthyString (venue paper) with
    | Some v =>
        flatMapM (fun otherPaper =>
          if negb (String.eqb (id paper) (id otherPaper)) then
            r <- Math_random ;;
            if PrimFloat.ltb 0.8 r then
              ret [ {| sourceId := id paper;
                       targetId := id otherPaper;
                       relationshipType := RelationshipType.venue;
                       strength := 0.4%float;
                       metadata :=
                         Some (Metadata.mk None None None None (Some true)) |} ]
            else ret []
          else ret [])
        (bucket (Js.toLowerCase v) venueIndex)
    | None => ret []
    end)
  papers.

(** The [relatedPapers] counter of one paper: for every keyword and every
    other paper of its bucket, [set(id, (get(id) || 0) + 1)]. *)
Definition countRelated (paper : Paper) (paperKeywords : list string)
    (keywordIndex : Js.Map string (list Paper)) : Js.Map string nat :=
  fold_left (fun relatedPapers keyword =>
    fold_left (fun relatedPapers otherPaper =>
      if negb (String.eqb (id paper) (id otherPaper)) then
        let seen := match Js.get String.eqb (id otherPaper) relatedPapers with
                    | Some n => n
                    | None => 0%nat
                    end in
        Js.set String.eqb (id otherPaper) (seen + 1)%nat relatedPapers
      else relatedPapers)
    (bucket keyword keywordIndex) relatedPapers)
  paperKeywords [].

Definition findContentRelationships (papers : list Paper)
    (keywordIndex : Js.Map string (list Paper)) : list PaperRelationship :=
  flat_map (fun paper =>
    let paperKeywords := extractKeywords (paperText paper) in
    let relatedPapers := countRelated paper paperKeywords keywordIndex in
    flat_map (fun entry =>
      let '(otherId, overlapCount) := entry in
      if (3 <=? overlapCount)%nat then
        match Js.find (fun p => String.eqb (id p) otherId) papers with
        | Some _ =>
            [ {| sourceId := id paper;
                 targetId := otherId;
                 relationshipType := RelationshipType.content;
                 strength := Js.Math_min 0.8 (PrimFloat.mul (Js.ofNat overlapCount) 0.1);
                 metadata :=
                   Some (Metadata.mk (Some (Js.slice paperKeywords 0 5))
                                     None None None None) |} ]
        | None => []
        end
      else [])
    relatedPapers)
  papers.

(** [arr.forEach((x, index) => ...)]: the elements with their indexes. *)
Definition indexed {A} (l : list A) : list (nat * A) :=
  combine (seq 0 (List.length l)) l.

Definition findTemporalRelationships (papers : list Paper)
    : Rand (list PaperRelationship) :=
  flatMapM (fun entry =>
    let '(index, paper) := entry in
    match truthyNumber (year paper) with
    | Some y =>
        if (Z.of_nat index <? Z.of_nat (List.length papers) - 1)%Z then
          let contemporaryPapers :=
            filter (fun otherPaper =>
                      match truthyNumber (year otherPaper) with
                      | Some oy => (Z.abs (oy - y) <=? 1)%Z
                      | None => false
                      end)
                   (Js.sliceFrom papers (Z.of_nat index + 1)) in
          flatMapM (fun otherPaper =>
            r <- Math_random ;;
            if PrimFloat.ltb 0.7 r then
              ret [ {| sourceId := id paper;
                       targetId := id otherPaper;
                       relationshipType := RelationshipType.temporal;
                       strength := 0.3%float;
                       metadata :=
                         (* the year of a contemporary paper is truthy *)
                         Some (Metadata.mk None None None
                                 (Some (Z.abs (numberOr (year otherPaper) 0 - y)))
                                 None) |} ]
            else ret [])
          (Js.slice contemporaryPapers 0 3)
        else ret []
    | None => ret []
    end)
  (indexed papers).

(** [paperIdMap.has(x)] for [paperIdMap = new Map(papers.map(p => [p.id, p]))]. *)
Definition hasPaperId (papers : list Paper) (x : string) : bool :=
  existsb (fun p => String.eqb (id p) x) papers.

(** [list?.forEach(...)]: nothing happens for an absent list. *)
Definition orNone {A} (l : option (list A)) : list A :=
  match l with Some xs => xs | None => [] end.

Definition findCitationRelationships (papers : list Paper) : list PaperRelationship :=
  flat_map (fun paper =>
    flat_map (fun refId =>
      if hasPaperId papers refId then
        [ {| sourceId := id paper;
             targetId := refId;
             relationshipType := RelationshipType.citation;
             strength := 0.9%float;
             metadata :=
               Some (Metadata.mk None None (Some (citationCount paper)) None None) |} ]
      else [])
    (orNone (references paper))
    ++
    flat_map (fun citId =>
      if hasPaperId papers citId then
        [ {| sourceId := citId;
             targetId := id paper;
             relationshipType := RelationshipType.citation;
             strength := 0.9%float;
             metadata :=
               Some (Metadata.mk None None (Some (citationCount paper)) None None) |} ]
      else [])
    (orNone (citations paper)))
  papers.

(** *** Deduplication and ranking *)

(** [`${a}-${b}-${type}`] *)
Definition relKey (a b : string) (k : RelationshipType.t) : string :=
  a ++ "-" ++ b ++ "-" ++ RelationshipType.name k.

(** The loop of [deduplicateRelationships], from a given [seen] set; the
    kept relationships come out in the order they are pushed to [unique]. *)
Fixpoint deduplicateFrom (seen : list string) (relationships : list PaperRelationship)
    : list PaperRelationship :=
  match relationships with
  | [] => []
  | rel :: rest =>
      let key1 := relKey (sourceId rel) (targetId rel) (relationshipType rel) in
      let key2 := relKey (targetId rel) (sourceId rel) (relationshipType rel) in
      if negb (inStrings key1 seen) && negb (inStrings key2 seen) then
        rel :: deduplicateFrom (key1 :: seen) rest
      else deduplicateFrom seen rest
  end.

Definition deduplicateRelationships (relationships : list PaperRelationship)
    : list PaperRelationship :=
  deduplicateFrom [] relationships.

Definition typeWeight (k : RelationshipType.t) : float :=
  match k with
  | RelationshipType.citation => 5
  | RelationshipType.author => 4
  | RelationshipType.content => 3
  | RelationshipType.venue => 2
  | RelationshipType.temporal => 1
  end%float.

Definition score (rel : PaperRelationship) : float :=
  PrimFloat.mul (typeWeight (relationshipType rel)) (strength rel).

(** The comparator [(a, b) => bScore - aScore] is positive. *)
Definition rankedAfter (a b : PaperRelationship) : bool :=
  PrimFloat.ltb 0 (PrimFloat.sub (score b) (score a)).

Definition rankRelationships (relationships : list PaperRelationship)
    : list PaperRelationship :=
  Js.sort rankedAfter relationships.

(** *** The pipeline *)

Definition maxComparisons : Z := 50000.

(** [Math.floor(Math.min(papers.length, Math.sqrt(maxComparisons)))]: the
    length is an integer, so the floor of the minimum is the minimum with
    the integer square root. *)
Definition sampleSizeFor (papers : list Paper) : Z :=
  Z.min (Z.of_nat (List.length papers)) (Z.sqrt maxComparisons).

(** The local [sampledPapers] of [analyzeRelationships]. *)
Definition sampledPapers (papers : list Paper) : list Paper :=
  stratifiedSample papers (sampleSizeFor papers).

(** The relationships pushed by the five detectors, in the order of the
    five [push] statements. *)
Definition candidateRelationships (papers : list Paper) : Rand (list PaperRelationship) :=
  let authorIndex := buildAuthorIndex papers in
  let venueIndex := buildVenueIndex papers in
  let keywordIndex := buildKeywordIndex papers in
  let sampledPapers := sampledPapers papers in
  let fromAuthors := findAuthorRelationships sampledPapers authorIndex in
  fromVenues <- findVenueRelationships sampledPapers venueIndex ;;
  let fromContent := findContentRelationships sampledPapers keywordIndex in
  fromYears <- findTemporalRelationships sampledPapers ;;
  let fromCitations := findCitationRelationships sampledPapers in
  ret (fromAuthors ++ fromVenues ++ fromContent ++ fromYears ++ fromCitations).

Definition analyzeRelationships (papers : list Paper) : Rand (list PaperRelationship) :=
  relationships <- candidateRelationships papers ;;
  let uniqueRelationships := deduplicateRelationships relationships in
  let rankedRelationships := rankRelationships uniqueRelationships in
  ret (Js.slice rankedRelationships 0 200).

End RelationshipService.

(* ===================================================================== *)
(** ** [routes/research.ts]: the cache *)
(* ===================================================================== *)

Module InstantCache.

Import St Clock.
Local Open Scope st_scope.

Section WithData.
Context {D : Type}.

Record CacheItem : Type := {
  data : D;
  timestamp : Z;
  ttl : Z
}.

(** The two private fields of the class. *)
Record t : Type := {
  cache : Js.Map string CacheItem;
  maxSize : Z
}.

(** [new InstantCache()] *)
Definition new : t := {| cache := []; maxSize := 10000 |}.

Definition size (c : t) : Z := Z.of_nat (Js.size (cache c)).

Definition withCache (c : t) (m : Js.Map string CacheItem) : t :=
  {| cache := m; maxSize := maxSize c |}.

(** [now - item.timestamp > item.ttl] *)
Definition expired (now : Z) (item : CacheItem) : bool :=
  (ttl item <? now - timestamp item)%Z.

(** The loop
    [for (let i = 0; i < this.cache.size - this.maxSize; i++)
       this.cache.delete(entriesToDelete[i][0])];
    [remaining] is [entriesToDelete] from index [i] on. With every
    deletion [i] grows and the bound shrinks, so for [maxSize >= 0] the test
    fails before the entries run out and [entriesToDelete[i]] is always
    defined. *)
Fixpoint evictFrom (maxSize : Z) (i : nat) (remaining : list (string * CacheItem))
    (m : Js.Map string CacheItem) : Js.Map string CacheItem :=
  match remaining with
  | [] => m
  | (key, _) :: rest =>
      if (Z.of_nat i <? Z.of_nat (Js.size m) - maxSize)%Z
      then evictFrom maxSize (S i) rest (Js.delete String.eqb key m)
      else m
  end.

(** The comparator [(a, b) => a[1].timestamp - b[1].timestamp] is positive. *)
Definition newerThan (a b : string * CacheItem) : bool :=
  (0 <? timestamp (snd a) - timestamp (snd b))%Z.

Definition cleanup (c : t) : M Clock.Source t :=
  now <- Date_now ;;
  let swept := filter (fun entry => negb (expired now (snd entry))) (cache c) in
  if (maxSize c <? Z.of_nat (Js.size swept))%Z then
    let entriesToDelete := Js.sort newerThan swept in
    ret (withCache c (evictFrom (maxSize c) 0 entriesToDelete swept))
  else ret (withCache c swept).

(** [set(key, data, ttlMinutes = 60)] *)
Definition set (key : string) (value : D) (ttlMinutes : Z) (c : t) : M Clock.Source t :=
  c1 <- (if (maxSize c <=? size c)%Z then cleanup c else ret c) ;;
  now <- Date_now ;;
  ret (withCache c1
         (Js.set String.eqb key
                 {| data := value; timestamp := now; ttl := ttlMinutes * 60 * 1000 |}
                 (cache c1))).

(** [get(key)]: the stored data, or [null]; an expired entry is deleted. *)
Definition get (key : string) (c : t) : M Clock.Source (option D * t) :=
  match Js.get String.eqb key (cache c) with
  | None => ret (None, c)
  | Some item =>
      now <- Date_now ;;
      if expired now item
      then ret (None, withCache c (Js.delete String.eqb key (cache c)))
      else ret (Some (data item), c)
  end.

(** [getStats()]: the size after a cleanup, and the maximum. *)
Definition getStats (c : t) : M Clock.Source ((Z * Z) * t) :=
  c1 <- cleanup c ;;
  ret ((size c1, maxSize c1), c1).

End WithData.

Arguments CacheItem : clear implicits.
Arguments t : clear implicits.

End InstantCache.

(* ===================================================================== *)
(** ** [routes/research.ts]: [POST /build-knowledge-graph] *)
(* ===================================================================== *)

Module Research.

Import St.
Local Open Scope st_scope.

Module RS := RelationshipService.

(** An element of [graphEdges]. *)
Record Connection : Type := {
  source : string;
  target : string;
  type : string;
  strength : float
}.

(** An element of [graphNodes]: the fields that [optimizePapersForFrontend]
    computes from the fields of a [Paper]. The other fields of a node are
    not modelled: those it copies ([url], [localFilePath], [similarity],
    ...) and [hasLocalFile], which is [!!paper.localFilePath], come from
    fields that a request paper can carry and a [Paper] does not have. *)
Record GraphNode : Type := {
  id : string;
  title : string;
  authors : list string;
  year : option Z;
  citationCount : Z;
  abstract : string;
  venue : string
}.

Record GraphData : Type := {
  topic : string;
  relationshipsFromService : list RS.PaperRelationship;
  graphNodes : list GraphNode;
  graphEdges : list Connection;
  databaseStored : bool;
  totalPapersProvided : Z;
  papersInGraph : Z;
  cached : bool
}.

Record ResponseBody : Type := {
  success : bool;
  message : string;
  data : GraphData
}.

(** What the handler sends: [res.status(400).json({success: false, message})]
    or [res.json(body)]. *)
Inductive Response : Type :=
| Status400 (message : string)
| Status200 (body : ResponseBody).

(** [req.body]: [papers] is [None] when it is missing or not an array. *)
Record RequestBody : Type := {
  papers : option (list RS.Paper);
  requestTopic : option string
}.

(** The process state the handler works on: the two effect streams and the
    module-level [graphCache]. *)
Record World : Type := {
  randoms : Random.Source;
  clock : Clock.Source;
  graphCache : InstantCache.t ResponseBody
}.

Definition usingRandom {A} (c : Random.Rand A) : M World A :=
  fun w => let (a, r) := c (randoms w) in
           (a, {| randoms := r; clock := clock w; graphCache := graphCache w |}).

Definition usingClock {A} (c : M Clock.Source A) : M World A :=
  fun w => let (a, k) := c (clock w) in
           (a, {| randoms := randoms w; clock := k; graphCache := graphCache w |}).

Definition onGraphCache {A}
    (f : InstantCache.t ResponseBody -> M Clock.Source (A * InstantCache.t ResponseBody))
    : M World A :=
  fun w => let '((a, c), k) := f (graphCache w) (clock w) in
           (a, {| randoms := randoms w; clock := k; graphCache := c |}).

(** [s || d] on a string. *)
Definition stringOr (s d : string) : string :=
  if String.eqb s EmptyString then d else s.

(** [authors] is an array in every [Paper], and an array is truthy: the
    default [['Unknown Author']] is for a paper without the field, which
    the type does not have. *)
Definition optimizePapersForFrontend (papers : list RS.Paper)
    : M Clock.Source (list GraphNode) :=
  mapM (fun entry =>
    let '(index, paper) := entry in
    nodeId <- (if String.eqb (RS.id paper) EmptyString then
                 now <- Clock.Date_now ;;
                 ret ("paper-" ++ Js.numberToString now ++ "-"
                              ++ Js.numberToString (Z.of_nat index))%string
               else ret (RS.id paper)) ;;
    ret {| id := nodeId;
           title := stringOr (RS.title paper) "Untitled Paper";
           authors := Js.slice (RS.authors paper) 0 3;
           year := RS.truthyNumber (RS.year paper);
           citationCount := RS.numberOr (RS.citationCount paper) 0;
           abstract :=
             match RS.truthyString (RS.abstract paper) with
             | Some a => (substring 0 300 a
                          ++ (if (300 <? String.length a)%nat then "..." else EmptyString))%string
             | None => "No abstract available"
             end;
           venue := stringOr (RS.stringOrEmpty (RS.venue paper)) "Unknown Venue" |})
  (RS.indexed papers).

Definition maxConnections (n : nat) : Z := Z.min 1000 (Z.of_nat n * 2).

Definition maxConnectionsPerPaper (n : nat) : Z := Z.min 5 (Z.of_nat n - 1).

Definition titleWords (paper : RS.Paper) : list string :=
  filter (fun w => (3 <? String.length w)%nat)
         (Js.splitOnSpace (Js.toLowerCase (RS.title paper))).

Definition yearsClose (paper1 paper2 : RS.Paper) : bool :=
  match RS.truthyNumber (RS.year paper1), RS.truthyNumber (RS.year paper2) with
  | Some y1, Some y2 => (Z.abs (y1 - y2) <=? 1)%Z
  | _, _ => false
  end.

(** The inner loop of [generateGraphConnections] for one [i]: [rest] holds
    the papers at the indexes [j > i] still to visit. *)
Fixpoint connectFrom (n i : nat) (paper1 : RS.Paper) (rest : list (nat * RS.Paper))
    (connectionsForThisPaper : Z) (connections : list Connection)
    : Random.Rand (list Connection) :=
  match rest with
  | [] => ret connections
  | (j, paper2) :: rest' =>
      if (connectionsForThisPaper <? maxConnectionsPerPaper n)%Z
         && (Z.of_nat (List.length connections) <? maxConnections n)%Z then
        let p1Id := stringOr (RS.id paper1) ("paper-gen-" ++ Js.numberToString (Z.of_nat i))%string in
        let p2Id := stringOr (RS.id paper2) ("paper-gen-" ++ Js.numberToString (Z.of_nat j))%string in
        let push kind s :=
          connections ++ [ {| source := p1Id; target := p2Id; type := kind; strength := s |} ] in
        let sharedAuthors :=
          filter (fun author =>
                    existsb (fun otherAuthor =>
                               Js.includes (Js.toLowerCase author) (Js.toLowerCase otherAuthor)
                               || Js.includes (Js.toLowerCase otherAuthor) (Js.toLowerCase author))
                            (RS.authors paper2))
                 (RS.authors paper1) in
        let title2Words := titleWords paper2 in
        let commonWords :=
          filter (fun word => RS.inStrings word title2Words) (titleWords paper1) in
        if (0 <? List.length sharedAuthors)%nat then
          connectFrom n i paper1 rest' (connectionsForThisPaper + 1)
                      (push "shared_author" 0.8%float)
        else if yearsClose paper1 paper2 then
          connectFrom n i paper1 rest' (connectionsForThisPaper + 1)
                      (push "temporal_proximity" 0.4%float)
        else if (2 <=? List.length commonWords)%nat then
          connectFrom n i paper1 rest' (connectionsForThisPaper + 1)
                      (push "title_overlap"
                            (Js.Math_min 0.7 (PrimFloat.mul (Js.ofNat (List.length commonWords)) 0.15)))
        else if (connectionsForThisPaper =? 0)%Z then
          r <- Random.Math_random ;;
          if PrimFloat.ltb r 0.01 && (2 * Z.of_nat i + Z.of_nat n <? 2 * Z.of_nat j)%Z then
            connectFrom n i paper1 rest' (connectionsForThisPaper + 1)
                        (push "random_link" 0.1%float)
          else connectFrom n i paper1 rest' connectionsForThisPaper connections
        else connectFrom n i paper1 rest' connectionsForThisPaper connections
      else ret connections
  end.

(** The outer loop: [todo] holds the papers at the indexes [i] still to
    visit. *)
Fixpoint connectAll (n : nat) (todo : list (nat * RS.Paper)) (connections : list Connection)
    : Random.Rand (list Connection) :=
  match todo with
  | [] => ret connections
  | (i, paper1) :: rest =>
      if (Z.of_nat (List.length connections) <? maxConnections n)%Z then
        connections' <- connectFrom n i paper1 rest 0 connections ;;
        connectAll n rest connections'
      else ret connections
  end.

Definition generateGraphConnections (papers : list RS.Paper)
    : Random.Rand (list Connection) :=
  connectAll (List.length papers) (RS.indexed papers) [].

(** [{source: rel.sourceId, target: rel.targetId,
      type: rel.relationshipType || 'semantic', strength: rel.strength || 0.5}] *)
Definition toConnection (rel : RS.PaperRelationship) : Connection :=
  {| source := RS.sourceId rel;
     target := RS.targetId rel;
     type := RelationshipType.name (RS.relationshipType rel);
     strength := if PrimFloat.is_zero (RS.strength rel) || Js.isNaN (RS.strength rel)
                 then 0.5%float else RS.strength rel |}.

(** [{...cachedGraph, data: {...cachedGraph.data, cached: true}}] *)
Definition markCached (body : ResponseBody) : ResponseBody :=
  {| success := success body;
     message := message body;
     data := {| topic := topic (data body);
                relationshipsFromService := relationshipsFromService (data body);
                graphNodes := graphNodes (data body);
                graphEdges := graphEdges (data body);
                databaseStored := databaseStored (data body);
                totalPapersProvided := totalPapersProvided (data body);
                papersInGraph := papersInGraph (data body);
                cached := true |} |}.

Definition graphCacheKey (currentTopic : string) (papers : list RS.Paper) : string :=
  Js.strSlice0
    ("graph_" ++ currentTopic ++ "_"
              ++ Js.join "_" (Js.sort Js.defaultGt (map RS.id papers)))
    100.

(** [topic || 'research_graph_topic'] *)
Definition currentTopicOf (requestTopic : option string) : string :=
  stringOr (RS.stringOrEmpty requestTopic) "research_graph_topic".

(** The handler after a cache miss: build, store under [cacheKey], respond.
    The handler awaits [neo4jService.storeResearchGraph] between the
    analysis and the response; the promise has a [catch] that only logs,
    and the call touches nothing of [World]. It is left out: the embedding
    describes the runs in which this promise settles and nothing throws,
    so that the handler answers with 400 or 200 and never with the 500 of
    its [catch]. *)
Definition buildAndCache (cacheKey currentTopic : string) (papers : list RS.Paper)
    : M World Response :=
  let limitedPapers := Js.slice papers 0 500 in
  relationships <- usingRandom (RS.analyzeRelationships limitedPapers) ;;
  additionalConnections <- usingRandom (generateGraphConnections limitedPapers) ;;
  let allConnections := map toConnection relationships ++ additionalConnections in
  nodes <- usingClock (optimizePapersForFrontend limitedPapers) ;;
  let responseData :=
    {| success := true;
       message := ("Knowledge graph built with "
                     ++ Js.numberToString (Z.of_nat (List.length limitedPapers))
                     ++ " nodes and "
                     ++ Js.numberToString (Z.of_nat (List.length allConnections))
                     ++ " connections")%string;
       data := {| topic := currentTopic;
                  relationshipsFromService := relationships;
                  graphNodes := nodes;
                  graphEdges := allConnections;
                  databaseStored := true;
                  totalPapersProvided := Z.of_nat (List.length papers);
                  papersInGraph := Z.of_nat (List.length limitedPapers);
                  cached := false |} |} in
  _ <- onGraphCache (fun c => c' <- InstantCache.set cacheKey responseData 60 c ;;
                              ret (tt, c')) ;;
  ret (Status200 responseData).

(** The handler of [POST /build-knowledge-graph]. *)
Definition buildKnowledgeGraph (body : RequestBody) : M World Response :=
  match papers body with
  | None | Some [] => ret (Status400 "Papers array (non-empty) is required")
  | Some papers =>
      let currentTopic := currentTopicOf (requestTopic body) in
      let cacheKey := graphCacheKey currentTopic papers in
      cachedGraph <- onGraphCache (InstantCache.get cacheKey) ;;
      match cachedGraph with
      | Some cachedBody => ret (Status200 (markCached cachedBody))
      | None => buildAndCache cacheKey currentTopic papers
      end
  end.

End Research.

(* ===================================================================== *)
(** ** [analyzeRelationships] when a detector throws *)
(* ===================================================================== *)

Module DetectorFailure.

Import St Random RelationshipService.
Local Open Scope st_scope.

(** A call returns a value or throws an error. *)
Inductive Outcome (A : Type) : Type :=
| Returned (a : A)
| Thrown (error : string).

Arguments Returned {A} a.
Arguments Thrown {A} error.

(** The five methods that [analyzeRelationships] calls through [this], each
    of which may throw. *)
Record Detectors : Type := {
  authorDetector :
    list Paper -> Js.Map string (list Paper) -> Rand (Outcome (list PaperRelationship));
  venueDetector :
    list Paper -> Js.Map string (list Paper) -> Rand (Outcome (list PaperRelationship));
  contentDetector :
    list Paper -> Js.Map string (list Paper) -> Rand (Outcome (list PaperRelationship));
  temporalDetector : list Paper -> Rand (Outcome (list PaperRelationship));
  citationDetector : list Paper -> Rand (Outcome (list PaperRelationship))
}.

(** Sequencing of two statements none of which is inside a [try]: an error
    of the first one leaves the function at once. *)
Definition andThen {A B} (c : Rand (Outcome A)) (k : A -> Rand (Outcome B))
    : Rand (Outcome B) :=
  fun s => match c s with
           | (Returned a, s') => k a s'
           | (Thrown e, s') => (Thrown e, s')
           end.

(** The body of [analyzeRelationships], statement by statement, over
    detectors that may throw. It has no [try]/[catch]. *)
Definition analyzeRelationshipsWith (d : Detectors) (papers : list Paper)
    : Rand (Outcome (list PaperRelationship)) :=
  let authorIndex := buildAuthorIndex papers in
  let venueIndex := buildVenueIndex papers in
  let keywordIndex := buildKeywordIndex papers in
  let sampledPapers := sampledPapers papers in
  andThen (authorDetector d sampledPapers authorIndex) (fun fromAuthors =>
  andThen (venueDetector d sampledPapers venueIndex) (fun fromVenues =>
  andThen (contentDetector d sampledPapers keywordIndex) (fun fromContent =>
  andThen (temporalDetector d sampledPapers) (fun fromYears =>
  andThen (citationDetector d sampledPapers) (fun fromCitations =>
    let relationships :=
      fromAuthors ++ fromVenues ++ fromContent ++ fromYears ++ fromCitations in
    let uniqueRelationships := deduplicateRelationships relationships in
    let rankedRelationships := rankRelationships uniqueRelationships in
    ret (Returned (Js.slice rankedRelationships 0 200))))))).

(** A method that always returns. *)
Definition returning {A} (c : Rand A) : Rand (Outcome A) :=
  a <- c ;; ret (Returned a).

(** The detectors of the class itself. *)
Definition ownDetectors : Detectors :=
  {| authorDetector := fun ps index => returning (ret (findAuthorRelationships ps index));
     venueDetector := fun ps index => returning (findVenueRelationships ps index);
     contentDetector := fun ps index => returning (ret (findContentRelationships ps index));
     temporalDetector := fun ps => returning (findTemporalRelationships ps);
     citationDetector := fun ps => returning (ret (findCitationRelationships ps)) |}.

(** A method that throws. *)
Definition throwing {A} (error : string) : Rand (Outcome A) :=
  ret (Thrown error).

End DetectorFailure.

(* ===================================================================== *)
(** ** Vocabulary of the properties *)
(* ===================================================================== *)

Module Vocabulary.

Import RelationshipService.

(** [l1] holds some of the elements of [l2], each at most as often. *)
Definition SubPerm {A} (l1 l2 : list A) : Prop :=
  exists rest, Permutation (l1 ++ rest) l2.

(** All the papers stored in a map of buckets. *)
Definition stored {K} (m : Js.Map K (list Paper)) : list Paper :=
  List.concat (map snd m).

(** Where an edge of a bucket-driven detector comes from: a paper of the
    list the detector walks, and another paper, with a different id, stored
    in the index. *)
Definition FromBucket (k : RelationshipType.t) (papers : list Paper)
    (index : Js.Map string (list Paper)) (r : PaperRelationship) : Prop :=
  relationshipType r = k
  /\ exists paper otherPaper,
       In paper papers /\ In otherPaper (stored index)
       /\ sourceId r = id paper /\ targetId r = id otherPaper
       /\ id paper <> id otherPaper.

(** An edge of type [k] between two ids of the list. *)
Definition FromList (k : RelationshipType.t) (papers : list Paper)
    (r : PaperRelationship) : Prop :=
  relationshipType r = k
  /\ In (sourceId r) (map id papers) /\ In (targetId r) (map id papers).

(** Where a temporal edge comes from: a paper of the list and a paper at a
    later position. *)
Definition FromLater (papers : list Paper) (r : PaperRelationship) : Prop :=
  relationshipType r = RelationshipType.temporal
  /\ exists i paper otherPaper,
       nth_error papers i = Some paper /\ In otherPaper (skipn (S i) papers)
       /\ sourceId r = id paper /\ targetId r = id otherPaper.

(** The shape of a citation edge pushed while [paper] is visited. *)
Definition citationEdge (from to : string) (paper : Paper) : PaperRelationship :=
  {| sourceId := from;
     targetId := to;
     relationshipType := RelationshipType.citation;
     strength := 0.9%float;
     metadata := Some (Metadata.mk None None (Some (citationCount paper)) None None) |}.

(** Same unordered pair of endpoints and same type. *)
Definition sameEdge (a b : PaperRelationship) : Prop :=
  relationshipType a = relationshipType b
  /\ ((sourceId a = sourceId b /\ targetId a = targetId b)
      \/ (sourceId a = targetId b /\ targetId a = sourceId b)).


(** The two keys that [deduplicateRelationships] computes for an edge. *)
Definition key1 (r : PaperRelationship) : string :=
  relKey (sourceId r) (targetId r) (relationshipType r).
Definition key2 (r : PaperRelationship) : string :=
  relKey (targetId r) (sourceId r) (relationshipType r).

(** [y] occurs in [rels], and no element before that occurrence has the
    same endpoints and type. *)
Definition FirstSeen (rels : list PaperRelationship) (y : PaperRelationship) : Prop :=
  exists i, nth_error rels i = Some y
            /\ forall j r', (j < i)%nat -> nth_error rels j = Some r' -> ~ sameEdge r' y.

(** Every entry of the cache was stored at time [t] with a TTL that is not
    negative. *)
Definition storedAt {D} (t : Z) (c : InstantCache.t D) : Prop :=
  Forall (fun e => InstantCache.timestamp (snd e) = t
                   /\ (0 <= InstantCache.ttl (snd e))%Z)
         (InstantCache.cache c).

(** The world after one reading of the clock and nothing else. *)
Definition afterRead (w : Research.World) : Research.World :=
  {| Research.randoms := Research.randoms w;
     Research.clock := fun n => Research.clock w (S n);
     Research.graphCache := Research.graphCache w |}.

End Vocabulary.

(* ===================================================================== *)
(** ** Inputs used in the examples *)
(* ===================================================================== *)

Module Examples.
Import RelationshipService.

(** A paper with the given id, authors, year and citation count, and
    nothing else. *)
Definition paperOf (i : string) (who : list string) (y : Z) (cited : Z) : Paper :=
  {| id := i; title := "untitled"; authors := who; abstract := None;
     year := Some y; venue := None; citationCount := Some cited;
     references := None; citations := None |}.

(** Three papers of 2020 and one of 2023: the sample takes two papers per
    year and leaves out the least cited paper of 2020, ["C"], which shares
    an author with ["A"]. *)
Definition fourPapers : list Paper :=
  [ paperOf "A" ["J. Smith"] 2020 9; paperOf "B" [] 2020 5;
    paperOf "C" ["j. smith"] 2020 1; paperOf "D" [] 2023 0 ].

(** Two records with the same id and the same year. *)
Definition twins : list Paper :=
  [ paperOf "p" [] 2020 0; paperOf "p" [] 2020 0 ].

(** ["X"] lists ["Y"] among the papers that cite it. *)
Definition citedPair : list Paper :=
  [ {| id := "X"; title := "untitled"; authors := []; abstract := None;
       year := None; venue := None; citationCount := None;
       references := None; citations := Some ["Y"] |};
    {| id := "Y"; title := "untitled"; authors := []; abstract := None;
       year := None; venue := None; citationCount := None;
       references := None; citations := None |} ].

(** A paper that lists itself among its references. *)
Definition selfCiting : list Paper :=
  [ {| id := "Z"; title := "untitled"; authors := []; abstract := None;
       year := None; venue := None; citationCount := None;
       references := Some ["Z"]; citations := None |} ].

(** Two papers of different years with one author in common, and a third
    paper with nothing in common with them. *)
Definition smithPapers : list Paper :=
  [ paperOf "A" ["J. Smith"] 2020 3; paperOf "B" ["J. Smith"; "K. Lee"] 2015 2;
    paperOf "C" ["M. Roe"] 2000 1 ].

(** ["X"] has ["Y"] among its references. *)
Definition referencingPair : list Paper :=
  [ {| id := "X"; title := "untitled"; authors := []; abstract := None;
       year := None; venue := None; citationCount := Some 7%Z;
       references := Some ["Y"]; citations := None |};
    {| id := "Y"; title := "untitled"; authors := []; abstract := None;
       year := None; venue := None; citationCount := None;
       references := None; citations := None |} ].

(** A stream of draws that are all equal. *)
Definition always (x : float) : Random.Source := fun _ => x.

End Examples.

Module FailureExamples.
Import DetectorFailure.

(** The detectors of the class, except that the venue detector throws. *)
Definition venueFails : Detectors :=
  {| authorDetector := authorDetector ownDetectors;
     venueDetector := fun _ _ => throwing "venue detector failed";
     contentDetector := contentDetector ownDetectors;
     temporalDetector := temporalDetector ownDetectors;
     citationDetector := citationDetector ownDetectors |}.

End FailureExamples.

Module CacheExamples.
Import St.
Local Open Scope st_scope.

(** A key of [n] stars: different numbers give different keys. *)
Fixpoint keyOf (n : nat) : string :=
  match n with
  | O => EmptyString
  | S k => String "*"%char (keyOf k)
  end.

(** The first [n] keys. *)
Definition keysUpTo (n : nat) : list string := map keyOf (seq 0 n).

(** [cache.set(key, value)] for every key in turn, with the default TTL of
    60 minutes. *)
Fixpoint setEach {D} (keys : list string) (value : D) (c : InstantCache.t D)
    : M Clock.Source (InstantCache.t D) :=
  match keys with
  | [] => ret c
  | key :: rest => c' <- InstantCache.set key value 60 c ;; setEach rest value c'
  end.

(** A clock that stands still at [t]. *)
Definition frozenClock (t : Z) : Clock.Source := fun _ => t.

End CacheExamples.

Module RouteExamples.
Import Examples CacheExamples.

(** A process that has just started: an empty graph cache, a clock that
    stands at 0 and draws that are all 0. *)
Definition freshWorld : Research.World :=
  {| Research.randoms := always 0;
     Research.clock := frozenClock 0;
     Research.graphCache := InstantCache.new |}.

(** A request whose paper list is an empty array. *)
Definition emptyRequest : Research.RequestBody :=
  {| Research.papers := Some []; Research.requestTopic := Some "graphs" |}.

(** A request with four papers. *)
Definition fourPaperRequest : Research.RequestBody :=
  {| Research.papers := Some fourPapers; Research.requestTopic := Some "graphs" |}.

End RouteExamples.

(* ===================================================================== *)
(** ** Sequences of calls on a cache *)
(* ===================================================================== *)

Module CacheOps.

Import St.
Local Open Scope st_scope.

Section WithData.
Context {D : Type}.

(** A call of one of the three public methods of [InstantCache]. *)
Inductive Op : Type :=
| OpSet (key : string) (value : D) (ttlMinutes : Z)
| OpGet (key : string)
| OpGetStats.

(** The cache after the call; what the call returns is dropped. *)
Definition step (op : Op) (c : InstantCache.t D) : M Clock.Source (InstantCache.t D) :=
  match op with
  | OpSet key value ttlMinutes => InstantCache.set key value ttlMinutes c
  | OpGet key => r <- InstantCache.get key c ;; ret (snd r)
  | OpGetStats => r <- InstantCache.getStats c ;; ret (snd r)
  end.

(** The calls in turn. *)
Fixpoint run (ops : list Op) (c : InstantCache.t D) : M Clock.Source (InstantCache.t D) :=
  match ops with
  | [] => ret c
  | op :: rest => c' <- step op c ;; run rest c'
  end.

(** The entries of [c] that are not expired at [now]: what the first loop
    of [cleanup] leaves. *)
Definition unexpiredAt (now : Z) (c : InstantCache.t D)
    : Js.Map string (InstantCache.CacheItem D) :=
  filter (fun entry => negb (InstantCache.expired now (snd entry))) (InstantCache.cache c).

(** The state of a cache that the three public methods keep. *)
Definition Sound (c : InstantCache.t D) : Prop :=
  NoDup (Js.keys (InstantCache.cache c))
  /\ (0 <= InstantCache.maxSize c)%Z
  /\ (InstantCache.size c <= InstantCache.maxSize c + 1)%Z.

End WithData.

Arguments Op : clear implicits.

End CacheOps.

(* ===================================================================== *)
(** ** The route [GET /cache-stats] *)
(* ===================================================================== *)

Module CacheStats.

Import St.
Local Open Scope st_scope.

Section WithData.
Context {A B C : Type}.

(** The three module-level caches of the routes. *)
Record Caches : Type := {
  searchCache : InstantCache.t A;
  paperContentCache : InstantCache.t B;
  graphCache : InstantCache.t C
}.

(** The [stats] object; each cache reports its [{size, maxSize}]. *)
Record Stats : Type := {
  searchCacheStats : Z * Z;
  paperContentCacheStats : Z * Z;
  graphCacheStats : Z * Z;
  totalCachedItems : Z
}.

(** The handler: the [stats] object it sends in
    [{success: true, message, data: stats}], and the caches afterwards.
    The object literal calls [getStats] six times, in this order. *)
Definition cacheStats (caches : Caches) : M Clock.Source (Stats * Caches) :=
  r1 <- InstantCache.getStats (searchCache caches) ;;
  r2 <- InstantCache.getStats (paperContentCache caches) ;;
  r3 <- InstantCache.getStats (graphCache caches) ;;
  r4 <- InstantCache.getStats (snd r1) ;;
  r5 <- InstantCache.getStats (snd r2) ;;
  r6 <- InstantCache.getStats (snd r3) ;;
  ret ({| searchCacheStats := fst r1;
          paperContentCacheStats := fst r2;
          graphCacheStats := fst r3;
          totalCachedItems := fst (fst r4) + fst (fst r5) + fst (fst r6) |},
       {| searchCache := snd r4;
          paperContentCache := snd r5;
          graphCache := snd r6 |}).

End WithData.

Arguments Caches : clear implicits.

End CacheStats.

(* ===================================================================== *)
(** ** Vocabulary of the further properties *)
(* ===================================================================== *)

Module MoreVocabulary.

Import RelationshipService.

(** A lower-case letter, a digit or the underscore. *)
Definition keywordChar (c : ascii) : bool :=
  let n := nat_of_ascii c in
  Js.isWord c && negb ((65 <=? n)%nat && (n <=? 90)%nat).

(** Every character of the string passes the test. *)
Fixpoint allChars (f : ascii -> bool) (s : string) : bool :=
  match s with
  | EmptyString => true
  | String c r => f c && allChars f r
  end.

(** [l1] is [l2] with some elements left out, in the same order. *)
Inductive Subseq {A} : list A -> list A -> Prop :=
| Subseq_nil : Subseq [] []
| Subseq_keep x l1 l2 : Subseq l1 l2 -> Subseq (x :: l1) (x :: l2)
| Subseq_drop x l1 l2 : Subseq l1 l2 -> Subseq l1 (x :: l2).

(** The year bucket of a paper in the sampler: [paper.year || 2024]. *)
Definition yearBucket (paper : Paper) : Z := numberOr (year paper) 2024.

(** The citation count the sampler sorts by: [paper.citationCount || 0]. *)
Definition citedness (paper : Paper) : Z := numberOr (citationCount paper) 0.

(** All draws of the stream are at most [bound]. *)
Definition drawsAtMost (bound : float) (s : Random.Source) : Prop :=
  forall n, PrimFloat.ltb bound (s n) = false.

(** The key an author or venue string is indexed under. *)
Definition normalized (s : string) : string := Js.trim (Js.toLowerCase s).

(** The [overlapCount] that [findContentRelationships] reaches for
    [otherId] while it visits [paper]: one for every keyword of the paper
    and every paper with that id, other than the paper itself, in the
    bucket of the keyword. *)
Definition overlapCount (paper : Paper) (keywordIndex : Js.Map string (list Paper))
    (otherId : string) : nat :=
  list_sum
    (map (fun keyword =>
            List.length
              (filter (fun otherPaper =>
                         negb (String.eqb (id paper) (id otherPaper))
                         && String.eqb (id otherPaper) otherId)
                      (bucket keyword keywordIndex)))
         (extractKeywords (paperText paper))).

(** A counter that is incremented [c] more times. *)
Definition bumped (before : option nat) (c : nat) : option nat :=
  match before with
  | Some n => Some (n + c)%nat
  | None => if (c =? 0)%nat then None else Some c
  end.

(** The specification of a binary64 value that is a number and is not
    negative: [+0], a positive finite number or [+Infinity]. *)
Definition nonNegative (x : SpecFloat.spec_float) : Prop :=
  match x with
  | SpecFloat.S754_zero s | SpecFloat.S754_infinity s | SpecFloat.S754_finite s _ _ =>
      s = false
  | SpecFloat.S754_nan => False
  end.

(** The string has no hyphen. *)
Definition dashFree (s : string) : bool :=
  allChars (fun c => negb (Ascii.eqb c "-"%char)) s.

End MoreVocabulary.

Module MoreExamples.
Import RelationshipService.

(** A paper with the given id and title, and nothing else. *)
Definition titled (i t : string) : Paper :=
  {| id := i; title := t; authors := []; abstract := None;
     year := None; venue := None; citationCount := None;
     references := None; citations := None |}.

(** Two papers whose titles have four keywords in common. *)
Definition graphPapers : list Paper :=
  [ titled "G1" "Graph neural network models";
    titled "G2" "Neural network models on a graph" ].

(** A topic of 93 characters. *)
Definition longTopic : string := CacheExamples.keyOf 93.

(** A request with the long topic. *)
Definition longTopicRequest (papers : list Paper) : Research.RequestBody :=
  {| Research.papers := Some papers; Research.requestTopic := Some longTopic |}.

End MoreExamples.

(* ===================================================================== *)
(** ** A busy hour: inputs that fill the graph cache *)
(* ===================================================================== *)

Module EvictionExamples.
Import RelationshipService Examples CacheExamples.

(** The number [n] written with [width] binary digits, the lowest first. *)
Fixpoint word (width : nat) (n : N) : string :=
  match width with
  | O => EmptyString
  | S w => String (if N.odd n then "1"%char else "0"%char) (word w (N.div2 n))
  end.

(** Paper number [n] of a family of papers that have an id and nothing
    else; the ids are ["f"] followed by 14 binary digits. *)
Definition filler (n : N) : Paper :=
  {| id := String "f"%char (word 14 n); title := EmptyString; authors := [];
     abstract := None; year := None; venue := None; citationCount := None;
     references := None; citations := None |}.

(** A request for the graph of one paper of the family. *)
Definition fillerRequest (n : N) : Research.RequestBody :=
  {| Research.papers := Some [filler n]; Research.requestTopic := Some "t" |}.

(** The requests for the first [count] papers of the family. *)
Definition fillerRequests (count : nat) : list Research.RequestBody :=
  map (fun k => fillerRequest (N.of_nat k)) (seq 0 count).

(** Two papers of the same year, and the request for their graph. *)
Definition pair : list Paper :=
  [ paperOf "P" [] 2020 0; paperOf "Q" [] 2020 0 ].

Definition pairRequest : Research.RequestBody :=
  {| Research.papers := Some pair; Research.requestTopic := Some "graphs" |}.

(** The first draw is [x], every later draw is 0. *)
Definition firstDraw (x : float) : Random.Source :=
  fun n => match n with O => x | S _ => 0%float end.

(** A process that has just started: an empty graph cache, a clock that
    stands at 0, a first draw of 0.75 and draws of 0 after it. *)
Definition startWorld : Research.World :=
  {| Research.randoms := firstDraw 0.75;
     Research.clock := frozenClock 0;
     Research.graphCache := InstantCache.new |}.

End EvictionExamples.

(* ===================================================================== *)
(** ** Properties *)
(* ===================================================================== *)

Module ListFacts.
Import Vocabulary.


Lemma SubPerm_refl {A} (l : list A) : SubPerm l l.
Proof. exists []. now rewrite app_nil_r. Qed.

Lemma SubPerm_of_perm {A} (l1 l2 : list A) : Permutation l1 l2 -> SubPerm l1 l2.
Proof. intros H. exists []. now rewrite app_nil_r. Qed.

Lemma SubPerm_trans {A} (l1 l2 l3 : list A) :
  SubPerm l1 l2 -> SubPerm l2 l3 -> SubPerm l1 l3.
Proof.
  intros [r1 H1] [r2 H2]. exists (r1 ++ r2).
  rewrite app_assoc. now rewrite H1.
Qed.

Lemma SubPerm_app {A} (a b c d : list A) :
  SubPerm a b -> SubPerm c d -> SubPerm (a ++ c) (b ++ d).
Proof.
  intros [r1 H1] [r2 H2]. exists (r1 ++ r2).
  rewrite <- H1, <- H2.
  rewrite <- !app_assoc. apply Permutation_app_head.
  rewrite !app_assoc. apply Permutation_app_tail. apply Permutation_app_comm.
Qed.

Lemma SubPerm_nil {A} (l : list A) : SubPerm [] l.
Proof. now exists l. Qed.

Lemma SubPerm_firstn {A} n (l : list A) : SubPerm (firstn n l) l.
Proof. exists (skipn n l). now rewrite firstn_skipn. Qed.

Lemma SubPerm_skipn {A} n (l : list A) : SubPerm (skipn n l) l.
Proof.
  exists (firstn n l). rewrite Permutation_app_comm. now rewrite firstn_skipn.
Qed.

Lemma SubPerm_length {A} (l1 l2 : list A) : SubPerm l1 l2 -> List.length l1 <= List.length l2.
Proof.
  intros [r H]. apply Permutation_length in H. rewrite length_app in H. lia.
Qed.

Lemma SubPerm_In {A} (l1 l2 : list A) x : SubPerm l1 l2 -> In x l1 -> In x l2.
Proof.
  intros [r H] Hx. eapply Permutation_in; [exact H|]. apply in_or_app; now left.
Qed.

Lemma SubPerm_map {A B} (f : A -> B) (l1 l2 : list A) :
  SubPerm l1 l2 -> SubPerm (map f l1) (map f l2).
Proof.
  intros [r H]. exists (map f r). rewrite <- map_app. now apply Permutation_map.
Qed.

Lemma SubPerm_NoDup {A} (l1 l2 : list A) : SubPerm l1 l2 -> NoDup l2 -> NoDup l1.
Proof.
  intros [r H] Hn. apply Permutation_sym in H.
  apply (Permutation_NoDup H) in Hn. now apply NoDup_app_remove_r in Hn.
Qed.

Lemma SubPerm_flat_map {A B} (f g : A -> list B) (l : list A) :
  (forall x, In x l -> SubPerm (f x) (g x)) ->
  SubPerm (flat_map f l) (flat_map g l).
Proof.
  induction l as [|x l IH]; intros H; simpl.
  - apply SubPerm_refl.
  - apply SubPerm_app; [apply H; now left|]. apply IH. intros y Hy. apply H. now right.
Qed.
End ListFacts.

Module JsFacts.
Import Vocabulary ListFacts.

Lemma slice_from_0 {A} (l : list A) n :
  (0 <= n)%Z -> Js.slice l 0 n = firstn (Z.to_nat n) l.
Proof.
  intros Hn. unfold Js.slice, Js.relIndex.
  change (0 <? 0)%Z with false. cbv iota.
  destruct (Z.ltb_spec n 0); [lia|].
  cbv zeta. rewrite (Z.min_l 0) by lia. simpl skipn. rewrite Z.sub_0_r.
  destruct (Z.le_ge_cases n (Z.of_nat (List.length l))) as [Hle|Hle].
  - now rewrite Z.min_l by lia.
  - rewrite Z.min_r by lia. rewrite Nat2Z.id.
    rewrite firstn_all. symmetry. apply firstn_all2. lia.
Qed.

Lemma slice_SubPerm {A} (l : list A) a b : SubPerm (Js.slice l a b) l.
Proof.
  unfold Js.slice. eapply SubPerm_trans; [apply SubPerm_firstn | apply SubPerm_skipn].
Qed.

Lemma slice_In {A} (l : list A) a b x : In x (Js.slice l a b) -> In x l.
Proof. apply SubPerm_In, slice_SubPerm. Qed.

Lemma slice_from_0_length {A} (l : list A) n :
  (0 <= n)%Z -> List.length (Js.slice l 0 n) <= Z.to_nat n.
Proof. intros H. rewrite slice_from_0 by exact H. apply firstn_le_length. Qed.

Lemma slice_nat_length {A} (l : list A) (n : nat) :
  List.length (Js.slice l 0 (Z.of_nat n)) <= n.
Proof.
  pose proof (slice_from_0_length l (Z.of_nat n) (Nat2Z.is_nonneg n)) as H.
  now rewrite Nat2Z.id in H.
Qed.

Lemma sliceFrom_skipn {A} (l : list A) k :
  (0 <= k)%Z -> Js.sliceFrom l k = skipn (Z.to_nat k) l.
Proof.
  intros Hk. unfold Js.sliceFrom, Js.slice, Js.relIndex.
  destruct (Z.ltb_spec k 0); [lia|].
  destruct (Z.ltb_spec (Z.of_nat (List.length l)) 0); [lia|].
  cbv zeta. rewrite (Z.min_id (Z.of_nat (List.length l))).
  destruct (Z.le_ge_cases k (Z.of_nat (List.length l))) as [Hle|Hle].
  - rewrite Z.min_l by lia. apply firstn_all2. rewrite length_skipn. lia.
  - rewrite Z.min_r by lia. rewrite Z.sub_diag. simpl.
    symmetry. apply skipn_all2. lia.
Qed.

Lemma insert_perm {A} (gt : A -> A -> bool) x l : Permutation (Js.insert gt x l) (x :: l).
Proof.
  induction l as [|y r IH]; simpl; [reflexivity|].
  destruct (gt x y); [|reflexivity].
  rewrite IH. apply perm_swap.
Qed.

Lemma sort_perm {A} (gt : A -> A -> bool) l : Permutation (Js.sort gt l) l.
Proof.
  induction l as [|x r IH]; simpl; [reflexivity|].
  rewrite insert_perm. now constructor.
Qed.

Lemma sort_In {A} (gt : A -> A -> bool) l x : In x (Js.sort gt l) <-> In x l.
Proof.
  split; apply Permutation_in; [apply sort_perm | apply Permutation_sym, sort_perm].
Qed.
End JsFacts.

Module MapFacts.
Import Vocabulary ListFacts RelationshipService.

Section PushInto.
Context {K : Type} (eqb : K -> K -> bool).
Hypothesis eqb_eq : forall a b, eqb a b = true <-> a = b.


Lemma eqb_refl k : eqb k k = true.
Proof. now apply eqb_eq. Qed.

Lemma pushInto_nil k p : pushInto eqb k p [] = [(k, [p])].
Proof. unfold pushInto, Js.has. simpl. now rewrite eqb_refl. Qed.

Lemma pushInto_cons k p k' v r :
  pushInto eqb k p ((k', v) :: r)
  = if eqb k k' then (k', v ++ [p]) :: r else (k', v) :: pushInto eqb k p r.
Proof.
  unfold pushInto, Js.has. simpl.
  destruct (eqb k k') eqn:E; simpl.
  - now rewrite E.
  - destruct (Js.get eqb k r) eqn:G; simpl; rewrite E.
    + now rewrite G.
    + now destruct (Js.get eqb k (Js.set eqb k [] r)).
Qed.

Lemma pushInto_stored k p m : Permutation (stored (pushInto eqb k p m)) (p :: stored m).
Proof.
  induction m as [|[k' v] r IH].
  - rewrite pushInto_nil. reflexivity.
  - rewrite pushInto_cons. destruct (eqb k k'); unfold stored in *; simpl.
    + rewrite <- app_assoc. simpl.
      change (p :: v ++ List.concat (map snd r)) with ([p] ++ v ++ List.concat (map snd r)).
      rewrite (app_assoc [p]). rewrite (Permutation_app_comm [p] v).
      now rewrite <- app_assoc.
    + rewrite IH. apply Permutation_sym, Permutation_middle.
Qed.

Lemma pushInto_keys k p m :
  Js.keys (pushInto eqb k p m)
  = if existsb (eqb k) (Js.keys m) then Js.keys m else Js.keys m ++ [k].
Proof.
  induction m as [|[k' v] r IH].
  - now rewrite pushInto_nil.
  - rewrite pushInto_cons. unfold Js.keys in *. simpl.
    destruct (eqb k k'); simpl; [reflexivity|].
    rewrite IH. now destruct (existsb (eqb k) (map fst r)).
Qed.

Lemma pushInto_NoDup k p m : NoDup (Js.keys m) -> NoDup (Js.keys (pushInto eqb k p m)).
Proof.
  intros H. rewrite pushInto_keys.
  destruct (existsb (eqb k) (Js.keys m)) eqn:E; [exact H|].
  apply NoDup_app; [exact H | repeat constructor; intros [] | ].
  intros x Hx [Hk|[]]. subst x.
  assert (existsb (eqb k) (Js.keys m) = true); [|congruence].
  apply existsb_exists. exists k. split; [exact Hx | apply eqb_refl].
Qed.

Lemma get_of_In k v (m : Js.Map K (list Paper)) :
  NoDup (Js.keys m) -> In (k, v) m -> Js.get eqb k m = Some v.
Proof.
  induction m as [|[k' v'] r IH]; simpl; intros Hn Hin; [contradiction|].
  inversion Hn as [|? ? Hnot Hn']; subst.
  destruct Hin as [Heq|Hin].
  - inversion Heq; subst. now rewrite eqb_refl.
  - destruct (eqb k k') eqn:E.
    + apply eqb_eq in E. subst k'. exfalso. apply Hnot.
      unfold Js.keys. change k with (fst (k, v)). now apply in_map.
    + now apply IH.
Qed.

Lemma get_stored k v (m : Js.Map K (list Paper)) x :
  Js.get eqb k m = Some v -> In x v -> In x (stored m).
Proof.
  induction m as [|[k' v'] r IH]; simpl; intros Hg Hx; [discriminate|].
  unfold stored. simpl. apply in_or_app.
  destruct (eqb k k').
  - inversion Hg; subst. now left.
  - right. now apply IH.
Qed.

End PushInto.
End MapFacts.

Module SampleFacts.
Import Vocabulary ListFacts JsFacts MapFacts RelationshipService.

Lemma groupByYear_from papers m :
  NoDup (Js.keys m) ->
  let m' := fold_left (fun yearGroups paper =>
               pushInto Z.eqb (numberOr (year paper) 2024) paper yearGroups) papers m in
  NoDup (Js.keys m') /\ Permutation (stored m') (stored m ++ papers).
Proof.
  revert m. induction papers as [|p r IH]; intros m Hm; simpl.
  - split; [exact Hm | now rewrite app_nil_r].
  - destruct (IH (pushInto Z.eqb (numberOr (year p) 2024) p m)) as [H1 H2].
    + apply pushInto_NoDup; [apply Z.eqb_eq | exact Hm].
    + split; [exact H1|]. rewrite H2.
      rewrite (pushInto_stored Z.eqb Z.eqb_eq).
      simpl. apply Permutation_middle.
Qed.

Lemma groupByYear_spec papers :
  NoDup (Js.keys (groupByYear papers))
  /\ Permutation (stored (groupByYear papers)) papers.
Proof.
  destruct (groupByYear_from papers []) as [H1 H2]; [constructor|].
  split; [exact H1 | exact H2].
Qed.

(** The sample holds papers of the input, none more often than the input. *)
Lemma stratifiedSample_SubPerm papers sampleSize :
  SubPerm (stratifiedSample papers sampleSize) papers.
Proof.
  unfold stratifiedSample.
  destruct (groupByYear_spec papers) as [Hn Hp].
  set (m := groupByYear papers) in *.
  eapply SubPerm_trans; [apply slice_SubPerm|].
  set (ppy := Js.ceilDiv _ _).
  set (g := fun y : Z => match Js.get Z.eqb y m with
                         | Some yearPapers => Js.slice (Js.sort lessCited yearPapers) 0 ppy
                         | None => [] end).
  eapply SubPerm_trans; [apply SubPerm_of_perm, Permutation_flat_map, sort_perm|].
  eapply SubPerm_trans; [|apply SubPerm_of_perm, Hp].
  unfold Js.keys. rewrite flat_map_concat_map, map_map, <- flat_map_concat_map.
  unfold stored. rewrite <- flat_map_concat_map.
  apply SubPerm_flat_map. intros [k v] Hin. simpl. unfold g.
  rewrite (get_of_In Z.eqb Z.eqb_eq k v m Hn Hin).
  eapply SubPerm_trans; [apply slice_SubPerm|]. apply SubPerm_of_perm, sort_perm.
Qed.
End SampleFacts.

Module StFacts.
Import St.

Lemma bind_run {S A B} (c : M S A) (k : A -> M S B) s :
  bind c k s = k (fst (c s)) (snd (c s)).
Proof. unfold bind. now destruct (c s). Qed.

Lemma flatMapM_Forall {S A B} (P : B -> Prop) (f : A -> M S (list B)) l :
  (forall x s, In x l -> Forall P (fst (f x s))) ->
  forall s, Forall P (fst (flatMapM f l s)).
Proof.
  induction l as [|x r IH]; intros H s; simpl.
  - constructor.
  - rewrite !bind_run. simpl. apply Forall_app. split.
    + apply H. now left.
    + apply IH. intros y s' Hy. apply H. now right.
Qed.
End StFacts.

Module IndexFacts.
Import Vocabulary ListFacts JsFacts MapFacts RelationshipService.

Lemma fold_pushes_stored {K X} (eqb : K -> K -> bool)
    (eqb_eq : forall a b, eqb a b = true <-> a = b)
    (key : X -> K) (p : Paper) (xs : list X) (P : Paper -> Prop) m :
  P p -> Forall P (stored m) ->
  Forall P (stored (fold_left (fun idx x => pushInto eqb (key x) p idx) xs m)).
Proof.
  intros Hp. revert m. induction xs as [|x r IH]; intros m Hm; simpl; [exact Hm|].
  apply IH. eapply Permutation_Forall.
  - apply Permutation_sym, (pushInto_stored eqb eqb_eq).
  - now constructor.
Qed.

Lemma fold_papers_stored {K} (step : Js.Map K (list Paper) -> Paper -> Js.Map K (list Paper))
    (P : Paper -> Prop) :
  (forall m p, P p -> Forall P (stored m) -> Forall P (stored (step m p))) ->
  forall papers m, Forall P papers -> Forall P (stored m) ->
  Forall P (stored (fold_left step papers m)).
Proof.
  intros Hstep papers. induction papers as [|p r IH]; intros m Hps Hm; simpl; [exact Hm|].
  inversion Hps; subst. apply IH; [assumption|]. now apply Hstep.
Qed.

Lemma string_eqb_eq : forall a b : string, String.eqb a b = true <-> a = b.
Proof. exact String.eqb_eq. Qed.

Lemma buildAuthorIndex_stored papers :
  Forall (fun x => In x papers) (stored (buildAuthorIndex papers)).
Proof.
  unfold buildAuthorIndex. apply fold_papers_stored.
  - intros m p Hp Hm. now apply (fold_pushes_stored String.eqb string_eqb_eq).
  - now apply Forall_forall.
  - constructor.
Qed.

Lemma buildVenueIndex_stored papers :
  Forall (fun x => In x papers) (stored (buildVenueIndex papers)).
Proof.
  unfold buildVenueIndex. apply fold_papers_stored.
  - intros m p Hp Hm. destruct (truthyString (venue p)); [|exact Hm].
    eapply Permutation_Forall.
    + apply Permutation_sym, (pushInto_stored String.eqb string_eqb_eq).
    + now constructor.
  - now apply Forall_forall.
  - constructor.
Qed.

Lemma buildKeywordIndex_stored papers :
  Forall (fun x => In x papers) (stored (buildKeywordIndex papers)).
Proof.
  unfold buildKeywordIndex. apply fold_papers_stored.
  - intros m p Hp Hm. now apply (fold_pushes_stored String.eqb string_eqb_eq).
  - now apply Forall_forall.
  - constructor.
Qed.

Lemma bucket_stored k index x : In x (bucket k index) -> In x (stored index).
Proof.
  unfold bucket. destruct (Js.get String.eqb k index) eqn:G; [|contradiction].
  now apply (get_stored String.eqb k l index x).
Qed.
End IndexFacts.

Module DetectorFacts.
Import Vocabulary St ListFacts JsFacts MapFacts StFacts IndexFacts RelationshipService.


Lemma findAuthorRelationships_from papers index :
  Forall (FromBucket RelationshipType.author papers index)
         (findAuthorRelationships papers index).
Proof.
  apply Forall_forall. intros r Hr. unfold findAuthorRelationships in Hr.
  apply in_flat_map in Hr. destruct Hr as [paper [Hp Hr]].
  apply in_flat_map in Hr. destruct Hr as [a [Ha Hr]].
  apply in_flat_map in Hr. destruct Hr as [other [Ho Hr]].
  destruct (String.eqb_spec (id paper) (id other)) as [E|E]; simpl in Hr; [contradiction|].
  destruct (0 <? List.length (sharedAuthorsOf paper other))%nat; [|contradiction].
  destruct Hr as [Hr|[]]. subst r. split; [reflexivity|].
  exists paper, other. simpl. repeat split; auto.
  eapply bucket_stored; eassumption.
Qed.

Lemma findVenueRelationships_from papers index s :
  Forall (FromBucket RelationshipType.venue papers index)
         (fst (findVenueRelationships papers index s)).
Proof.
  revert s. unfold findVenueRelationships.
  apply flatMapM_Forall. intros paper s Hp.
  destruct (truthyString (venue paper)) as [v|]; [|constructor].
  revert s. apply flatMapM_Forall. intros other s Ho.
  destruct (String.eqb_spec (id paper) (id other)) as [E|E]; simpl; [constructor|].
  rewrite bind_run. simpl.
  destruct (PrimFloat.ltb _ _); simpl; constructor; [|constructor].
  split; [reflexivity|]. exists paper, other. simpl. repeat split; auto.
  eapply bucket_stored; eassumption.
Qed.

(** The ids counted in [relatedPapers] are ids of other papers. *)
Lemma set_keys {V} k (v : V) m x :
  In x (Js.keys (Js.set String.eqb k v m)) -> x = k \/ In x (Js.keys m).
Proof.
  induction m as [|[k' v'] r IH]; simpl.
  - intros [H|[]]; now left.
  - destruct (String.eqb k k'); simpl; intros [H|H]; auto.
    destruct (IH H); auto.
Qed.

Lemma countRelated_keys paper kws index :
  Forall (fun k => k <> id paper) (Js.keys (countRelated paper kws index)).
Proof.
  unfold countRelated.
  assert (Hgen : forall (m : Js.Map string nat),
            Forall (fun k => k <> id paper) (Js.keys m) ->
            Forall (fun k => k <> id paper)
              (Js.keys (fold_left (fun relatedPapers keyword =>
                 fold_left (fun relatedPapers otherPaper =>
                   if negb (String.eqb (id paper) (id otherPaper)) then
                     let seen := match Js.get String.eqb (id otherPaper) relatedPapers with
                                 | Some n => n | None => 0%nat end in
                     Js.set String.eqb (id otherPaper) (seen + 1)%nat relatedPapers
                   else relatedPapers)
                 (bucket keyword index) relatedPapers) kws m))).
  { induction kws as [|kw r IH]; intros m Hm; simpl; [exact Hm|].
    apply IH. clear IH. revert m Hm.
    induction (bucket kw index) as [|o os IHo]; intros m Hm; simpl; [exact Hm|].
    apply IHo.
    destruct (String.eqb_spec (id paper) (id o)) as [E|E]; simpl; [exact Hm|].
    apply Forall_forall. intros x Hx. apply set_keys in Hx.
    destruct Hx as [Hx|Hx]; [subst x; congruence|].
    rewrite Forall_forall in Hm. now apply Hm. }
  apply Hgen. constructor.
Qed.


Lemma findContentRelationships_from papers index :
  Forall (fun r => FromList RelationshipType.content papers r
                   /\ sourceId r <> targetId r)
         (findContentRelationships papers index).
Proof.
  apply Forall_forall. intros r Hr. unfold findContentRelationships in Hr.
  apply in_flat_map in Hr. destruct Hr as [paper [Hp Hr]].
  apply in_flat_map in Hr. destruct Hr as [[otherId n] [He Hr]].
  destruct (3 <=? n)%nat; [|contradiction].
  destruct (Js.find _ papers) as [q|] eqn:F; [|contradiction].
  destruct Hr as [Hr|[]]. subst r. unfold FromList. simpl.
  apply find_some in F. destruct F as [Hq Hid]. apply String.eqb_eq in Hid.
  split; [split; [reflexivity|split]|].
  - now apply in_map.
  - rewrite <- Hid. now apply in_map.
  - pose proof (countRelated_keys paper (extractKeywords (paperText paper)) index) as Hk.
    rewrite Forall_forall in Hk. intros E. apply (Hk otherId); [|now symmetry].
    unfold Js.keys. change otherId with (fst (otherId, n)). now apply in_map.
Qed.

Lemma indexed_nth {A} (l : list A) i x :
  In (i, x) (indexed l) -> nth_error l i = Some x.
Proof.
  unfold indexed.
  assert (H : forall k, In (i, x) (combine (seq k (List.length l)) l) ->
                        exists j, i = (k + j)%nat /\ nth_error l j = Some x).
  { induction l as [|y r IH]; simpl; intros k Hin; [contradiction|].
    destruct Hin as [Heq|Hin].
    - inversion Heq; subst. exists 0%nat. split; [lia|reflexivity].
    - destruct (IH _ Hin) as [j [Hj Hn]]. exists (S j). split; [lia|exact Hn]. }
  intros Hin. destruct (H 0%nat Hin) as [j [Hj Hn]]. now subst.
Qed.


Lemma findTemporalRelationships_from papers s :
  Forall (FromLater papers) (fst (findTemporalRelationships papers s)).
Proof.
  revert s. unfold findTemporalRelationships.
  apply flatMapM_Forall. intros [i paper] s Hin.
  apply indexed_nth in Hin.
  destruct (truthyNumber (year paper)) as [y|]; [|constructor].
  destruct (Z.of_nat i <? Z.of_nat (List.length papers) - 1)%Z; [|constructor].
  revert s. apply flatMapM_Forall. intros other s Ho.
  apply slice_In in Ho. apply filter_In in Ho. destruct Ho as [Ho _].
  rewrite sliceFrom_skipn in Ho by lia.
  replace (Z.to_nat (Z.of_nat i + 1)) with (S i) in Ho by lia.
  rewrite bind_run. simpl.
  destruct (PrimFloat.ltb _ _); simpl; constructor; [|constructor].
  split; [reflexivity|]. exists i, paper, other. simpl. auto.
Qed.

Lemma NoDup_later {A B} (f : A -> B) (l : list A) i a b :
  NoDup (map f l) -> nth_error l i = Some a -> In b (skipn (S i) l) -> f a <> f b.
Proof.
  revert i. induction l as [|x r IH]; intros i Hn Ha Hb.
  - destruct i; discriminate.
  - simpl in Hn. inversion Hn as [|? ? Hnot Hn']; subst.
    destruct i as [|i]; simpl in *.
    + inversion Ha; subst. intros E. apply Hnot. rewrite E. now apply in_map.
    + eapply IH; eauto.
Qed.

Lemma FromLater_FromList papers r :
  FromLater papers r -> FromList RelationshipType.temporal papers r.
Proof.
  intros [Ht [i [p [o [Hp [Ho [Hs Hd]]]]]]]. split; [exact Ht|].
  rewrite Hs, Hd. split; apply in_map.
  - eapply nth_error_In; eassumption.
  - eapply SubPerm_In; [apply SubPerm_skipn | eassumption].
Qed.

Lemma hasPaperId_In papers x : hasPaperId papers x = true <-> In x (map id papers).
Proof.
  unfold hasPaperId. rewrite existsb_exists, in_map_iff.
  split; intros [p [H1 H2]]; exists p.
  - apply String.eqb_eq in H2. auto.
  - split; [exact H2 | now apply String.eqb_eq].
Qed.


Lemma findCitationRelationships_In papers r :
  In r (findCitationRelationships papers) <->
  exists paper, In paper papers /\
    ((exists refId, In refId (orNone (references paper))
                    /\ In refId (map id papers)
                    /\ r = citationEdge (id paper) refId paper)
     \/ (exists citId, In citId (orNone (citations paper))
                       /\ In citId (map id papers)
                       /\ r = citationEdge citId (id paper) paper)).
Proof.
  unfold findCitationRelationships. rewrite in_flat_map.
  split; intros [paper [Hp H]]; exists paper; (split; [exact Hp|]).
  - apply in_app_or in H. destruct H as [H|H]; [left|right];
      apply in_flat_map in H; destruct H as [x [Hx H]];
      destruct (hasPaperId papers x) eqn:E; try contradiction;
      destruct H as [H|[]]; exists x; apply hasPaperId_In in E; auto.
  - apply in_or_app. destruct H as [[x [Hx [Hi Hr]]]|[x [Hx [Hi Hr]]]]; [left|right];
      apply in_flat_map; exists x; (split; [exact Hx|]);
      apply hasPaperId_In in Hi; rewrite Hi; left; now symmetry.
Qed.

Lemma findCitationRelationships_from papers :
  Forall (fun r => FromList RelationshipType.citation papers r
                   /\ strength r = 0.9%float)
         (findCitationRelationships papers).
Proof.
  apply Forall_forall. intros r Hr. apply findCitationRelationships_In in Hr.
  destruct Hr as [paper [Hp [[x [Hx [Hi Hr]]]|[x [Hx [Hi Hr]]]]]]; subst r;
    unfold FromList; simpl; repeat split; auto; now apply in_map.
Qed.
End DetectorFacts.

Module DedupFacts.
Import Vocabulary St ListFacts JsFacts RelationshipService.



Lemma sameEdge_keys a b :
  sameEdge a b ->
  (key1 b = key1 a /\ key2 b = key2 a) \/ (key1 b = key2 a /\ key2 b = key1 a).
Proof.
  unfold key1, key2. intros [Ht [[H1 H2]|[H1 H2]]]; rewrite Ht, H1, H2; auto.
Qed.

Lemma inStrings_In s l : inStrings s l = true <-> In s l.
Proof.
  unfold inStrings. rewrite existsb_exists. split.
  - intros [x [Hx E]]. apply String.eqb_eq in E. now subst.
  - intros H. exists s. split; [exact H | apply String.eqb_refl].
Qed.

Lemma inStrings_cons_false s k l :
  inStrings s (k :: l) = false -> s <> k /\ inStrings s l = false.
Proof.
  unfold inStrings. simpl. intros H. apply orb_false_iff in H. destruct H as [H1 H2].
  split; [|exact H2]. intros E. subst. now rewrite String.eqb_refl in H1.
Qed.

(** What is kept was not seen before, under either key. *)
Lemma deduplicateFrom_unseen rels : forall seen y,
  In y (deduplicateFrom seen rels) ->
  inStrings (key1 y) seen = false /\ inStrings (key2 y) seen = false.
Proof.
  induction rels as [|rel rest IH]; intros seen y Hy; simpl in Hy; [contradiction|].
  fold (key1 rel) in Hy. fold (key2 rel) in Hy.
  destruct (inStrings (key1 rel) seen) eqn:E1; simpl in Hy.
  - now apply IH.
  - destruct (inStrings (key2 rel) seen) eqn:E2; simpl in Hy.
    + now apply IH.
    + destruct Hy as [Hy|Hy]; [subst; auto|].
      apply IH in Hy. destruct Hy as [H1 H2].
      apply inStrings_cons_false in H1, H2. tauto.
Qed.

Lemma unseen_not_same seen rel y :
  inStrings (key1 y) (key1 rel :: seen) = false ->
  inStrings (key2 y) (key1 rel :: seen) = false ->
  ~ sameEdge rel y.
Proof.
  intros H1 H2 Hs. apply inStrings_cons_false in H1, H2.
  destruct (sameEdge_keys _ _ Hs) as [[E _]|[_ E]]; tauto.
Qed.

Lemma seen_not_same seen rel y :
  inStrings (key1 rel) seen = true \/ inStrings (key2 rel) seen = true ->
  inStrings (key1 y) seen = false -> inStrings (key2 y) seen = false ->
  ~ sameEdge rel y.
Proof.
  intros Hrel H1 H2 Hs.
  destruct (sameEdge_keys _ _ Hs) as [[E1 E2]|[E1 E2]]; rewrite E1 in H1; rewrite E2 in H2;
    destruct Hrel; congruence.
Qed.



Lemma FirstSeen_later rel rest y :
  ~ sameEdge rel y -> FirstSeen rest y -> FirstSeen (rel :: rest) y.
Proof.
  intros Hn [i [Hi Hfirst]]. exists (S i). split; [exact Hi|].
  intros [|j] r' Hj Hr'; simpl in Hr'.
  - inversion Hr'; subst. exact Hn.
  - apply (Hfirst j); [lia | exact Hr'].
Qed.

Lemma deduplicateFrom_first rels : forall seen y,
  In y (deduplicateFrom seen rels) -> FirstSeen rels y.
Proof.
  induction rels as [|rel rest IH]; intros seen y Hy; simpl in Hy; [contradiction|].
  fold (key1 rel) in Hy. fold (key2 rel) in Hy.
  destruct (inStrings (key1 rel) seen) eqn:E1; simpl in Hy.
  - pose proof (deduplicateFrom_unseen _ _ _ Hy) as [U1 U2].
    apply FirstSeen_later; [|eapply IH; eassumption].
    eapply seen_not_same; eauto.
  - destruct (inStrings (key2 rel) seen) eqn:E2; simpl in Hy.
    + pose proof (deduplicateFrom_unseen _ _ _ Hy) as [U1 U2].
      apply FirstSeen_later; [|eapply IH; eassumption].
      eapply seen_not_same; eauto.
    + destruct Hy as [Hy|Hy].
      * subst y. exists 0%nat. split; [reflexivity|]. intros j r' Hj. lia.
      * pose proof (deduplicateFrom_unseen _ _ _ Hy) as [U1 U2].
        apply FirstSeen_later; [|eapply IH; eassumption].
        eapply unseen_not_same; eassumption.
Qed.


Lemma FirstSeen_In rels y : FirstSeen rels y -> In y rels.
Proof. intros [i [Hi _]]. eapply nth_error_In; eassumption. Qed.

Section Distinct.
Context {A : Type} (R : A -> A -> Prop).
Hypothesis R_sym : forall a b, R a b -> R b a.





End Distinct.
End DedupFacts.

Module PipelineFacts.
Import Vocabulary St ListFacts JsFacts MapFacts StFacts IndexFacts SampleFacts.
Import DetectorFacts DedupFacts RelationshipService.

Lemma candidateRelationships_run papers s :
  fst (candidateRelationships papers s)
  = findAuthorRelationships (sampledPapers papers) (buildAuthorIndex papers)
    ++ fst (findVenueRelationships (sampledPapers papers) (buildVenueIndex papers) s)
    ++ findContentRelationships (sampledPapers papers) (buildKeywordIndex papers)
    ++ fst (findTemporalRelationships (sampledPapers papers)
              (snd (findVenueRelationships (sampledPapers papers) (buildVenueIndex papers) s)))
    ++ findCitationRelationships (sampledPapers papers).
Proof.
  unfold candidateRelationships. cbv zeta. rewrite !bind_run. reflexivity.
Qed.

Lemma analyzeRelationships_run papers s :
  fst (analyzeRelationships papers s)
  = Js.slice (rankRelationships
                (deduplicateRelationships (fst (candidateRelationships papers s)))) 0 200.
Proof.
  unfold analyzeRelationships. rewrite bind_run. reflexivity.
Qed.

Lemma analyzeRelationships_first papers s r :
  In r (fst (analyzeRelationships papers s)) ->
  FirstSeen (fst (candidateRelationships papers s)) r.
Proof.
  rewrite analyzeRelationships_run. intros H.
  apply slice_In in H. apply sort_In in H.
  eapply deduplicateFrom_first; eassumption.
Qed.

Lemma analyzeRelationships_candidate papers s r :
  In r (fst (analyzeRelationships papers s)) ->
  In r (fst (candidateRelationships papers s)).
Proof. intros H. apply FirstSeen_In. now apply analyzeRelationships_first. Qed.

(** Every candidate comes from exactly one detector, with its provenance. *)
Lemma candidate_cases papers s r :
  In r (fst (candidateRelationships papers s)) ->
  FromBucket RelationshipType.author (sampledPapers papers) (buildAuthorIndex papers) r
  \/ FromBucket RelationshipType.venue (sampledPapers papers) (buildVenueIndex papers) r
  \/ (FromList RelationshipType.content (sampledPapers papers) r
      /\ sourceId r <> targetId r)
  \/ FromLater (sampledPapers papers) r
  \/ (FromList RelationshipType.citation (sampledPapers papers) r
      /\ strength r = 0.9%float).
Proof.
  rewrite candidateRelationships_run. intros H.
  repeat (apply in_app_or in H; destruct H as [H|H]).
  - left. revert r H. apply Forall_forall, findAuthorRelationships_from.
  - right; left. revert r H. apply Forall_forall, findVenueRelationships_from.
  - right; right; left. revert r H. apply Forall_forall, findContentRelationships_from.
  - right; right; right; left. revert r H. apply Forall_forall, findTemporalRelationships_from.
  - right; right; right; right. revert r H.
    apply Forall_forall, findCitationRelationships_from.
Qed.

Lemma filter_none k (l : list PaperRelationship) :
  k <> RelationshipType.citation ->
  Forall (fun r => relationshipType r = k) l ->
  filter (fun r => RelationshipType.eqb (relationshipType r) RelationshipType.citation) l = [].
Proof.
  intros Hk. induction 1 as [|x r Hx Hr IH]; simpl; [reflexivity|].
  rewrite Hx, IH. destruct k; try reflexivity. contradiction.
Qed.

Lemma filter_all (l : list PaperRelationship) :
  Forall (fun r => relationshipType r = RelationshipType.citation) l ->
  filter (fun r => RelationshipType.eqb (relationshipType r) RelationshipType.citation) l = l.
Proof.
  induction 1 as [|x r Hx Hr IH]; simpl; [reflexivity|]. now rewrite Hx, IH.
Qed.

Lemma sampledPapers_SubPerm papers : SubPerm (sampledPapers papers) papers.
Proof. apply stratifiedSample_SubPerm. Qed.

Lemma sampled_id_In papers x :
  In x (map id (sampledPapers papers)) -> In x (map id papers).
Proof. apply SubPerm_In, SubPerm_map, sampledPapers_SubPerm. Qed.

Lemma FromBucket_ends k papers index r :
  Forall (fun x => In x papers) (stored index) ->
  FromBucket k (sampledPapers papers) index r ->
  relationshipType r = k
  /\ In (sourceId r) (map id (sampledPapers papers))
  /\ In (targetId r) (map id papers)
  /\ sourceId r <> targetId r.
Proof.
  intros Hs [Hk [p [o [Hp [Ho [Es [Et Hne]]]]]]].
  rewrite Es, Et. repeat split; auto.
  - now apply in_map.
  - apply in_map. rewrite Forall_forall in Hs. now apply Hs.
Qed.
End PipelineFacts.

Module CacheFacts.
Import Vocabulary St StFacts CacheExamples.

Lemma get_set_same {V} k (v : V) m :
  Js.get String.eqb k (Js.set String.eqb k v m) = Some v.
Proof.
  induction m as [|[k' v'] r IH]; simpl.
  - now rewrite String.eqb_refl.
  - destruct (String.eqb k k') eqn:E; simpl; rewrite E; [reflexivity | exact IH].
Qed.

Lemma set_fresh {V} k (v : V) m :
  ~ In k (Js.keys m) -> Js.set String.eqb k v m = m ++ [(k, v)].
Proof.
  induction m as [|[k' v'] r IH]; simpl; intros H; [reflexivity|].
  destruct (String.eqb_spec k k') as [E|E]; [exfalso; apply H; now left|].
  rewrite IH; [reflexivity|]. intros Hin. apply H. now right.
Qed.

Lemma filter_keeps {A} (f : A -> bool) l :
  Forall (fun x => f x = true) l -> filter f l = l.
Proof. induction 1 as [|x r Hx Hr IH]; simpl; [reflexivity|]. now rewrite Hx, IH. Qed.

Lemma keyOf_length n : String.length (keyOf n) = n.
Proof. induction n; simpl; congruence. Qed.

Lemma keysUpTo_NoDup n : NoDup (keysUpTo n).
Proof.
  unfold keysUpTo. apply Injective_map_NoDup; [|apply seq_NoDup].
  intros a b E. apply (f_equal String.length) in E. now rewrite !keyOf_length in E.
Qed.

Lemma set_length {V} k (v : V) m :
  (List.length (Js.set String.eqb k v m) <= S (List.length m))%nat.
Proof.
  induction m as [|[k' v'] r IH]; simpl; [lia|].
  destruct (String.eqb k k'); simpl; lia.
Qed.

Lemma delete_length {V} k (m : Js.Map string V) :
  (List.length (Js.delete String.eqb k m) <= List.length m)%nat.
Proof.
  induction m as [|[k' v'] r IH]; simpl; [lia|].
  destruct (String.eqb k k'); simpl; lia.
Qed.

Lemma delete_length_In {V} k (m : Js.Map string V) :
  In k (Js.keys m) -> S (List.length (Js.delete String.eqb k m)) = List.length m.
Proof.
  induction m as [|[k' v'] r IH]; simpl; intros H; [contradiction|].
  destruct (String.eqb_spec k k') as [E|E]; [reflexivity|].
  destruct H as [H|H]; [congruence|]. simpl. now rewrite IH.
Qed.

Lemma evictFrom_length {D} maxSize remaining : forall i (m : Js.Map string (InstantCache.CacheItem D)),
  (List.length (InstantCache.evictFrom maxSize i remaining m) <= List.length m)%nat.
Proof.
  induction remaining as [|[k item] rest IH]; intros i m; simpl; [lia|].
  destruct (Z.of_nat i <? Z.of_nat (Js.size m) - maxSize)%Z; [|lia].
  etransitivity; [apply IH | apply delete_length].
Qed.

(** A cleanup of a cache with at most [maxSize + 1] entries leaves at most
    [maxSize]. *)
Lemma cleanup_size {D} (c : InstantCache.t D) clk :
  (0 <= InstantCache.maxSize c)%Z ->
  (InstantCache.size c <= InstantCache.maxSize c + 1)%Z ->
  (InstantCache.size (fst (InstantCache.cleanup c clk)) <= InstantCache.maxSize c)%Z
  /\ InstantCache.maxSize (fst (InstantCache.cleanup c clk)) = InstantCache.maxSize c.
Proof.
  intros Hmax Hsz. unfold InstantCache.cleanup. rewrite bind_run. simpl.
  set (swept := filter _ (InstantCache.cache c)).
  assert (Hsw : (List.length swept <= List.length (InstantCache.cache c))%nat)
    by apply filter_length_le.
  unfold InstantCache.size, Js.size in *.
  destruct (Z.ltb_spec (InstantCache.maxSize c) (Z.of_nat (List.length swept))) as [Hgt|Hle];
    simpl; [|split; [exact Hle | reflexivity]].
  split; [|reflexivity].
  pose proof (JsFacts.sort_perm InstantCache.newerThan swept) as Hp.
  destruct (Js.sort InstantCache.newerThan swept) as [|[k item] rest] eqn:Es.
  - apply Permutation_length in Hp. simpl in Hp. lia.
  - simpl. unfold Js.size.
    destruct (Z.ltb_spec 0 (Z.of_nat (List.length swept) - InstantCache.maxSize c)); [|lia].
    assert (Hk : In k (Js.keys swept)).
    { unfold Js.keys. change k with (fst (k, item)). apply in_map.
      eapply Permutation_in; [exact Hp | now left]. }
    pose proof (delete_length_In k swept Hk).
    pose proof (evictFrom_length (InstantCache.maxSize c) rest 1
                  (Js.delete String.eqb k swept)).
    lia.
Qed.

(** What the code does guarantee: a [set] on a cache with at most
    [maxSize + 1] entries leaves at most [maxSize + 1]. *)
Lemma set_size_bound {D} key (value : D) ttlMinutes (c : InstantCache.t D) clk :
  (0 <= InstantCache.maxSize c)%Z ->
  (InstantCache.size c <= InstantCache.maxSize c + 1)%Z ->
  (InstantCache.size (fst (InstantCache.set key value ttlMinutes c clk))
   <= InstantCache.maxSize c + 1)%Z
  /\ InstantCache.maxSize (fst (InstantCache.set key value ttlMinutes c clk))
     = InstantCache.maxSize c.
Proof.
  intros Hmax Hsz. unfold InstantCache.set. rewrite !bind_run. simpl.
  set (pre := (if (InstantCache.maxSize c <=? InstantCache.size c)%Z
               then InstantCache.cleanup c else ret c) clk).
  assert (Hpre : (InstantCache.size (fst pre) <= InstantCache.maxSize c)%Z
                 /\ InstantCache.maxSize (fst pre) = InstantCache.maxSize c).
  { unfold pre. destruct (Z.leb_spec (InstantCache.maxSize c) (InstantCache.size c)).
    - now apply cleanup_size.
    - simpl. split; [lia | reflexivity]. }
  destruct Hpre as [H1 H2]. split; [|exact H2].
  unfold InstantCache.size, Js.size in *. simpl.
  pose proof (set_length key
                {| InstantCache.data := value; InstantCache.timestamp := snd pre 0%nat;
                   InstantCache.ttl := ttlMinutes * 60 * 1000 |}
                (InstantCache.cache (fst pre))).
  lia.
Qed.

Section Fill.
Context {D : Type} (value : D) (t : Z).


Lemma cleanup_nothing (c : InstantCache.t D) :
  storedAt t c -> (InstantCache.size c <= InstantCache.maxSize c)%Z ->
  InstantCache.cleanup c (frozenClock t) = (c, frozenClock t).
Proof.
  intros Hs Hsz. unfold InstantCache.cleanup. rewrite bind_run. simpl.
  rewrite filter_keeps.
  - unfold InstantCache.size, Js.size in *.
    destruct (Z.ltb_spec (InstantCache.maxSize c) (Z.of_nat (List.length (InstantCache.cache c))));
      [lia|].
    unfold ret, InstantCache.withCache. now destruct c.
  - eapply Forall_impl; [|exact Hs]. intros e [Ht Httl]. unfold InstantCache.expired.
    rewrite Ht. destruct (Z.ltb_spec (InstantCache.ttl (snd e)) (frozenClock t 0 - t)); [|reflexivity].
    unfold frozenClock in *. lia.
Qed.

Lemma set_fresh_key key ttlMinutes (c : InstantCache.t D) :
  (0 <= ttlMinutes)%Z ->
  storedAt t c -> (InstantCache.size c <= InstantCache.maxSize c)%Z ->
  ~ In key (Js.keys (InstantCache.cache c)) ->
  InstantCache.set key value ttlMinutes c (frozenClock t)
  = ({| InstantCache.cache :=
          InstantCache.cache c
          ++ [(key, {| InstantCache.data := value; InstantCache.timestamp := t;
                       InstantCache.ttl := ttlMinutes * 60 * 1000 |})];
        InstantCache.maxSize := InstantCache.maxSize c |},
     frozenClock t).
Proof.
  intros Httl Hs Hsz Hk. unfold InstantCache.set. rewrite bind_run.
  assert (E : (if (InstantCache.maxSize c <=? InstantCache.size c)%Z
               then InstantCache.cleanup c else ret c) (frozenClock t)
              = (c, frozenClock t)).
  { destruct (InstantCache.maxSize c <=? InstantCache.size c)%Z;
      [now apply cleanup_nothing | reflexivity]. }
  rewrite E. simpl. rewrite bind_run. simpl.
  unfold ret, InstantCache.withCache. now rewrite set_fresh.
Qed.

Lemma setEach_fresh keys : forall (c : InstantCache.t D),
  NoDup keys ->
  (forall k, In k keys -> ~ In k (Js.keys (InstantCache.cache c))) ->
  storedAt t c ->
  (InstantCache.size c + Z.of_nat (List.length keys) <= InstantCache.maxSize c + 1)%Z ->
  Js.keys (InstantCache.cache (fst (setEach keys value c (frozenClock t))))
  = Js.keys (InstantCache.cache c) ++ keys
  /\ InstantCache.maxSize (fst (setEach keys value c (frozenClock t)))
     = InstantCache.maxSize c.
Proof.
  induction keys as [|k r IH]; intros c Hn Hfresh Hs Hsz; simpl.
  - now rewrite app_nil_r.
  - rewrite bind_run.
    inversion Hn as [|? ? Hk Hn']; subst.
    simpl List.length in Hsz.
    rewrite set_fresh_key; try lia; auto; [|apply Hfresh; now left].
    simpl fst. simpl snd.
    match goal with |- context [setEach r value ?c1 _] => destruct (IH c1) as [E1 E2] end.
    + exact Hn'.
    + simpl. unfold Js.keys. rewrite map_app. simpl. intros x Hx Hin.
      apply in_app_or in Hin. destruct Hin as [Hin|[Hin|[]]].
      * apply (Hfresh x); [now right | exact Hin].
      * subst x. contradiction.
    + unfold storedAt. simpl. apply Forall_app. split; [exact Hs|].
      repeat constructor; simpl; lia.
    + unfold InstantCache.size, Js.size in *. simpl. rewrite length_app. simpl. lia.
    + rewrite E1, E2. simpl. unfold Js.keys. rewrite map_app. simpl.
      rewrite <- app_assoc. now split.
Qed.

End Fill.
End CacheFacts.

Module RouteFacts.
Import Vocabulary St StFacts CacheFacts Research.

Lemma markCached_idem body : markCached (markCached body) = markCached body.
Proof. reflexivity. Qed.

(** After [set], the key holds the value with the TTL in milliseconds. *)
Lemma set_stores {D} key (value : D) ttlMinutes (c : InstantCache.t D) k :
  exists ts,
    Js.get String.eqb key (InstantCache.cache (fst (InstantCache.set key value ttlMinutes c k)))
    = Some {| InstantCache.data := value; InstantCache.timestamp := ts;
              InstantCache.ttl := ttlMinutes * 60 * 1000 |}.
Proof.
  unfold InstantCache.set. rewrite !bind_run. simpl.
  eexists. apply get_set_same.
Qed.

Lemma buildAndCache_stores cacheKey currentTopic papers w :
  exists body w1 ts,
    buildAndCache cacheKey currentTopic papers w = (Status200 body, w1)
    /\ cached (data body) = false
    /\ Js.get String.eqb cacheKey (InstantCache.cache (graphCache w1))
       = Some {| InstantCache.data := body; InstantCache.timestamp := ts;
                 InstantCache.ttl := 60 * 60 * 1000 |}.
Proof.
  unfold buildAndCache. cbv zeta.
  rewrite bind_run.
  destruct (usingRandom (RS.analyzeRelationships (Js.slice papers 0 500)) w) as [rels wa].
  simpl fst; simpl snd. rewrite bind_run.
  destruct (usingRandom (generateGraphConnections (Js.slice papers 0 500)) wa) as [conns wb].
  simpl fst; simpl snd. rewrite bind_run.
  destruct (usingClock (optimizePapersForFrontend (Js.slice papers 0 500)) wb) as [nodes wc].
  simpl fst; simpl snd.
  match goal with
  | |- context [InstantCache.set cacheKey ?b 60] => set (body := b)
  end.
  destruct (set_stores cacheKey body 60 (graphCache wc) (clock wc)) as [ts Hts].
  exists body. eexists. exists ts.
  split; [rewrite bind_run; reflexivity|]. split; [reflexivity|].
  unfold onGraphCache. rewrite bind_run. simpl. exact Hts.
Qed.

Lemma buildKnowledgeGraph_hit p ps requestTopic w item :
  Js.get String.eqb (graphCacheKey (currentTopicOf requestTopic) (p :: ps))
         (InstantCache.cache (graphCache w)) = Some item ->
  InstantCache.expired (clock w 0) item = false ->
  buildKnowledgeGraph {| papers := Some (p :: ps); requestTopic := requestTopic |} w
  = (Status200 (markCached (InstantCache.data item)), afterRead w).
Proof.
  intros Hg He. unfold buildKnowledgeGraph.
  cbn [Research.papers Research.requestTopic]. cbv zeta.
  rewrite bind_run. unfold onGraphCache, InstantCache.get.
  rewrite Hg. rewrite bind_run. simpl. rewrite He. reflexivity.
Qed.

Lemma buildKnowledgeGraph_absent p ps requestTopic w :
  Js.get String.eqb (graphCacheKey (currentTopicOf requestTopic) (p :: ps))
         (InstantCache.cache (graphCache w)) = None ->
  buildKnowledgeGraph {| papers := Some (p :: ps); requestTopic := requestTopic |} w
  = buildAndCache (graphCacheKey (currentTopicOf requestTopic) (p :: ps))
                  (currentTopicOf requestTopic) (p :: ps) w.
Proof.
  intros Hg. unfold buildKnowledgeGraph.
  cbn [Research.papers Research.requestTopic]. cbv zeta.
  rewrite bind_run. unfold onGraphCache, InstantCache.get.
  rewrite Hg. simpl. now destruct w.
Qed.

Lemma buildKnowledgeGraph_expired p ps requestTopic w item :
  Js.get String.eqb (graphCacheKey (currentTopicOf requestTopic) (p :: ps))
         (InstantCache.cache (graphCache w)) = Some item ->
  InstantCache.expired (clock w 0) item = true ->
  exists w',
    buildKnowledgeGraph {| papers := Some (p :: ps); requestTopic := requestTopic |} w
    = buildAndCache (graphCacheKey (currentTopicOf requestTopic) (p :: ps))
                    (currentTopicOf requestTopic) (p :: ps) w'.
Proof.
  intros Hg He. unfold buildKnowledgeGraph.
  cbn [Research.papers Research.requestTopic]. cbv zeta.
  rewrite bind_run. unfold onGraphCache, InstantCache.get.
  rewrite Hg. rewrite bind_run. simpl. rewrite He. simpl.
  eexists. reflexivity.
Qed.
End RouteFacts.

(* ===================================================================== *)
(** ** Two runs of the pipeline *)
(* ===================================================================== *)

Module Runs.

Import Vocabulary RelationshipService Examples.

(** The author detector finds the pair in both directions; the
    deduplication keeps the first, from ["B"] to ["A"] (the sample is in
    year order), with strength [1 * 0.3]; nothing touches ["C"]. *)
Example shared_author_run :
  map (fun r => (sourceId r, targetId r, relationshipType r, strength r))
      (fst (analyzeRelationships smithPapers (always 0)))
  = [("B", "A", RelationshipType.author, 0.3%float)].
Proof. vm_compute. reflexivity. Qed.

(** One citation edge from ["X"] to ["Y"], with strength 0.9, whatever the
    draws. *)
Example reference_run (s : Random.Source) :
  fst (analyzeRelationships referencingPair s)
  = [citationEdge "X" "Y" (paperOf "X" [] 0 7)].
Proof.
  rewrite PipelineFacts.analyzeRelationships_run,
          PipelineFacts.candidateRelationships_run.
  vm_compute. reflexivity.
Qed.

End Runs.

(* ===================================================================== *)
(** ** Further properties of the code *)
(* ===================================================================== *)

Module CacheOpsFacts.
Import Vocabulary St StFacts JsFacts DetectorFacts CacheFacts CacheOps.

Lemma keys_set_NoDup {V} k (v : V) m :
  NoDup (Js.keys m) -> NoDup (Js.keys (Js.set String.eqb k v m)).
Proof.
  induction m as [|[k' v'] r IH]; simpl; intros Hn.
  - repeat constructor. intros [].
  - inversion Hn as [|? ? Hnot Hn']; subst.
    destruct (String.eqb_spec k k') as [E|E]; simpl; constructor; auto.
    intros Hin. apply set_keys in Hin. destruct Hin; [congruence | contradiction].
Qed.

Lemma keys_delete_In {V} k (m : Js.Map string V) x :
  In x (Js.keys (Js.delete String.eqb k m)) -> In x (Js.keys m).
Proof.
  induction m as [|[k' v'] r IH]; simpl; [tauto|].
  destruct (String.eqb k k'); simpl; intros H; [now right|].
  destruct H; [now left | right; auto].
Qed.

Lemma keys_delete_NoDup {V} k (m : Js.Map string V) :
  NoDup (Js.keys m) -> NoDup (Js.keys (Js.delete String.eqb k m)).
Proof.
  induction m as [|[k' v'] r IH]; simpl; intros Hn; [constructor|].
  inversion Hn as [|? ? Hnot Hn']; subst.
  destruct (String.eqb k k'); simpl; [exact Hn'|].
  constructor; auto. intros Hin. apply Hnot. eapply keys_delete_In; eassumption.
Qed.

Lemma keys_filter_NoDup {V} (f : string * V -> bool) (m : Js.Map string V) :
  NoDup (Js.keys m) -> NoDup (Js.keys (filter f m)).
Proof.
  induction m as [|e r IH]; simpl; intros Hn; [constructor|].
  inversion Hn as [|? ? Hnot Hn']; subst.
  destruct (f e); simpl; auto. constructor; auto.
  intros Hin. apply Hnot. unfold Js.keys in *.
  apply in_map_iff in Hin. destruct Hin as [y [Hy Hin]].
  apply filter_In in Hin. rewrite <- Hy. apply in_map. tauto.
Qed.

Lemma delete_In {V} k (m : Js.Map string V) e :
  In e (Js.delete String.eqb k m) -> In e m.
Proof.
  induction m as [|[k' v'] r IH]; simpl; [tauto|].
  destruct (String.eqb k k'); simpl; intros H; [now right|].
  destruct H; [now left | right; auto].
Qed.

Lemma get_absent {V} k (m : Js.Map string V) :
  ~ In k (Js.keys m) -> Js.get String.eqb k m = None.
Proof.
  induction m as [|[k' v'] r IH]; simpl; intros H; [reflexivity|].
  destruct (String.eqb_spec k k') as [E|E]; [exfalso; apply H; now left|].
  apply IH. intros Hin. apply H. now right.
Qed.

Lemma get_delete_same {V} k (m : Js.Map string V) :
  NoDup (Js.keys m) -> Js.get String.eqb k (Js.delete String.eqb k m) = None.
Proof.
  induction m as [|[k' v'] r IH]; simpl; intros Hn; [reflexivity|].
  inversion Hn as [|? ? Hnot Hn']; subst.
  destruct (String.eqb_spec k k') as [E|E]; simpl.
  - subst k'. now apply get_absent.
  - destruct (String.eqb_spec k k'); [contradiction|]. now apply IH.
Qed.

Lemma get_set_other {V} k k' (v : V) m :
  k' <> k -> Js.get String.eqb k' (Js.set String.eqb k v m) = Js.get String.eqb k' m.
Proof.
  intros Hne. induction m as [|[k2 v2] r IH]; simpl.
  - destruct (String.eqb_spec k' k); [contradiction | reflexivity].
  - destruct (String.eqb_spec k k2) as [E|E]; simpl.
    + subst k2. destruct (String.eqb_spec k' k); [contradiction | reflexivity].
    + destruct (String.eqb k' k2); [reflexivity | exact IH].
Qed.

Lemma get_In {V} k (m : Js.Map string V) v :
  Js.get String.eqb k m = Some v -> In (k, v) m.
Proof.
  induction m as [|[k' v'] r IH]; simpl; [discriminate|].
  destruct (String.eqb_spec k k') as [E|E]; intros H.
  - inversion H; subst. now left.
  - right. auto.
Qed.

Lemma set_length_present {V} k (v : V) m :
  Js.get String.eqb k m <> None ->
  List.length (Js.set String.eqb k v m) = List.length m.
Proof.
  induction m as [|[k' v'] r IH]; simpl; [congruence|].
  destruct (String.eqb k k'); simpl; [reflexivity|]. intros H. now rewrite IH.
Qed.

Lemma set_length_absent {V} k (v : V) m :
  Js.get String.eqb k m = None ->
  List.length (Js.set String.eqb k v m) = S (List.length m).
Proof.
  induction m as [|[k' v'] r IH]; simpl; [reflexivity|].
  destruct (String.eqb k k'); simpl; [discriminate|]. intros H. now rewrite IH.
Qed.

Section WithData.
Context {D : Type}.

Lemma cleanup_clock (c : InstantCache.t D) clk :
  snd (InstantCache.cleanup c clk) = fun n => clk (S n).
Proof.
  unfold InstantCache.cleanup. rewrite bind_run. simpl.
  now destruct (InstantCache.maxSize c <? _)%Z.
Qed.

Lemma evictFrom_In maxSize remaining : forall i (m : Js.Map string (InstantCache.CacheItem D)) e,
  In e (InstantCache.evictFrom maxSize i remaining m) -> In e m.
Proof.
  induction remaining as [|[k item] rest IH]; intros i m e; simpl; [tauto|].
  destruct (Z.of_nat i <? Z.of_nat (Js.size m) - maxSize)%Z; [|tauto].
  intros H. apply IH in H. eapply delete_In; eassumption.
Qed.

Lemma evictFrom_NoDup maxSize remaining : forall i (m : Js.Map string (InstantCache.CacheItem D)),
  NoDup (Js.keys m) -> NoDup (Js.keys (InstantCache.evictFrom maxSize i remaining m)).
Proof.
  induction remaining as [|[k item] rest IH]; intros i m Hn; simpl; [exact Hn|].
  destruct (Z.of_nat i <? Z.of_nat (Js.size m) - maxSize)%Z; [|exact Hn].
  apply IH. now apply keys_delete_NoDup.
Qed.

(** What [cleanup] leaves is part of what was not expired. *)
Lemma cleanup_In (c : InstantCache.t D) clk e :
  In e (InstantCache.cache (fst (InstantCache.cleanup c clk))) ->
  In e (unexpiredAt (clk 0%nat) c).
Proof.
  unfold InstantCache.cleanup. rewrite bind_run. simpl. fold (unexpiredAt (clk 0%nat) c).
  destruct (InstantCache.maxSize c <? _)%Z; simpl; [|tauto].
  apply evictFrom_In.
Qed.

Lemma cleanup_NoDup (c : InstantCache.t D) clk :
  NoDup (Js.keys (InstantCache.cache c)) ->
  NoDup (Js.keys (InstantCache.cache (fst (InstantCache.cleanup c clk)))).
Proof.
  intros Hn. unfold InstantCache.cleanup. rewrite bind_run. simpl.
  destruct (InstantCache.maxSize c <? _)%Z; simpl.
  - apply evictFrom_NoDup. now apply keys_filter_NoDup.
  - now apply keys_filter_NoDup.
Qed.

Lemma set_Sound key value ttlMinutes (c : InstantCache.t D) clk :
  Sound c ->
  Sound (fst (InstantCache.set key value ttlMinutes c clk))
  /\ InstantCache.maxSize (fst (InstantCache.set key value ttlMinutes c clk))
     = InstantCache.maxSize c.
Proof.
  intros [Hn [Hm Hs]].
  destruct (set_size_bound key value ttlMinutes c clk Hm Hs) as [H1 H2].
  split; [|exact H2]. split; [|split; [now rewrite H2 | now rewrite H2]].
  unfold InstantCache.set. rewrite !bind_run. simpl.
  apply keys_set_NoDup.
  destruct (InstantCache.maxSize c <=? InstantCache.size c)%Z; [|exact Hn].
  now apply cleanup_NoDup.
Qed.

Lemma get_Sound key (c : InstantCache.t D) clk :
  Sound c ->
  Sound (snd (fst (InstantCache.get key c clk)))
  /\ InstantCache.maxSize (snd (fst (InstantCache.get key c clk))) = InstantCache.maxSize c.
Proof.
  intros [Hn [Hm Hs]]. unfold InstantCache.get.
  destruct (Js.get String.eqb key (InstantCache.cache c)) as [item|]; simpl.
  - rewrite bind_run. simpl. destruct (InstantCache.expired (clk 0%nat) item); simpl.
    + split; [|reflexivity]. split; [now apply keys_delete_NoDup|]. split; [exact Hm|].
      unfold InstantCache.size, Js.size in *. simpl.
      pose proof (delete_length key (InstantCache.cache c)). lia.
    + split; [|reflexivity]. split; auto.
  - split; [|reflexivity]. split; auto.
Qed.

Lemma getStats_Sound (c : InstantCache.t D) clk :
  Sound c ->
  Sound (snd (fst (InstantCache.getStats c clk)))
  /\ InstantCache.maxSize (snd (fst (InstantCache.getStats c clk))) = InstantCache.maxSize c.
Proof.
  intros [Hn [Hm Hs]]. unfold InstantCache.getStats. rewrite bind_run. simpl.
  destruct (cleanup_size c clk Hm Hs) as [H1 H2].
  split; [|exact H2]. split; [now apply cleanup_NoDup|]. rewrite H2. split; [exact Hm | lia].
Qed.

Lemma step_Sound op (c : InstantCache.t D) clk :
  Sound c ->
  Sound (fst (step op c clk))
  /\ InstantCache.maxSize (fst (step op c clk)) = InstantCache.maxSize c.
Proof.
  intros Hc. destruct op as [key value ttlMinutes|key|]; simpl.
  - now apply set_Sound.
  - rewrite bind_run. simpl. now apply get_Sound.
  - rewrite bind_run. simpl. now apply getStats_Sound.
Qed.

Lemma run_Sound ops : forall (c : InstantCache.t D) clk,
  Sound c ->
  Sound (fst (run ops c clk))
  /\ InstantCache.maxSize (fst (run ops c clk)) = InstantCache.maxSize c.
Proof.
  induction ops as [|op rest IH]; intros c clk Hc; simpl.
  - split; [exact Hc | reflexivity].
  - rewrite bind_run. destruct (step_Sound op c clk Hc) as [H1 H2].
    destruct (IH _ (snd (step op c clk)) H1) as [H3 H4].
    split; [exact H3 | congruence].
Qed.

Lemma new_Sound : Sound (@InstantCache.new D).
Proof.
  split; [constructor|]. split; [discriminate|]. unfold InstantCache.size. simpl. lia.
Qed.

End WithData.

End CacheOpsFacts.

Module SortFacts.

Section ByKey.
Context {A : Type} (key : A -> Z) (gt : A -> A -> bool).
Hypothesis gt_key : forall a b, gt a b = (key b <? key a)%Z.

Lemma insert_sorted x l :
  StronglySorted (fun a b => (key a <= key b)%Z) l ->
  StronglySorted (fun a b => (key a <= key b)%Z) (Js.insert gt x l).
Proof.
  induction 1 as [|y r Hr IH Hy]; simpl.
  - repeat constructor.
  - rewrite gt_key. destruct (Z.ltb_spec (key y) (key x)).
    + constructor; [exact IH|].
      apply Forall_forall. intros z Hz.
      apply (Permutation_in _ (JsFacts.insert_perm gt x r)) in Hz.
      destruct Hz as [Hz|Hz]; [subst; lia|]. rewrite Forall_forall in Hy. now apply Hy.
    + constructor; [now constructor|]. constructor; [exact H|].
      eapply Forall_impl; [|exact Hy]. simpl. intros; lia.
Qed.

(** [sort] with a comparator that subtracts keys orders by the key. *)
Lemma sort_sorted l : StronglySorted (fun a b => (key a <= key b)%Z) (Js.sort gt l).
Proof.
  induction l as [|x r IH]; simpl; [constructor | now apply insert_sorted].
Qed.

Lemma sort_head_least l e rest :
  Js.sort gt l = e :: rest -> forall x, In x l -> (key e <= key x)%Z.
Proof.
  intros Hs x Hx. pose proof (sort_sorted l) as Hsorted. rewrite Hs in Hsorted.
  apply (Permutation_in _ (Permutation_sym (JsFacts.sort_perm gt l))) in Hx.
  rewrite Hs in Hx. inversion Hsorted as [|? ? _ Hall]; subst.
  destruct Hx as [Hx|Hx]; [subst; lia|]. rewrite Forall_forall in Hall. now apply Hall.
Qed.

End ByKey.

End SortFacts.

Module CacheExtras.
Import Vocabulary St StFacts JsFacts CacheFacts CacheOps CacheOpsFacts SortFacts.

Section WithData.
Context {D : Type}.

Lemma get_sub {V} k (m m' : Js.Map string V) v :
  NoDup (Js.keys m) -> (forall e, In e m' -> In e m) ->
  Js.get String.eqb k m' = Some v -> Js.get String.eqb k m = Some v.
Proof.
  intros Hn Hsub Hg. apply get_In, Hsub in Hg. revert Hn Hg. clear.
  induction m as [|[k' v'] r IH]; simpl; intros Hn Hin; [contradiction|].
  inversion Hn as [|? ? Hnot Hn']; subst.
  destruct Hin as [Heq|Hin].
  - inversion Heq; subst. now rewrite String.eqb_refl.
  - destruct (String.eqb_spec k k') as [E|E]; [|auto].
    subst k'. exfalso. apply Hnot. unfold Js.keys. change k with (fst (k, v)). now apply in_map.
Qed.

(** After any sequence of [set], [get] and [getStats] calls on a new cache,
    the cache holds at most 10001 entries, under pairwise different keys,
    and [maxSize] is still 10000. *)
Theorem cache_size_invariant (ops : list (Op D)) (clk : Clock.Source) :
  (InstantCache.size (fst (run ops InstantCache.new clk)) <= 10001)%Z
  /\ InstantCache.maxSize (fst (run ops InstantCache.new clk)) = 10000%Z
  /\ NoDup (Js.keys (InstantCache.cache (fst (run ops InstantCache.new clk)))).
Proof.
  destruct (run_Sound ops InstantCache.new clk new_Sound) as [[Hn [_ Hs]] Hm].
  change (InstantCache.maxSize (@InstantCache.new D)) with 10000%Z in Hm.
  rewrite Hm in Hs. repeat split; [lia | exact Hm | exact Hn].
Qed.

(** [getStats] on a cache reached from a new one reports the size the
    cache has after its cleanup and the maximum 10000; that size is at most
    the maximum, and no entry left is expired at the reading of the clock. *)
Theorem getStats_reports (ops : list (Op D)) (clk0 clk : Clock.Source) :
  let c := fst (run ops InstantCache.new clk0) in
  let r := InstantCache.getStats c clk in
  fst (fst (fst r)) = InstantCache.size (snd (fst r))
  /\ snd (fst (fst r)) = 10000%Z
  /\ (InstantCache.size (snd (fst r)) <= 10000)%Z
  /\ Forall (fun e => InstantCache.expired (clk 0%nat) (snd e) = false
                      /\ In e (InstantCache.cache c))
            (InstantCache.cache (snd (fst r)))
  /\ snd r = (fun n => clk (S n)).
Proof.
  cbv zeta.
  destruct (run_Sound ops InstantCache.new clk0 new_Sound) as [[Hn [Hm Hs]] Hmax].
  set (c := fst (run ops InstantCache.new clk0)) in *.
  change (InstantCache.maxSize (@InstantCache.new D)) with 10000%Z in Hmax.
  unfold InstantCache.getStats. rewrite bind_run. simpl.
  destruct (cleanup_size c clk Hm Hs) as [H1 H2].
  split; [reflexivity|]. split; [congruence|]. split; [lia|]. split.
  - apply Forall_forall. intros e He. apply cleanup_In in He.
    unfold unexpiredAt in He. apply filter_In in He. destruct He as [He Hx].
    split; [now apply negb_true_iff in Hx | exact He].
  - apply cleanup_clock.
Qed.

(** [get] on a cache reached from a new one never returns the data of an
    expired entry: when it returns data, the entry under the key holds it
    and is not expired at the reading of the clock, and the cache is left
    as it was; when it returns [null], the key is absent afterwards. *)
Theorem get_never_stale (ops : list (Op D)) (clk0 clk : Clock.Source) (key : string) :
  let c := fst (run ops InstantCache.new clk0) in
  let r := InstantCache.get key c clk in
  match fst (fst r) with
  | Some value =>
      snd (fst r) = c
      /\ exists item, Js.get String.eqb key (InstantCache.cache c) = Some item
                      /\ InstantCache.data item = value
                      /\ InstantCache.expired (clk 0%nat) item = false
  | None => Js.get String.eqb key (InstantCache.cache (snd (fst r))) = None
  end.
Proof.
  cbv zeta.
  destruct (run_Sound ops InstantCache.new clk0 new_Sound) as [[Hn _] _].
  set (c := fst (run ops InstantCache.new clk0)) in *.
  unfold InstantCache.get.
  destruct (Js.get String.eqb key (InstantCache.cache c)) as [item|] eqn:G; simpl.
  - rewrite bind_run. simpl.
    destruct (InstantCache.expired (clk 0%nat) item) eqn:E; simpl.
    + now apply get_delete_same.
    + split; [reflexivity|]. exists item. auto.
  - exact G.
Qed.

(** What [set] stores, [get] returns: the entry is stamped with the reading
    of the clock taken by [set] (the second reading when [set] first cleans
    up), and a [get] whose reading is at most the TTL later returns the
    value and leaves the cache as it is; a later [get] returns [null]. *)
Theorem set_then_get (key : string) (value : D) (ttlMinutes : Z)
    (c : InstantCache.t D) (clk clk' : Clock.Source) :
  let c1 := fst (InstantCache.set key value ttlMinutes c clk) in
  exists stamp,
    (stamp = clk 0%nat \/ stamp = clk 1%nat)
    /\ Js.get String.eqb key (InstantCache.cache c1)
       = Some {| InstantCache.data := value; InstantCache.timestamp := stamp;
                 InstantCache.ttl := ttlMinutes * 60 * 1000 |}
    /\ ((clk' 0%nat - stamp <= ttlMinutes * 60 * 1000)%Z ->
        InstantCache.get key c1 clk' = ((Some value, c1), fun n => clk' (S n)))
    /\ ((ttlMinutes * 60 * 1000 < clk' 0%nat - stamp)%Z ->
        fst (fst (InstantCache.get key c1 clk')) = None).
Proof.
  cbv zeta.
  set (pre := (if (InstantCache.maxSize c <=? InstantCache.size c)%Z
               then InstantCache.cleanup c else ret c) clk).
  assert (Hset : InstantCache.cache (fst (InstantCache.set key value ttlMinutes c clk))
                 = Js.set String.eqb key
                     {| InstantCache.data := value; InstantCache.timestamp := snd pre 0%nat;
                        InstantCache.ttl := ttlMinutes * 60 * 1000 |}
                     (InstantCache.cache (fst pre))).
  { unfold InstantCache.set. rewrite !bind_run. reflexivity. }
  exists (snd pre 0%nat). split; [|split; [|split]].
  - unfold pre. destruct (InstantCache.maxSize c <=? InstantCache.size c)%Z.
    + right. now rewrite cleanup_clock.
    + left. reflexivity.
  - rewrite Hset. apply get_set_same.
  - intros Hfresh. unfold InstantCache.get. rewrite Hset, get_set_same.
    rewrite bind_run. simpl. unfold InstantCache.expired. simpl.
    destruct (Z.ltb_spec (ttlMinutes * 60 * 1000) (clk' 0%nat - snd pre 0%nat)); [lia|].
    reflexivity.
  - intros Hlate. unfold InstantCache.get. rewrite Hset, get_set_same.
    rewrite bind_run. simpl. unfold InstantCache.expired. simpl.
    destruct (Z.ltb_spec (ttlMinutes * 60 * 1000) (clk' 0%nat - snd pre 0%nat)); [|lia].
    reflexivity.
Qed.

(** A [set] leaves the other keys alone: on a cache reached from a new
    one, the entry under another key is afterwards what it was or gone,
    never another one; below capacity it is what it was, and the size
    grows by one for a new key and stays for a key already present. *)
Theorem set_keeps_other_keys (ops : list (Op D)) (clk0 clk : Clock.Source)
    (key other : string) (value : D) (ttlMinutes : Z) :
  other <> key ->
  let c := fst (run ops InstantCache.new clk0) in
  let c1 := fst (InstantCache.set key value ttlMinutes c clk) in
  (Js.get String.eqb other (InstantCache.cache c1)
   = Js.get String.eqb other (InstantCache.cache c)
   \/ Js.get String.eqb other (InstantCache.cache c1) = None)
  /\ ((InstantCache.size c < 10000)%Z ->
      Js.get String.eqb other (InstantCache.cache c1)
      = Js.get String.eqb other (InstantCache.cache c)
      /\ InstantCache.size c1
         = (InstantCache.size c
            + if Js.has String.eqb key (InstantCache.cache c) then 0 else 1)%Z).
Proof.
  intros Hne. cbv zeta.
  destruct (run_Sound ops InstantCache.new clk0 new_Sound) as [[Hn [Hm Hs]] Hmax].
  set (c := fst (run ops InstantCache.new clk0)) in *.
  change (InstantCache.maxSize (@InstantCache.new D)) with 10000%Z in Hmax.
  set (pre := (if (InstantCache.maxSize c <=? InstantCache.size c)%Z
               then InstantCache.cleanup c else ret c) clk).
  assert (Hset : fst (InstantCache.set key value ttlMinutes c clk)
                 = InstantCache.withCache (fst pre)
                     (Js.set String.eqb key
                        {| InstantCache.data := value; InstantCache.timestamp := snd pre 0%nat;
                           InstantCache.ttl := ttlMinutes * 60 * 1000 |}
                        (InstantCache.cache (fst pre)))).
  { unfold InstantCache.set. rewrite !bind_run. reflexivity. }
  rewrite Hset. simpl. rewrite get_set_other by exact Hne. split.
  - unfold pre. destruct (InstantCache.maxSize c <=? InstantCache.size c)%Z; [|now left].
    destruct (Js.get String.eqb other (InstantCache.cache (fst (InstantCache.cleanup c clk))))
      as [v|] eqn:G; [left | now right].
    symmetry. apply (get_sub other _ _ v Hn) in G; [exact G|].
    intros e He. apply cleanup_In in He. unfold unexpiredAt in He.
    apply filter_In in He. tauto.
  - intros Hlow. unfold pre.
    destruct (Z.leb_spec (InstantCache.maxSize c) (InstantCache.size c)); [lia|].
    simpl. split; [reflexivity|].
    unfold InstantCache.size, Js.size, Js.has. simpl.
    destruct (Js.get String.eqb key (InstantCache.cache c)) eqn:G.
    + rewrite set_length_present; [lia | congruence].
    + rewrite set_length_absent by exact G. lia.
Qed.

(** The eviction takes the oldest entry: a cleanup on a cache reached from
    a new one leaves either all the entries that are not expired, or all of
    them but one, whose timestamp is the smallest among them. *)
Theorem cleanup_evicts_oldest (ops : list (Op D)) (clk0 clk : Clock.Source) :
  let c := fst (run ops InstantCache.new clk0) in
  let swept := unexpiredAt (clk 0%nat) c in
  InstantCache.cache (fst (InstantCache.cleanup c clk)) = swept
  \/ exists key item,
       In (key, item) swept
       /\ (forall e, In e swept ->
                     (InstantCache.timestamp item <= InstantCache.timestamp (snd e))%Z)
       /\ InstantCache.cache (fst (InstantCache.cleanup c clk))
          = Js.delete String.eqb key swept.
Proof.
  cbv zeta.
  destruct (run_Sound ops InstantCache.new clk0 new_Sound) as [[Hn [Hm Hs]] Hmax].
  set (c := fst (run ops InstantCache.new clk0)) in *.
  unfold InstantCache.cleanup. rewrite bind_run. simpl.
  fold (unexpiredAt (clk 0%nat) c). set (swept := unexpiredAt (clk 0%nat) c).
  assert (Hlen : (List.length swept <= List.length (InstantCache.cache c))%nat)
    by apply filter_length_le.
  unfold InstantCache.size, Js.size in *.
  destruct (Z.ltb_spec (InstantCache.maxSize c) (Z.of_nat (List.length swept))) as [Hgt|Hle];
    simpl; [right | now left].
  pose proof (sort_perm InstantCache.newerThan swept) as Hp.
  destruct (Js.sort InstantCache.newerThan swept) as [|[k item] rest] eqn:Es.
  - apply Permutation_length in Hp. simpl in Hp. lia.
  - assert (Hin : In (k, item) swept) by (eapply Permutation_in; [exact Hp | now left]).
    exists k, item. split; [exact Hin|]. split.
    + intros e He.
      apply (sort_head_least (fun x : string * InstantCache.CacheItem D =>
                                InstantCache.timestamp (snd x))
                             InstantCache.newerThan) with (x := e) in Es; [exact Es | | exact He].
      intros a b. unfold InstantCache.newerThan.
      destruct (Z.ltb_spec 0 (InstantCache.timestamp (snd a) - InstantCache.timestamp (snd b)));
        destruct (Z.ltb_spec (InstantCache.timestamp (snd b)) (InstantCache.timestamp (snd a)));
        try reflexivity; lia.
    + simpl. unfold Js.size.
      destruct (Z.ltb_spec 0 (Z.of_nat (List.length swept) - InstantCache.maxSize c)); [|lia].
      assert (Hk : In k (Js.keys swept)).
      { unfold Js.keys. change k with (fst (k, item)). now apply in_map. }
      pose proof (delete_length_In k swept Hk) as Hd.
      destruct rest as [|[k2 item2] rest2]; simpl; [reflexivity|].
      unfold Js.size.
      destruct (Z.ltb_spec 1 (Z.of_nat (List.length (Js.delete String.eqb k swept))
                              - InstantCache.maxSize c)); [lia | reflexivity].
Qed.

End WithData.

(** A cache with one entry under ["a"]: a [set] under ["b"] leaves the
    entry under ["a"] as it is, and the cache then has two entries. *)
Lemma set_keeps_other_keys_witness :
  "a" <> "b"
  /\ Js.get String.eqb "a"
       (InstantCache.cache
          (fst (InstantCache.set "b" tt 60
                  (fst (run [OpSet "a" tt 60] InstantCache.new (CacheExamples.frozenClock 0)))
                  (CacheExamples.frozenClock 0))))
     = Js.get String.eqb "a"
         (InstantCache.cache
            (fst (run [OpSet "a" tt 60] InstantCache.new (CacheExamples.frozenClock 0))))
  /\ InstantCache.size
       (fst (InstantCache.set "b" tt 60
               (fst (run [OpSet "a" tt 60] InstantCache.new (CacheExamples.frozenClock 0)))
               (CacheExamples.frozenClock 0)))
     = 2%Z.
Proof.
  assert (Hne : "a" <> "b") by discriminate.
  split; [exact Hne|].
  destruct (proj2 (set_keeps_other_keys [OpSet "a" tt 60] (CacheExamples.frozenClock 0)
                     (CacheExamples.frozenClock 0) "b" "a" tt 60 Hne))
    as [Hget Hsize]; [vm_compute; reflexivity|].
  split; [exact Hget|]. rewrite Hsize. reflexivity.
Defined.

End CacheExtras.

Module StatsFacts.
Import Vocabulary St StFacts JsFacts CacheFacts CacheOps CacheOpsFacts.

Lemma getStats_run {D} (c : InstantCache.t D) clk :
  InstantCache.getStats c clk
  = ((InstantCache.size (fst (InstantCache.cleanup c clk)),
      InstantCache.maxSize (fst (InstantCache.cleanup c clk)),
      fst (InstantCache.cleanup c clk)),
     fun n => clk (S n)).
Proof.
  unfold InstantCache.getStats. rewrite bind_run. simpl. now rewrite cleanup_clock.
Qed.

Lemma cleanup_maxSize {D} (c : InstantCache.t D) clk :
  InstantCache.maxSize (fst (InstantCache.cleanup c clk)) = InstantCache.maxSize c.
Proof.
  unfold InstantCache.cleanup. rewrite bind_run. simpl.
  now destruct (InstantCache.maxSize c <? _)%Z.
Qed.

(** A cleanup only removes entries. *)
Lemma cleanup_shrinks {D} (c : InstantCache.t D) clk :
  (0 <= InstantCache.size (fst (InstantCache.cleanup c clk)) <= InstantCache.size c)%Z.
Proof.
  unfold InstantCache.cleanup. rewrite bind_run. simpl.
  unfold InstantCache.size, Js.size.
  pose proof (filter_length_le
                (fun entry : string * InstantCache.CacheItem D =>
                   negb (InstantCache.expired (clk 0%nat) (snd entry)))
                (InstantCache.cache c)) as Hf.
  destruct (InstantCache.maxSize c <? _)%Z; simpl; [|lia].
  match goal with
  | |- context [InstantCache.evictFrom ?a ?b ?c ?d] =>
      pose proof (evictFrom_length a c b d)
  end. lia.
Qed.

(** A second cleanup at the same time changes nothing. *)
Lemma cleanup_again {D} (c : InstantCache.t D) clk clk' :
  clk' 0%nat = clk 0%nat -> Sound c ->
  fst (InstantCache.cleanup (fst (InstantCache.cleanup c clk)) clk')
  = fst (InstantCache.cleanup c clk).
Proof.
  intros Ht [Hn [Hm Hs]].
  destruct (cleanup_size c clk Hm Hs) as [H1 H2].
  assert (Hall : Forall (fun e => negb (InstantCache.expired (clk' 0%nat) (snd e)) = true)
                        (InstantCache.cache (fst (InstantCache.cleanup c clk)))).
  { apply Forall_forall. intros e He. apply cleanup_In in He.
    unfold unexpiredAt in He. apply filter_In in He. rewrite Ht. tauto. }
  set (c1 := fst (InstantCache.cleanup c clk)) in *.
  unfold InstantCache.cleanup at 1. rewrite bind_run. simpl.
  rewrite (filter_keeps _ _ Hall).
  unfold InstantCache.size, Js.size in H1.
  destruct (Z.ltb_spec (InstantCache.maxSize c1) (Z.of_nat (Js.size (InstantCache.cache c1))));
    [unfold Js.size in *; lia|].
  simpl. now destruct c1.
Qed.

End StatsFacts.

Module StatsExtras.
Import Vocabulary St StFacts JsFacts CacheFacts CacheOps CacheOpsFacts StatsFacts.
Import CacheStats.

Section WithData.
Context {A B C : Type}.

(** The statistics route reads the clock six times. [totalCachedItems]
    comes from a second round of cleanups, so it is at most the sum of the
    three sizes it is sent with, and it is the number of entries the caches
    hold afterwards; the reported maxima are those of the caches. When the
    clock stands still and each cache holds at most one entry more than its
    maximum, the total is the sum of the three sizes. *)
Theorem cacheStats_total (caches : Caches A B C) (clk : Clock.Source) :
  let stats := fst (fst (cacheStats caches clk)) in
  let after := snd (fst (cacheStats caches clk)) in
  (0 <= totalCachedItems stats
   <= fst (searchCacheStats stats) + fst (paperContentCacheStats stats)
      + fst (graphCacheStats stats))%Z
  /\ totalCachedItems stats
     = (InstantCache.size (searchCache after) + InstantCache.size (paperContentCache after)
        + InstantCache.size (graphCache after))%Z
  /\ snd (searchCacheStats stats) = InstantCache.maxSize (searchCache caches)
  /\ snd (paperContentCacheStats stats) = InstantCache.maxSize (paperContentCache caches)
  /\ snd (graphCacheStats stats) = InstantCache.maxSize (graphCache caches)
  /\ snd (cacheStats caches clk) = (fun n => clk (6 + n)%nat)
  /\ ((forall n, clk n = clk 0%nat) ->
      Sound (searchCache caches) -> Sound (paperContentCache caches) ->
      Sound (graphCache caches) ->
      totalCachedItems stats
      = (fst (searchCacheStats stats) + fst (paperContentCacheStats stats)
         + fst (graphCacheStats stats))%Z).
Proof.
  cbv zeta. unfold cacheStats.
  rewrite bind_run, getStats_run. cbn [fst snd].
  rewrite bind_run, getStats_run. cbn [fst snd].
  rewrite bind_run, getStats_run. cbn [fst snd].
  rewrite bind_run, getStats_run. cbn [fst snd].
  rewrite bind_run, getStats_run. cbn [fst snd].
  rewrite bind_run, getStats_run. cbn [fst snd].
  cbn [ret fst snd searchCacheStats paperContentCacheStats graphCacheStats
       totalCachedItems searchCache paperContentCache graphCache].
  set (k1 := fun n => clk (S n)). set (k2 := fun n => clk (S (S n))).
  set (k3 := fun n => clk (S (S (S n)))). set (k4 := fun n => clk (S (S (S (S n))))).
  set (k5 := fun n => clk (S (S (S (S (S n)))))).
  set (ca := fst (InstantCache.cleanup (searchCache caches) clk)).
  set (cb := fst (InstantCache.cleanup (paperContentCache caches) k1)).
  set (cc := fst (InstantCache.cleanup (graphCache caches) k2)).
  pose proof (cleanup_shrinks ca k3). pose proof (cleanup_shrinks cb k4).
  pose proof (cleanup_shrinks cc k5).
  split; [lia|]. split; [reflexivity|].
  split; [apply cleanup_maxSize|]. split; [apply cleanup_maxSize|].
  split; [apply cleanup_maxSize|]. split; [reflexivity|].
  intros Hclk Ha Hb Hc. unfold ca, cb, cc.
  rewrite (cleanup_again (searchCache caches) clk k3)
    by (try assumption; unfold k3; now rewrite !Hclk).
  rewrite (cleanup_again (paperContentCache caches) k1 k4)
    by (try assumption; unfold k4, k1; now rewrite !Hclk).
  rewrite (cleanup_again (graphCache caches) k2 k5)
    by (try assumption; unfold k5, k2; now rewrite !Hclk).
  reflexivity.
Qed.

End WithData.

End StatsExtras.

Module KeywordFacts.
Import Vocabulary MoreVocabulary JsFacts RelationshipService.

Lemma lowerChar_keyword c :
  Js.isWord (Js.lowerChar c) = true -> keywordChar (Js.lowerChar c) = true.
Proof.
  destruct c as [[] [] [] [] [] [] [] []]; vm_compute; intros H; congruence.
Qed.

Lemma allChars_app f s1 s2 :
  allChars f (s1 ++ s2) = allChars f s1 && allChars f s2.
Proof.
  induction s1 as [|c r IH]; simpl; [reflexivity|]. now rewrite IH, andb_assoc.
Qed.

(** The pieces of a split hold the characters that are not white space. *)
Lemma splitSpacesFrom_sub (f : ascii -> bool) s : forall cur inSep,
  allChars (fun c => Js.isSpace c || f c) s = true ->
  allChars f cur = true ->
  Forall (fun w => allChars f w = true) (Js.splitSpacesFrom s cur inSep).
Proof.
  induction s as [|c r IH]; intros cur inSep Hs Hcur; simpl.
  - repeat constructor. exact Hcur.
  - simpl in Hs. apply andb_true_iff in Hs. destruct Hs as [Hc Hr].
    destruct (Js.isSpace c) eqn:Es.
    + destruct inSep; [|constructor; [exact Hcur|]]; now apply IH.
    + apply IH; [exact Hr|]. rewrite allChars_app, Hcur. simpl in *. now rewrite Hc.
Qed.

Lemma replaceNonWord_chars text :
  allChars (fun c => Js.isSpace c || keywordChar c)
           (Js.replaceNonWord (Js.toLowerCase text)) = true.
Proof.
  induction text as [|c r IH]; simpl; [reflexivity|]. rewrite IH, andb_true_r.
  destruct (Js.isWord (Js.lowerChar c)) eqn:Ew; simpl.
  - rewrite (lowerChar_keyword c Ew). apply orb_true_r.
  - destruct (Js.isSpace (Js.lowerChar c)) eqn:Es; [now rewrite Es | reflexivity].
Qed.

End KeywordFacts.

Module KeywordExtras.
Import Vocabulary MoreVocabulary JsFacts KeywordFacts RelationshipService.

(** [extractKeywords] returns at most 20 keywords; each has more than three
    characters, is not a stop word and consists of lower-case letters,
    digits and underscores only. *)
Theorem extractKeywords_words (text : string) :
  (List.length (extractKeywords text) <= 20)%nat
  /\ Forall (fun word => (3 < String.length word)%nat
                         /\ ~ In word stopWords
                         /\ allChars keywordChar word = true)
            (extractKeywords text).
Proof.
  unfold extractKeywords. split; [apply (slice_nat_length _ 20)|].
  apply Forall_forall. intros w Hw. apply slice_In in Hw. apply filter_In in Hw.
  destruct Hw as [Hin Hf]. apply andb_true_iff in Hf. destruct Hf as [Hlen Hstop].
  split; [now apply Nat.ltb_lt in Hlen|]. split.
  - intros Hs. apply DedupFacts.inStrings_In in Hs. now rewrite Hs in Hstop.
  - clear Hlen Hstop. revert w Hin. apply Forall_forall. unfold Js.splitSpaces.
    apply splitSpacesFrom_sub; [apply replaceNonWord_chars | reflexivity].
Qed.

End KeywordExtras.

Module SamplerFacts.
Import Vocabulary MoreVocabulary ListFacts JsFacts MapFacts SampleFacts SortFacts.
Import RelationshipService.

(** The papers of a bucket were all pushed under the key of the bucket. *)
Lemma pushInto_keyed {K} (eqb : K -> K -> bool)
    (eqb_eq : forall a b, eqb a b = true <-> a = b)
    (keyOf : Paper -> K) p m :
  Forall (fun e => Forall (fun x => keyOf x = fst e) (snd e)) m ->
  Forall (fun e => Forall (fun x => keyOf x = fst e) (snd e))
         (pushInto eqb (keyOf p) p m).
Proof.
  induction m as [|[k v] r IH]; intros Hm.
  - rewrite (pushInto_nil eqb eqb_eq). repeat constructor.
  - rewrite pushInto_cons. inversion Hm as [|? ? Hk Hr]; subst. simpl in Hk.
    destruct (eqb (keyOf p) k) eqn:E.
    + constructor; [|exact Hr]. simpl. apply Forall_app. split; [exact Hk|].
      repeat constructor. now apply eqb_eq.
    + constructor; [exact Hk | now apply IH].
Qed.

Lemma groupByYear_keyed papers :
  Forall (fun e => Forall (fun x => yearBucket x = fst e) (snd e)) (groupByYear papers).
Proof.
  unfold groupByYear.
  assert (H : forall m,
             Forall (fun e => Forall (fun x => yearBucket x = fst e) (snd e)) m ->
             Forall (fun e => Forall (fun x => yearBucket x = fst e) (snd e))
                    (fold_left (fun yearGroups paper =>
                                  pushInto Z.eqb (numberOr (year paper) 2024) paper yearGroups)
                               papers m)).
  { induction papers as [|p r IH]; intros m Hm; simpl; [exact Hm|].
    apply IH. apply (pushInto_keyed Z.eqb Z.eqb_eq yearBucket p m Hm). }
  apply H. constructor.
Qed.

(** Every paper is in the group of its year bucket. *)
Lemma groupByYear_complete papers q :
  In q papers ->
  exists v, Js.get Z.eqb (yearBucket q) (groupByYear papers) = Some v /\ In q v.
Proof.
  intros Hq. destruct (groupByYear_spec papers) as [Hn Hp].
  apply (Permutation_in _ (Permutation_sym Hp)) in Hq.
  unfold stored in Hq. apply in_concat in Hq. destruct Hq as [v [Hv Hq]].
  apply in_map_iff in Hv. destruct Hv as [[k v'] [Hkv Hin]]. simpl in Hkv. subst v'.
  pose proof (groupByYear_keyed papers) as Hk. rewrite Forall_forall in Hk.
  pose proof (Hk _ Hin) as Hkq. simpl in Hkq. rewrite Forall_forall in Hkq.
  rewrite (Hkq q Hq). exists v. split; [|exact Hq].
  apply (get_of_In Z.eqb Z.eqb_eq); assumption.
Qed.

Lemma groupByYear_member papers y v p :
  Js.get Z.eqb y (groupByYear papers) = Some v -> In p v -> yearBucket p = y.
Proof.
  intros Hg Hp. pose proof (groupByYear_keyed papers) as Hk. rewrite Forall_forall in Hk.
  assert (Hin : exists k, In (k, v) (groupByYear papers) /\ k = y).
  { revert Hg. generalize (groupByYear papers). intros m.
    induction m as [|[k' v'] r IH]; simpl; [discriminate|].
    destruct (Z.eqb_spec y k'); intros Hg.
    - inversion Hg; subst. exists k'. split; [now left | reflexivity].
    - destruct (IH Hg) as [k [H1 H2]]. exists k. split; [now right | exact H2]. }
  destruct Hin as [k [Hin Ek]]. subst k.
  pose proof (Hk _ Hin) as Hv. simpl in Hv. rewrite Forall_forall in Hv. now apply Hv.
Qed.

(** Where an element of a [flat_map] sits: in the block of one element. *)
Lemma flat_map_split {A B} (g : A -> list B) ys : forall l1 p l3,
  flat_map g ys = l1 ++ p :: l3 ->
  exists y b1 b3 pre, In y ys /\ g y = b1 ++ p :: b3 /\ l1 = pre ++ b1.
Proof.
  induction ys as [|y r IH]; intros l1 p l3 H; simpl in H.
  - destruct l1; discriminate.
  - assert (Hcase : (exists b3, g y = l1 ++ p :: b3)
                    \/ (exists l1', l1 = g y ++ l1' /\ flat_map g r = l1' ++ p :: l3)).
    { revert l1 H. generalize (g y) as b. induction b as [|x b IHb]; intros l1 H; simpl in H.
      - right. exists l1. split; [reflexivity | exact H].
      - destruct l1 as [|z l1]; simpl in H.
        + inversion H; subst. left. exists b. reflexivity.
        + inversion H; subst. destruct (IHb l1 H2) as [[b3 Hb]|[l1' [Hl Hf]]].
          * left. exists b3. simpl. now rewrite Hb.
          * right. exists l1'. split; [simpl; now rewrite Hl | exact Hf]. }
    destruct Hcase as [[b3 Hb]|[l1' [Hl Hf]]].
    + exists y, l1, b3, []. split; [now left|]. split; [exact Hb | reflexivity].
    + destruct (IH _ _ _ Hf) as [y' [b1 [b3 [pre [Hy [Hg Hp]]]]]].
      exists y', b1, b3, (g y ++ pre). split; [now right|]. split; [exact Hg|].
      rewrite Hl, Hp. now rewrite app_assoc.
Qed.

Lemma firstn_split {A} n (l : list A) b1 p b3 :
  firstn n l = b1 ++ p :: b3 -> exists rest, l = b1 ++ p :: rest.
Proof.
  intros H. exists (b3 ++ skipn n l).
  rewrite <- (firstn_skipn n l) at 1. rewrite H. now rewrite <- app_assoc.
Qed.

(** A slice from 0 is a prefix. *)
Lemma slice_prefix {A} (l : list A) e : exists n, Js.slice l 0 e = firstn n l.
Proof.
  unfold Js.slice, Js.relIndex. change (0 <? 0)%Z with false. cbv iota zeta.
  rewrite (Z.min_l 0) by lia. simpl skipn. eexists. reflexivity.
Qed.

(** In a list sorted by falling citation count, what is cited more comes
    before. *)
Lemma more_cited_before S b1 p rest q :
  StronglySorted (fun a b => (- citedness a <= - citedness b)%Z) S ->
  S = b1 ++ p :: rest -> In q S -> (citedness p < citedness q)%Z -> In q b1.
Proof.
  intros Hs HS Hq Hlt. subst S. apply in_app_or in Hq.
  destruct Hq as [Hq|[Hq|Hq]]; [exact Hq | subst; lia |].
  exfalso. clear -Hs Hq Hlt.
  induction b1 as [|x b IH]; simpl in Hs.
  - inversion Hs as [|? ? _ Hall]; subst. rewrite Forall_forall in Hall.
    specialize (Hall q Hq). lia.
  - inversion Hs; subst. auto.
Qed.

Lemma lessCited_key a b : lessCited a b = (- citedness b <? - citedness a)%Z.
Proof.
  unfold lessCited, citedness.
  destruct (Z.ltb_spec 0 (numberOr (citationCount b) 0 - numberOr (citationCount a) 0));
    destruct (Z.ltb_spec (- numberOr (citationCount b) 0) (- numberOr (citationCount a) 0));
    try reflexivity; lia.
Qed.

End SamplerFacts.

Module SamplerExtras.
Import Vocabulary MoreVocabulary ListFacts JsFacts MapFacts SampleFacts SortFacts SamplerFacts.
Import RelationshipService.

(** The sample is made of input papers, none taken more often than the
    input has it: whatever the target size, the sample with some rest is a
    permutation of the input. So a paper list without repeated ids gives a
    sample without repeated ids, and an empty input an empty sample. *)
Theorem stratifiedSample_part_of_input (papers : list Paper) (sampleSize : Z) :
  (exists rest, Permutation (stratifiedSample papers sampleSize ++ rest) papers)
  /\ (NoDup (map id papers) -> NoDup (map id (stratifiedSample papers sampleSize)))
  /\ (papers = [] -> stratifiedSample papers sampleSize = []).
Proof.
  pose proof (stratifiedSample_SubPerm papers sampleSize) as H.
  split; [exact H|]. split.
  - intros Hn. eapply SubPerm_NoDup; [|exact Hn]. now apply SubPerm_map.
  - intros E. subst papers. apply SubPerm_length in H. simpl in H.
    now destruct (stratifiedSample [] sampleSize).
Qed.

(** The sampler prefers the highly cited: when a paper is in the sample,
    every input paper of the same year bucket with a strictly higher
    citation count is in the sample too. *)
Theorem stratifiedSample_prefers_cited (papers : list Paper) (sampleSize : Z)
    (p q : Paper) :
  In p (stratifiedSample papers sampleSize) ->
  In q papers ->
  yearBucket q = yearBucket p ->
  (citedness p < citedness q)%Z ->
  In q (stratifiedSample papers sampleSize).
Proof.
  intros Hp Hq Hy Hc. unfold stratifiedSample in *.
  set (m := groupByYear papers) in *.
  set (years := Js.sort _ (Js.keys m)) in *.
  set (ppy := Js.ceilDiv _ _) in *.
  set (g := fun y : Z => match Js.get Z.eqb y m with
                         | Some yearPapers => Js.slice (Js.sort lessCited yearPapers) 0 ppy
                         | None => [] end) in *.
  destruct (slice_prefix (flat_map g years) sampleSize) as [n Hn]. rewrite Hn in *.
  apply in_split in Hp. destruct Hp as [l1 [l3 Hsplit]].
  destruct (firstn_split _ _ _ _ _ Hsplit) as [rest Hall].
  destruct (flat_map_split g years _ _ _ Hall) as [y [b1 [b3 [pre [Hyin [Hg Hl1]]]]]].
  assert (Hq1 : In q b1).
  { unfold g in Hg. destruct (Js.get Z.eqb y m) as [v|] eqn:G; [|destruct b1; discriminate].
    destruct (slice_prefix (Js.sort lessCited v) ppy) as [k Hk]. rewrite Hk in Hg.
    destruct (firstn_split _ _ _ _ _ Hg) as [rest' Hs].
    assert (Hpv : In p v).
    { apply (sort_In lessCited). rewrite Hs. apply in_or_app. right. now left. }
    pose proof (groupByYear_member papers y v p G Hpv) as Hyp.
    destruct (groupByYear_complete papers q Hq) as [v' [G' Hqv]].
    fold m in G'. rewrite Hy, Hyp, G in G'. inversion G'; subst v'.
    eapply more_cited_before; [| exact Hs | | exact Hc].
    - apply (sort_sorted (fun x => (- citedness x)%Z) lessCited lessCited_key).
    - now apply (sort_In lessCited). }
  rewrite Hsplit, Hl1. apply in_or_app. left. apply in_or_app. now right.
Qed.

(** Of the four example papers, ["B"] (5 citations) is sampled; ["A"] is of
    the same year and has 9 citations. *)
Lemma stratifiedSample_prefers_cited_witness :
  In (Examples.paperOf "B" [] 2020 5) (stratifiedSample Examples.fourPapers 4)
  /\ In (Examples.paperOf "A" ["J. Smith"] 2020 9) (stratifiedSample Examples.fourPapers 4).
Proof.
  assert (Hp : In (Examples.paperOf "B" [] 2020 5) (stratifiedSample Examples.fourPapers 4)).
  { vm_compute. auto. }
  split; [exact Hp|].
  apply (stratifiedSample_prefers_cited Examples.fourPapers 4
           (Examples.paperOf "B" [] 2020 5) (Examples.paperOf "A" ["J. Smith"] 2020 9) Hp).
  - left. reflexivity.
  - reflexivity.
  - vm_compute. reflexivity.
Defined.

End SamplerExtras.

Module DedupMoreFacts.
Import Vocabulary MoreVocabulary ListFacts JsFacts DedupFacts RelationshipService.

Lemma deduplicateFrom_Subseq rels : forall seen,
  Subseq (deduplicateFrom seen rels) rels.
Proof.
  induction rels as [|rel rest IH]; intros seen; simpl; [constructor|].
  destruct (negb _ && negb _); [apply Subseq_keep | apply Subseq_drop]; apply IH.
Qed.

Lemma deduplicateFrom_idem rels : forall seen,
  deduplicateFrom seen (deduplicateFrom seen rels) = deduplicateFrom seen rels.
Proof.
  induction rels as [|rel rest IH]; intros seen; simpl; [reflexivity|].
  destruct (negb (inStrings (relKey (sourceId rel) (targetId rel) (relationshipType rel)) seen)
            && negb (inStrings (relKey (targetId rel) (sourceId rel) (relationshipType rel)) seen))
    eqn:E.
  - simpl. rewrite E. now rewrite IH.
  - apply IH.
Qed.

Lemma Subseq_length {A} (l1 l2 : list A) :
  Subseq l1 l2 -> (List.length l1 <= List.length l2)%nat.
Proof. induction 1; simpl; lia. Qed.

Lemma Subseq_In {A} (l1 l2 : list A) x : Subseq l1 l2 -> In x l1 -> In x l2.
Proof.
  induction 1; simpl; [tauto | |]; intros H0; [destruct H0; auto | auto].
Qed.

End DedupMoreFacts.

Module StrengthFacts.
Import Vocabulary MoreVocabulary ListFacts JsFacts DedupFacts DedupMoreFacts.
Import DetectorFacts PipelineFacts RelationshipService.

(** The strength of a returned relationship follows from its type: 0.9
    for a citation, 0.4 for a venue and 0.3 for a temporal relationship;
    [min(0.9, n * 0.3)] with [n >= 1] shared authors for an author
    relationship, and [min(0.8, n * 0.1)] with an overlap count [n >= 3]
    for a content relationship. *)
Lemma returned_strength (papers : list Paper) (s : Random.Source) :
  Forall (fun r =>
            match relationshipType r with
            | RelationshipType.citation => strength r = 0.9%float
            | RelationshipType.venue => strength r = 0.4%float
            | RelationshipType.temporal => strength r = 0.3%float
            | RelationshipType.author =>
                exists n, (1 <= n)%nat
                          /\ strength r = Js.Math_min 0.9 (PrimFloat.mul (Js.ofNat n) 0.3)
            | RelationshipType.content =>
                exists n, (3 <= n)%nat
                          /\ strength r = Js.Math_min 0.8 (PrimFloat.mul (Js.ofNat n) 0.1)
            end)
         (fst (analyzeRelationships papers s)).
Proof.
  apply Forall_forall. intros r Hr. apply analyzeRelationships_candidate in Hr.
  rewrite candidateRelationships_run in Hr.
  repeat (apply in_app_or in Hr; destruct Hr as [Hr|Hr]).
  - unfold findAuthorRelationships in Hr.
    apply in_flat_map in Hr. destruct Hr as [paper [_ Hr]].
    apply in_flat_map in Hr. destruct Hr as [a [_ Hr]].
    apply in_flat_map in Hr. destruct Hr as [other [_ Hr]].
    destruct (negb _); [|contradiction].
    destruct (Nat.ltb_spec 0 (List.length (sharedAuthorsOf paper other))); [|contradiction].
    destruct Hr as [Hr|[]]. subst r. simpl. eexists. split; [|reflexivity]. lia.
  - revert r Hr. apply Forall_forall. unfold findVenueRelationships.
    apply StFacts.flatMapM_Forall. intros paper s0 _.
    destruct (truthyString (venue paper)); [|constructor].
    revert s0. apply StFacts.flatMapM_Forall. intros other s0 _.
    destruct (negb _); [|constructor]. rewrite StFacts.bind_run. simpl.
    destruct (PrimFloat.ltb _ _); repeat constructor.
  - unfold findContentRelationships in Hr.
    apply in_flat_map in Hr. destruct Hr as [paper [_ Hr]].
    apply in_flat_map in Hr. destruct Hr as [[otherId n] [_ Hr]].
    destruct (Nat.leb_spec 3 n); [|contradiction].
    destruct (Js.find _ _); [|contradiction].
    destruct Hr as [Hr|[]]. subst r. simpl. exists n. split; [assumption | reflexivity].
  - revert r Hr. apply Forall_forall. unfold findTemporalRelationships.
    apply StFacts.flatMapM_Forall. intros [i paper] s0 _.
    destruct (truthyNumber (year paper)); [|constructor].
    destruct (_ <? _)%Z; [|constructor].
    revert s0. apply StFacts.flatMapM_Forall. intros other s0 _.
    rewrite StFacts.bind_run. simpl.
    destruct (PrimFloat.ltb _ _); repeat constructor.
  - apply findCitationRelationships_In in Hr.
    destruct Hr as [p [_ [[x [_ [_ Hr]]]|[x [_ [_ Hr]]]]]]; subst r; reflexivity.
Qed.

End StrengthFacts.

Module PipelineExtras.
Import Vocabulary MoreVocabulary ListFacts JsFacts DedupFacts DedupMoreFacts.
Import DetectorFacts PipelineFacts StrengthFacts RelationshipService.

(** Deduplication only leaves relationships out: its result is the input
    with some elements dropped, in the same order, and starts with the
    first relationship of the input; deduplicating a second time changes
    nothing. *)
Theorem deduplicateRelationships_idempotent (relationships : list PaperRelationship) :
  Subseq (deduplicateRelationships relationships) relationships
  /\ deduplicateRelationships (deduplicateRelationships relationships)
     = deduplicateRelationships relationships
  /\ hd_error (deduplicateRelationships relationships) = hd_error relationships.
Proof.
  split; [apply deduplicateFrom_Subseq|]. split; [apply deduplicateFrom_idem|].
  destruct relationships as [|rel rest]; reflexivity.
Qed.

(** Ranking neither drops nor invents a relationship: the ranked list is a
    permutation of its input. So [analyzeRelationships] returns only
    deduplicated candidates, and all of them when they are at most 200. *)
Theorem rankRelationships_permutes (papers : list Paper) (s : Random.Source) :
  (forall relationships, Permutation (rankRelationships relationships) relationships)
  /\ (forall r, In r (fst (analyzeRelationships papers s)) ->
                In r (deduplicateRelationships (fst (candidateRelationships papers s))))
  /\ ((List.length (deduplicateRelationships (fst (candidateRelationships papers s))) <= 200)%nat ->
      Permutation (fst (analyzeRelationships papers s))
                  (deduplicateRelationships (fst (candidateRelationships papers s)))).
Proof.
  split; [intros; apply sort_perm|]. split.
  - intros r Hr. rewrite analyzeRelationships_run in Hr.
    apply slice_In in Hr. now apply sort_In in Hr.
  - intros Hlen. rewrite analyzeRelationships_run, slice_from_0 by lia.
    rewrite firstn_all2.
    + apply sort_perm.
    + pose proof (Permutation_length
                    (sort_perm rankedAfter
                       (deduplicateRelationships (fst (candidateRelationships papers s))))) as Hl.
      unfold rankRelationships. rewrite Hl.
      change (Z.to_nat 200) with 200%nat. exact Hlen.
Qed.

End PipelineExtras.

Module GateFacts.
Import Vocabulary MoreVocabulary St StFacts ListFacts JsFacts DetectorFacts PipelineFacts.
Import RelationshipService.

(** A loop whose body keeps an invariant of the state and pushes only
    elements with a property. *)
Lemma flatMapM_inv {S A B} (I : S -> Prop) (P : B -> Prop) (f : A -> M S (list B)) l :
  (forall x s, In x l -> I s -> Forall P (fst (f x s)) /\ I (snd (f x s))) ->
  forall s, I s -> Forall P (fst (flatMapM f l s)) /\ I (snd (flatMapM f l s)).
Proof.
  induction l as [|x r IH]; intros H s Hs; simpl.
  - split; [constructor | exact Hs].
  - rewrite !bind_run. simpl.
    destruct (H x s (or_introl eq_refl) Hs) as [H1 H2].
    destruct (IH (fun y s' Hy => H y s' (or_intror Hy)) _ H2) as [H3 H4].
    split; [|exact H4]. apply Forall_app. now split.
Qed.

Lemma Forall_False_nil {A} (l : list A) : Forall (fun _ => False) l -> l = [].
Proof. destruct l; [reflexivity|]. intros H. inversion H; contradiction. Qed.

Lemma drawsAtMost_tail bound s :
  drawsAtMost bound s -> drawsAtMost bound (fun n => s (S n)).
Proof. intros H n. apply H. Qed.

Lemma findVenueRelationships_quiet papers index s :
  drawsAtMost 0.8 s ->
  fst (findVenueRelationships papers index s) = []
  /\ drawsAtMost 0.8 (snd (findVenueRelationships papers index s)).
Proof.
  intros Hs.
  assert (H : Forall (fun _ : PaperRelationship => False)
                (fst (findVenueRelationships papers index s))
              /\ drawsAtMost 0.8 (snd (findVenueRelationships papers index s))).
  { unfold findVenueRelationships.
    apply (flatMapM_inv (drawsAtMost 0.8)); [|exact Hs].
    intros paper t _ Ht.
    destruct (truthyString (venue paper)); [|split; [constructor | exact Ht]].
    apply (flatMapM_inv (drawsAtMost 0.8)); [|exact Ht].
    intros other u _ Hu.
    destruct (negb _); [|split; [constructor | exact Hu]].
    rewrite bind_run. simpl. rewrite (Hu 0%nat). simpl.
    split; [constructor | now apply drawsAtMost_tail]. }
  destruct H as [H1 H2]. split; [now apply Forall_False_nil | exact H2].
Qed.

Lemma findTemporalRelationships_quiet papers s :
  drawsAtMost 0.7 s -> fst (findTemporalRelationships papers s) = [].
Proof.
  intros Hs. apply Forall_False_nil. unfold findTemporalRelationships.
  apply (flatMapM_inv (drawsAtMost 0.7)); [|exact Hs].
  intros [i paper] t _ Ht.
  destruct (truthyNumber (year paper)); [|split; [constructor | exact Ht]].
  destruct (_ <? _)%Z; [|split; [constructor | exact Ht]].
  apply (flatMapM_inv (drawsAtMost 0.7)); [|exact Ht]. intros other u _ Hu.
  rewrite bind_run. simpl. rewrite (Hu 0%nat). simpl.
  split; [constructor | now apply drawsAtMost_tail].
Qed.

(** Counting the elements pushed by a loop. *)
Lemma flatMapM_count {S A B} (P : B -> bool) (w : A -> nat) (f : A -> M S (list B)) l :
  (forall x s, In x l -> List.length (filter P (fst (f x s))) <= w x) ->
  forall s, List.length (filter P (fst (flatMapM f l s))) <= list_sum (map w l).
Proof.
  induction l as [|x r IH]; intros H s; simpl; [lia|].
  rewrite !bind_run. simpl. rewrite filter_app, length_app.
  pose proof (H x s (or_introl eq_refl)) as H1.
  pose proof (IH (fun y s' Hy => H y s' (or_intror Hy)) (snd (f x s))) as H2. lia.
Qed.

Lemma filter_true_all {A} (l : list A) : filter (fun _ => true) l = l.
Proof. induction l as [|x r IH]; simpl; [reflexivity|]. now rewrite IH. Qed.

Lemma list_sum_ones {A} (l : list A) : list_sum (map (fun _ => 1) l) = List.length l.
Proof. induction l as [|x r IH]; simpl; [reflexivity|]. now rewrite IH. Qed.

Lemma filter_length_perm {A} (P : A -> bool) l1 l2 :
  Permutation l1 l2 -> List.length (filter P l1) = List.length (filter P l2).
Proof.
  induction 1 as [|x l1 l2 _ IH|x y l|l1 l2 l3 _ IH1 _ IH2]; simpl.
  - reflexivity.
  - destruct (P x); simpl; lia.
  - destruct (P x), (P y); reflexivity.
  - lia.
Qed.

Lemma filter_length_SubPerm {A} (P : A -> bool) l1 l2 :
  SubPerm l1 l2 -> List.length (filter P l1) <= List.length (filter P l2).
Proof.
  intros [rest H]. apply (filter_length_perm P) in H.
  rewrite filter_app, length_app in H. lia.
Qed.

Lemma filter_length_Subseq {A} (P : A -> bool) (l1 l2 : list A) :
  Subseq l1 l2 -> List.length (filter P l1) <= List.length (filter P l2).
Proof.
  induction 1 as [|x l1 l2 _ IH|x l1 l2 _ IH]; simpl; [lia| |];
    destruct (P x); simpl; lia.
Qed.

Lemma filter_other_type (P : PaperRelationship -> bool) k k' l :
  (forall r, P r = true -> relationshipType r = k) -> k' <> k ->
  Forall (fun r => relationshipType r = k') l -> filter P l = [].
Proof.
  intros HP Hk. induction 1 as [|x r Hx _ IH]; simpl; [reflexivity|].
  destruct (P x) eqn:E; [|exact IH]. apply HP in E. congruence.
Qed.

Lemma indexed_snd {A} (l : list A) : map snd (indexed l) = l.
Proof.
  unfold indexed. generalize 0%nat. induction l as [|x r IH]; intros a; simpl; [reflexivity|].
  now rewrite IH.
Qed.

(** Weights that are 3 before position [m] and 0 from there on. *)
Lemma sum_before {A} m (l : list A) : forall a,
  list_sum (map (fun e : nat * A => if (fst e <? m)%nat then 3 else 0)
                (combine (seq a (List.length l)) l)) <= 3 * (m - a).
Proof.
  induction l as [|x r IH]; intros a; simpl; [lia|].
  specialize (IH (S a)). destruct (Nat.ltb_spec a m); lia.
Qed.

(** Weights that are 3 on one id and 0 elsewhere. *)
Lemma sum_one_id x (l : list (nat * Paper)) :
  NoDup (map (fun e => id (snd e)) l) ->
  list_sum (map (fun e => if String.eqb (id (snd e)) x then 3 else 0) l) <= 3.
Proof.
  induction l as [|e r IH]; simpl; intros Hn; [lia|].
  inversion Hn as [|? ? Hnot Hn']; subst. specialize (IH Hn').
  destruct (String.eqb_spec (id (snd e)) x) as [E|E]; [|lia].
  assert (Hz : list_sum (map (fun e => if String.eqb (id (snd e)) x then 3 else 0) r) = 0).
  { clear IH Hn Hn'. induction r as [|e' r IHr]; simpl; [reflexivity|].
    destruct (String.eqb_spec (id (snd e')) x) as [E'|E'].
    - exfalso. apply Hnot. left. congruence.
    - apply IHr. intros Hin. apply Hnot. now right. }
  lia.
Qed.

(** The edges that one paper of the temporal loop pushes. *)
Lemma temporal_inner_length (P : PaperRelationship -> bool) paper y
    (others : list Paper) s :
  List.length (filter P (fst (flatMapM (fun otherPaper =>
      bind Random.Math_random (fun r =>
        if PrimFloat.ltb 0.7 r then
          ret [ {| sourceId := id paper;
                   targetId := id otherPaper;
                   relationshipType := RelationshipType.temporal;
                   strength := 0.3%float;
                   metadata :=
                     Some (Metadata.mk None None None
                             (Some (Z.abs (numberOr (year otherPaper) 0 - y)))
                             None) |} ]
        else ret [])) (Js.slice others 0 3) s)))
  <= 3.
Proof.
  etransitivity; [apply (flatMapM_count P (fun _ => 1))|].
  - intros other t _. rewrite bind_run. simpl.
    destruct (PrimFloat.ltb _ _); simpl; [destruct (P _); simpl; lia | lia].
  - rewrite list_sum_ones.
    pose proof (slice_from_0_length others 3 ltac:(lia)) as H.
    change (Z.to_nat 3) with 3%nat in H. exact H.
Qed.

Lemma findTemporalRelationships_length papers s :
  List.length (fst (findTemporalRelationships papers s)) <= 3 * (List.length papers - 1).
Proof.
  rewrite <- (filter_true_all (fst (findTemporalRelationships papers s))) at 1.
  unfold findTemporalRelationships.
  etransitivity;
    [apply (flatMapM_count (fun _ => true)
              (fun e => if (fst e <? List.length papers - 1)%nat then 3 else 0))|].
  - intros [i paper] t _. cbn [fst].
    destruct (truthyNumber (year paper)); [|simpl; lia].
    destruct (Z.ltb_spec (Z.of_nat i) (Z.of_nat (List.length papers) - 1)); [|simpl; lia].
    destruct (Nat.ltb_spec i (List.length papers - 1)); [|lia].
    apply temporal_inner_length.
  - unfold indexed. etransitivity; [apply sum_before|]. lia.
Qed.

Lemma findTemporalRelationships_per_source papers s x :
  NoDup (map id papers) ->
  List.length (filter (fun r => String.eqb (sourceId r) x)
                 (fst (findTemporalRelationships papers s))) <= 3.
Proof.
  intros Hn. unfold findTemporalRelationships.
  etransitivity;
    [apply (flatMapM_count _ (fun e => if String.eqb (id (snd e)) x then 3 else 0))|].
  - intros [i paper] t _. cbn [snd].
    destruct (truthyNumber (year paper)); [|simpl; lia].
    destruct (_ <? _)%Z; [|simpl; lia].
    destruct (String.eqb_spec (id paper) x) as [E|E]; [apply temporal_inner_length|].
    apply Nat.le_0_r, length_zero_iff_nil.
    apply Forall_False_nil. apply Forall_forall. intros r Hr.
    apply filter_In in Hr. destruct Hr as [Hr Hx].
    apply String.eqb_eq in Hx. apply E. rewrite <- Hx. clear Hx.
    revert r Hr. apply Forall_forall. revert t.
    apply flatMapM_Forall. intros other t _. rewrite bind_run. simpl.
    destruct (PrimFloat.ltb _ _); repeat constructor.
  - apply sum_one_id. rewrite <- (map_map snd id), indexed_snd. exact Hn.
Qed.

(** What the temporal detector pushes: its two papers, their years and the
    whole edge. *)
Lemma findTemporalRelationships_shape papers s :
  Forall (fun r => exists i paper otherPaper y oy,
            nth_error papers i = Some paper
            /\ In otherPaper (skipn (S i) papers)
            /\ truthyNumber (year paper) = Some y
            /\ truthyNumber (year otherPaper) = Some oy
            /\ (Z.abs (oy - y) <= 1)%Z
            /\ r = {| sourceId := id paper;
                      targetId := id otherPaper;
                      relationshipType := RelationshipType.temporal;
                      strength := 0.3%float;
                      metadata := Some (Metadata.mk None None None
                                          (Some (Z.abs (oy - y))) None) |})
         (fst (findTemporalRelationships papers s)).
Proof.
  revert s. unfold findTemporalRelationships.
  apply flatMapM_Forall. intros [i paper] s Hin.
  apply indexed_nth in Hin.
  destruct (truthyNumber (year paper)) as [y|] eqn:Ey; [|constructor].
  destruct (Z.of_nat i <? Z.of_nat (List.length papers) - 1)%Z; [|constructor].
  revert s. apply flatMapM_Forall. intros other s Ho.
  apply slice_In in Ho. apply filter_In in Ho. destruct Ho as [Ho Hy].
  rewrite sliceFrom_skipn in Ho by lia.
  replace (Z.to_nat (Z.of_nat i + 1)) with (S i) in Ho by lia.
  destruct (truthyNumber (year other)) as [oy|] eqn:Eo; [|discriminate].
  apply Z.leb_le in Hy.
  rewrite bind_run. simpl.
  destruct (PrimFloat.ltb _ _); simpl; constructor; [|constructor].
  exists i, paper, other, y, oy. repeat (split; [assumption|]).
  assert (Hnum : numberOr (year other) 0 = oy).
  { unfold truthyNumber in Eo. unfold numberOr.
    destruct (year other) as [v|]; [|discriminate].
    destruct (Z.eqb v 0); [discriminate|]. now inversion Eo. }
  now rewrite Hnum.
Qed.

End GateFacts.

Module PipelineMoreFacts.
Import Vocabulary MoreVocabulary St StFacts ListFacts JsFacts DetectorFacts DedupFacts.
Import DedupMoreFacts PipelineFacts GateFacts RelationshipService.

Lemma filter_length_impl {A} (P Q : A -> bool) l :
  (forall x, P x = true -> Q x = true) ->
  List.length (filter P l) <= List.length (filter Q l).
Proof.
  intros H. induction l as [|x r IH]; simpl; [lia|].
  destruct (P x) eqn:E.
  - rewrite (H x E). simpl. lia.
  - destruct (Q x); simpl; lia.
Qed.

(** The returned list holds no more elements with a property than the
    candidates do. *)
Lemma analyzeRelationships_count (P : PaperRelationship -> bool) papers s :
  List.length (filter P (fst (analyzeRelationships papers s)))
  <= List.length (filter P (fst (candidateRelationships papers s))).
Proof.
  rewrite analyzeRelationships_run.
  etransitivity; [apply filter_length_SubPerm, slice_SubPerm|].
  unfold rankRelationships. rewrite (filter_length_perm P _ _ (sort_perm _ _)).
  apply filter_length_Subseq, deduplicateFrom_Subseq.
Qed.

Lemma Forall_type_bucket k papers index l :
  Forall (FromBucket k papers index) l -> Forall (fun r => relationshipType r = k) l.
Proof. apply Forall_impl. now intros r [H _]. Qed.

Lemma Forall_type_content papers l :
  Forall (fun r => FromList RelationshipType.content papers r
                   /\ sourceId r <> targetId r) l ->
  Forall (fun r => relationshipType r = RelationshipType.content) l.
Proof. apply Forall_impl. now intros r [[H _] _]. Qed.

Lemma Forall_type_citation papers l :
  Forall (fun r => FromList RelationshipType.citation papers r
                   /\ strength r = 0.9%float) l ->
  Forall (fun r => relationshipType r = RelationshipType.citation) l.
Proof. apply Forall_impl. now intros r [[H _] _]. Qed.

(** A candidate was pushed by the detector of its type. *)
Lemma candidate_by_type papers s r :
  In r (fst (candidateRelationships papers s)) ->
  match relationshipType r with
  | RelationshipType.author =>
      In r (findAuthorRelationships (sampledPapers papers) (buildAuthorIndex papers))
  | RelationshipType.venue =>
      In r (fst (findVenueRelationships (sampledPapers papers) (buildVenueIndex papers) s))
  | RelationshipType.content =>
      In r (findContentRelationships (sampledPapers papers) (buildKeywordIndex papers))
  | RelationshipType.temporal =>
      In r (fst (findTemporalRelationships (sampledPapers papers)
                   (snd (findVenueRelationships (sampledPapers papers)
                           (buildVenueIndex papers) s))))
  | RelationshipType.citation =>
      In r (findCitationRelationships (sampledPapers papers))
  end.
Proof.
  rewrite candidateRelationships_run. intros H.
  repeat (apply in_app_or in H; destruct H as [H|H]).
  - pose proof (proj1 (Forall_forall _ _)
                  (Forall_type_bucket _ _ _ _ (findAuthorRelationships_from _ _)) r H) as E.
    now rewrite E.
  - pose proof (proj1 (Forall_forall _ _)
                  (Forall_type_bucket _ _ _ _ (findVenueRelationships_from _ _ _)) r H) as E.
    now rewrite E.
  - pose proof (proj1 (Forall_forall _ _)
                  (Forall_type_content _ _ (findContentRelationships_from _ _)) r H) as E.
    now rewrite E.
  - pose proof (proj1 (Forall_forall _ _) (findTemporalRelationships_from _ _) r H) as [E _].
    now rewrite E.
  - pose proof (proj1 (Forall_forall _ _)
                  (Forall_type_citation _ _ (findCitationRelationships_from _)) r H) as E.
    now rewrite E.
Qed.

End PipelineMoreFacts.

Module GateExtras.
Import Vocabulary MoreVocabulary Examples St StFacts ListFacts JsFacts DetectorFacts.
Import DedupFacts DedupMoreFacts PipelineFacts GateFacts PipelineMoreFacts.
Import RelationshipService.

(** Venue and temporal relationships exist only by a draw above the
    threshold: when [Math.random()] never returns more than 0.7 (so never
    more than 0.8), the candidates are the author, content and citation
    relationships alone, and no venue or temporal relationship is
    returned. *)
Theorem quiet_draws_leave_three_detectors (papers : list Paper) (s : Random.Source) :
  drawsAtMost 0.8 s -> drawsAtMost 0.7 s ->
  fst (candidateRelationships papers s)
  = findAuthorRelationships (sampledPapers papers) (buildAuthorIndex papers)
    ++ findContentRelationships (sampledPapers papers) (buildKeywordIndex papers)
    ++ findCitationRelationships (sampledPapers papers)
  /\ Forall (fun r => relationshipType r <> RelationshipType.venue
                      /\ relationshipType r <> RelationshipType.temporal)
            (fst (analyzeRelationships papers s)).
Proof.
  intros H8 H7.
  assert (E : fst (candidateRelationships papers s)
              = findAuthorRelationships (sampledPapers papers) (buildAuthorIndex papers)
                ++ findContentRelationships (sampledPapers papers) (buildKeywordIndex papers)
                ++ findCitationRelationships (sampledPapers papers)).
  { rewrite candidateRelationships_run.
    destruct (findVenueRelationships_quiet (sampledPapers papers) (buildVenueIndex papers) s H8)
      as [Ev _].
    rewrite Ev. cbn [app]. f_equal. f_equal.
    assert (H7' : drawsAtMost 0.7
                    (snd (findVenueRelationships (sampledPapers papers)
                            (buildVenueIndex papers) s))).
    { unfold findVenueRelationships.
      apply (flatMapM_inv (drawsAtMost 0.7) (fun _ : PaperRelationship => True)); [|exact H7].
      intros paper t _ Ht. destruct (truthyString (venue paper));
        [|split; [constructor | exact Ht]].
      apply (flatMapM_inv (drawsAtMost 0.7) (fun _ : PaperRelationship => True)); [|exact Ht].
      intros other u _ Hu. destruct (negb _); [|split; [constructor | exact Hu]].
      rewrite bind_run. simpl. split.
      - destruct (PrimFloat.ltb _ _); repeat constructor.
      - destruct (PrimFloat.ltb _ _); now apply drawsAtMost_tail. }
    now rewrite (findTemporalRelationships_quiet _ _ H7'). }
  split; [exact E|].
  apply Forall_forall. intros r Hr. apply analyzeRelationships_candidate in Hr.
  rewrite E in Hr.
  repeat (apply in_app_or in Hr; destruct Hr as [Hr|Hr]).
  - revert r Hr. apply Forall_forall.
    eapply Forall_impl; [|apply findAuthorRelationships_from].
    intros r [H _]. rewrite H. split; discriminate.
  - revert r Hr. apply Forall_forall.
    eapply Forall_impl; [|apply findContentRelationships_from].
    intros r [[H _] _]. rewrite H. split; discriminate.
  - revert r Hr. apply Forall_forall.
    eapply Forall_impl; [|apply findCitationRelationships_from].
    intros r [[H _] _]. rewrite H. split; discriminate.
Qed.

(** The four example papers with draws that are all 0. *)
Lemma quiet_draws_leave_three_detectors_witness :
  drawsAtMost 0.8 (always 0) /\ drawsAtMost 0.7 (always 0)
  /\ Forall (fun r => relationshipType r <> RelationshipType.venue
                      /\ relationshipType r <> RelationshipType.temporal)
            (fst (analyzeRelationships fourPapers (always 0))).
Proof.
  assert (H8 : drawsAtMost 0.8 (always 0)) by (intros n; reflexivity).
  assert (H7 : drawsAtMost 0.7 (always 0)) by (intros n; reflexivity).
  split; [exact H8|]. split; [exact H7|].
  exact (proj2 (quiet_draws_leave_three_detectors fourPapers (always 0) H8 H7)).
Defined.

(** A temporal relationship that is returned joins a sampled paper with a
    paper later in the sample; both have a year, the years differ by at
    most one, the strength is 0.3 and the metadata carries the difference
    of the years. The temporal detector pushes at most 3 relationships for
    each paper but the last. *)
Theorem temporal_relationships_contemporary (papers : list Paper) (s : Random.Source) :
  Forall (fun r =>
            relationshipType r = RelationshipType.temporal ->
            exists i paper otherPaper y oy,
              nth_error (sampledPapers papers) i = Some paper
              /\ In otherPaper (skipn (S i) (sampledPapers papers))
              /\ truthyNumber (year paper) = Some y
              /\ truthyNumber (year otherPaper) = Some oy
              /\ (Z.abs (oy - y) <= 1)%Z
              /\ r = {| sourceId := id paper;
                        targetId := id otherPaper;
                        relationshipType := RelationshipType.temporal;
                        strength := 0.3%float;
                        metadata := Some (Metadata.mk None None None
                                            (Some (Z.abs (oy - y))) None) |})
         (fst (analyzeRelationships papers s))
  /\ (List.length (fst (findTemporalRelationships papers s))
      <= 3 * (List.length papers - 1))%nat.
Proof.
  split; [|apply findTemporalRelationships_length].
  apply Forall_forall. intros r Hr Ht.
  apply analyzeRelationships_candidate in Hr.
  pose proof (candidate_by_type papers s r Hr) as H. rewrite Ht in H.
  revert r H Hr Ht. 
  pose proof (findTemporalRelationships_shape (sampledPapers papers)
                (snd (findVenueRelationships (sampledPapers papers)
                        (buildVenueIndex papers) s))) as F.
  rewrite Forall_forall in F. intros r H _ _. exact (F r H).
Qed.

(** At most three temporal relationships per source paper: when the ids of
    the input papers are distinct, at most 3 of the returned temporal
    relationships have a given source id. *)
Theorem temporal_cap_per_source (papers : list Paper) (s : Random.Source) (x : string) :
  NoDup (map id papers) ->
  (List.length
     (filter (fun r => RelationshipType.eqb (relationshipType r) RelationshipType.temporal
                       && String.eqb (sourceId r) x)
             (fst (analyzeRelationships papers s))) <= 3)%nat.
Proof.
  intros Hn.
  set (P := fun r => RelationshipType.eqb (relationshipType r) RelationshipType.temporal
                     && String.eqb (sourceId r) x).
  assert (HP : forall r, P r = true -> relationshipType r = RelationshipType.temporal).
  { intros r Hr. unfold P in Hr. apply andb_prop in Hr. destruct Hr as [Hr _].
    destruct (relationshipType r); try discriminate. reflexivity. }
  etransitivity; [apply analyzeRelationships_count|].
  rewrite candidateRelationships_run, !filter_app.
  rewrite (filter_other_type P _ RelationshipType.author _ HP ltac:(discriminate)
             (Forall_type_bucket _ _ _ _ (findAuthorRelationships_from _ _))).
  rewrite (filter_other_type P _ RelationshipType.venue _ HP ltac:(discriminate)
             (Forall_type_bucket _ _ _ _ (findVenueRelationships_from _ _ _))).
  rewrite (filter_other_type P _ RelationshipType.content _ HP ltac:(discriminate)
             (Forall_type_content _ _ (findContentRelationships_from _ _))).
  rewrite (filter_other_type P _ RelationshipType.citation _ HP ltac:(discriminate)
             (Forall_type_citation _ _ (findCitationRelationships_from _))).
  cbn [app]. rewrite app_nil_r.
  etransitivity;
    [apply (filter_length_impl P (fun r => String.eqb (sourceId r) x))|].
  - intros r Hr. unfold P in Hr. now apply andb_prop in Hr.
  - apply findTemporalRelationships_per_source.
    eapply SubPerm_NoDup; [|exact Hn]. apply SubPerm_map, sampledPapers_SubPerm.
Qed.

(** The four example papers, with draws that keep every temporal
    relationship. *)
Lemma temporal_cap_per_source_witness :
  NoDup (map id fourPapers)
  /\ (List.length
        (filter (fun r => RelationshipType.eqb (relationshipType r) RelationshipType.temporal
                          && String.eqb (sourceId r) "A")
                (fst (analyzeRelationships fourPapers (always 1)))) <= 3)%nat.
Proof.
  assert (Hn : NoDup (map id fourPapers)).
  { repeat constructor; simpl; intuition discriminate. }
  split; [exact Hn|].
  exact (temporal_cap_per_source fourPapers (always 1) "A" Hn).
Defined.

End GateExtras.

Module IndexMoreFacts.
Import Vocabulary MoreVocabulary ListFacts JsFacts MapFacts IndexFacts.
Import RelationshipService.

(** A bucket after one push: the paper is appended to the bucket of its
    key, and the other buckets stay. *)
Lemma bucket_pushInto k' k p m :
  bucket k' (pushInto String.eqb k p m)
  = if String.eqb k' k then bucket k' m ++ [p] else bucket k' m.
Proof.
  unfold bucket. induction m as [|[k2 v] r IH].
  - rewrite (pushInto_nil String.eqb string_eqb_eq). simpl.
    now destruct (String.eqb k' k).
  - rewrite pushInto_cons. destruct (String.eqb_spec k k2) as [E|E]; simpl.
    + subst k2. now destruct (String.eqb k' k).
    + destruct (String.eqb_spec k' k2) as [E2|E2].
      * subst k2. destruct (String.eqb_spec k' k); [congruence | reflexivity].
      * exact IH.
Qed.

(** The bucket of [k] after the pushes for one paper: once for every
    element whose key is [k]. *)
Lemma bucket_pushes {X} (key : X -> string) k p (xs : list X) : forall m,
  bucket k (fold_left (fun idx x => pushInto String.eqb (key x) p idx) xs m)
  = bucket k m ++ flat_map (fun x => if String.eqb k (key x) then [p] else []) xs.
Proof.
  induction xs as [|x r IH]; intros m; simpl; [now rewrite app_nil_r|].
  rewrite IH, bucket_pushInto. destruct (String.eqb k (key x)); simpl.
  - now rewrite <- app_assoc.
  - reflexivity.
Qed.

Lemma bucket_fold (step : Js.Map string (list Paper) -> Paper -> Js.Map string (list Paper))
    (pushed : Paper -> list Paper) k :
  (forall m p, bucket k (step m p) = bucket k m ++ pushed p) ->
  forall papers m,
    bucket k (fold_left step papers m) = bucket k m ++ flat_map pushed papers.
Proof.
  intros H papers. induction papers as [|p r IH]; intros m; simpl; [now rewrite app_nil_r|].
  now rewrite IH, H, <- app_assoc.
Qed.

Lemma buildAuthorIndex_bucket papers k :
  bucket k (buildAuthorIndex papers)
  = flat_map (fun p => flat_map (fun a => if String.eqb k (normalized a) then [p] else [])
                                (authors p)) papers.
Proof.
  unfold buildAuthorIndex.
  rewrite (bucket_fold _ (fun p => flat_map (fun a => if String.eqb k (normalized a)
                                                      then [p] else []) (authors p))).
  - reflexivity.
  - intros m p. apply (bucket_pushes normalized).
Qed.

Lemma buildVenueIndex_bucket papers k :
  bucket k (buildVenueIndex papers)
  = filter (fun p => match truthyString (venue p) with
                     | Some v => String.eqb k (normalized v)
                     | None => false
                     end) papers.
Proof.
  unfold buildVenueIndex.
  rewrite (bucket_fold _ (fun p => match truthyString (venue p) with
                                   | Some v => if String.eqb k (normalized v) then [p] else []
                                   | None => []
                                   end)).
  - simpl. induction papers as [|p r IH]; simpl; [reflexivity|].
    rewrite IH. destruct (truthyString (venue p)) as [v|]; [|reflexivity].
    now destruct (String.eqb k (normalized v)).
  - intros m p. destruct (truthyString (venue p)) as [v|]; [|now rewrite app_nil_r].
    rewrite bucket_pushInto. unfold normalized.
    destruct (String.eqb k _); [reflexivity | now rewrite app_nil_r].
Qed.

Lemma buildKeywordIndex_bucket papers k :
  bucket k (buildKeywordIndex papers)
  = flat_map (fun p => flat_map (fun w => if String.eqb k w then [p] else [])
                                (extractKeywords (paperText p))) papers.
Proof.
  unfold buildKeywordIndex.
  rewrite (bucket_fold _ (fun p => flat_map (fun w => if String.eqb k w then [p] else [])
                                            (extractKeywords (paperText p)))).
  - reflexivity.
  - intros m p. apply (bucket_pushes (fun w => w)).
Qed.

Lemma in_pushed {X} (key : X -> string) k (p q : Paper) (xs : list X) :
  In q (flat_map (fun x => if String.eqb k (key x) then [p] else []) xs)
  <-> q = p /\ exists x, In x xs /\ key x = k.
Proof.
  rewrite in_flat_map. split.
  - intros [x [Hx Hq]]. destruct (String.eqb_spec k (key x)) as [E|E]; [|contradiction].
    destruct Hq as [Hq|[]]. split; [now symmetry|]. exists x. now split.
  - intros [Hq [x [Hx E]]]. exists x. split; [exact Hx|].
    subst k q. rewrite String.eqb_refl. now left.
Qed.

End IndexMoreFacts.

Module IndexExtras.
Import Vocabulary MoreVocabulary ListFacts JsFacts MapFacts IndexFacts IndexMoreFacts.
Import RelationshipService.

(** Looking up the three indexes: a paper is in the author bucket of a key
    exactly when it is an input paper with an author whose lower-cased,
    trimmed name is the key; in the venue bucket exactly when its venue is
    not empty and normalizes to the key; in the keyword bucket exactly when
    the key is one of its keywords. *)
Theorem index_lookup (papers : list Paper) (k : string) (p : Paper) :
  (In p (bucket k (buildAuthorIndex papers))
   <-> In p papers /\ exists a, In a (authors p) /\ normalized a = k)
  /\ (In p (bucket k (buildVenueIndex papers))
      <-> In p papers /\ exists v, truthyString (venue p) = Some v /\ normalized v = k)
  /\ (In p (bucket k (buildKeywordIndex papers))
      <-> In p papers /\ In k (extractKeywords (paperText p))).
Proof.
  split; [|split].
  - rewrite buildAuthorIndex_bucket, in_flat_map. split.
    + intros [q [Hq Hp]]. apply (in_pushed normalized) in Hp. destruct Hp as [E Ha].
      subst q. now split.
    + intros [Hp Ha]. exists p. split; [exact Hp|]. apply (in_pushed normalized). now split.
  - rewrite buildVenueIndex_bucket, filter_In. split.
    + intros [Hp Hv]. split; [exact Hp|].
      destruct (truthyString (venue p)) as [v|]; [|discriminate].
      exists v. split; [reflexivity|]. apply String.eqb_eq in Hv. now symmetry.
    + intros [Hp [v [Hv E]]]. split; [exact Hp|]. rewrite Hv. subst k.
      apply String.eqb_refl.
  - rewrite buildKeywordIndex_bucket, in_flat_map. split.
    + intros [q [Hq Hp]]. apply (in_pushed (fun w => w)) in Hp. destruct Hp as [E [w [Hw Ew]]].
      subst q w. now split.
    + intros [Hp Hk]. exists p. split; [exact Hp|]. apply (in_pushed (fun w => w)).
      split; [reflexivity|]. now exists k.
Qed.

End IndexExtras.

Module ContentFacts.
Import Vocabulary MoreVocabulary ListFacts JsFacts MapFacts IndexFacts IndexMoreFacts.
Import DetectorFacts CacheFacts CacheOpsFacts RelationshipService.

Lemma get_of_entry {V} k (v : V) (m : Js.Map string V) :
  NoDup (Js.keys m) -> In (k, v) m -> Js.get String.eqb k m = Some v.
Proof.
  induction m as [|[k' v'] r IH]; simpl; intros Hn Hin; [contradiction|].
  inversion Hn as [|? ? Hnot Hn']; subst.
  destruct Hin as [E|Hin].
  - inversion E; subst. now rewrite String.eqb_refl.
  - destruct (String.eqb_spec k k') as [E|E]; [|now apply IH].
    subst k'. exfalso. apply Hnot. apply in_map_iff. now exists (k, v).
Qed.

Lemma bumped_bumped before c d : bumped (bumped before c) d = bumped before (c + d).
Proof.
  destruct before as [n|]; simpl; [f_equal; lia|].
  destruct c as [|c]; simpl; [reflexivity|]. f_equal.
Qed.

Lemma count_bucket paper x (others : list Paper) : forall m : Js.Map string nat,
  Js.get String.eqb x
    (fold_left (fun relatedPapers otherPaper =>
       if negb (String.eqb (id paper) (id otherPaper)) then
         let seen := match Js.get String.eqb (id otherPaper) relatedPapers with
                     | Some n => n
                     | None => 0%nat
                     end in
         Js.set String.eqb (id otherPaper) (seen + 1)%nat relatedPapers
       else relatedPapers) others m)
  = bumped (Js.get String.eqb x m)
      (List.length (filter (fun otherPaper =>
                              negb (String.eqb (id paper) (id otherPaper))
                              && String.eqb (id otherPaper) x) others)).
Proof.
  induction others as [|o r IH]; intros m; simpl.
  - destruct (Js.get String.eqb x m); simpl; [f_equal; lia | reflexivity].
  - rewrite IH. destruct (negb (String.eqb (id paper) (id o))); simpl; [|reflexivity].
    destruct (String.eqb_spec (id o) x) as [E|E]; simpl.
    + subst x. rewrite get_set_same.
      destruct (Js.get String.eqb (id o) m); simpl; f_equal; lia.
    + rewrite get_set_other by congruence. reflexivity.
Qed.

Lemma countRelated_get paper kws index x : forall m : Js.Map string nat,
  Js.get String.eqb x
    (fold_left (fun relatedPapers keyword =>
       fold_left (fun relatedPapers otherPaper =>
         if negb (String.eqb (id paper) (id otherPaper)) then
           let seen := match Js.get String.eqb (id otherPaper) relatedPapers with
                       | Some n => n
                       | None => 0%nat
                       end in
           Js.set String.eqb (id otherPaper) (seen + 1)%nat relatedPapers
         else relatedPapers)
       (bucket keyword index) relatedPapers) kws m)
  = bumped (Js.get String.eqb x m)
      (list_sum (map (fun keyword =>
                        List.length
                          (filter (fun otherPaper =>
                                     negb (String.eqb (id paper) (id otherPaper))
                                     && String.eqb (id otherPaper) x)
                                  (bucket keyword index))) kws)).
Proof.
  induction kws as [|w r IH]; intros m; simpl.
  - destruct (Js.get String.eqb x m); simpl; [f_equal; lia | reflexivity].
  - rewrite IH, count_bucket. apply bumped_bumped.
Qed.

Lemma countRelated_NoDup paper kws index :
  NoDup (Js.keys (countRelated paper kws index)).
Proof.
  unfold countRelated.
  assert (H : forall m : Js.Map string nat, NoDup (Js.keys m) ->
            NoDup (Js.keys (fold_left (fun relatedPapers keyword =>
              fold_left (fun relatedPapers otherPaper =>
                if negb (String.eqb (id paper) (id otherPaper)) then
                  let seen := match Js.get String.eqb (id otherPaper) relatedPapers with
                              | Some n => n
                              | None => 0%nat
                              end in
                  Js.set String.eqb (id otherPaper) (seen + 1)%nat relatedPapers
                else relatedPapers)
              (bucket keyword index) relatedPapers) kws m))).
  { induction kws as [|w r IH]; intros m Hm; simpl; [exact Hm|].
    apply IH. generalize (bucket w index). intros others. revert m Hm.
    induction others as [|o rest IHo]; intros m Hm; simpl; [exact Hm|].
    apply IHo. destruct (negb _); [|exact Hm]. now apply keys_set_NoDup. }
  apply H. constructor.
Qed.

Lemma countRelated_lookup paper index x :
  Js.get String.eqb x (countRelated paper (extractKeywords (paperText paper)) index)
  = bumped None (overlapCount paper index x).
Proof.
  unfold countRelated, overlapCount.
  apply (countRelated_get paper (extractKeywords (paperText paper)) index x []).
Qed.

(** The entries of the counter are the ids with a positive overlap count,
    each with its count. *)
Lemma countRelated_entry paper index x n :
  In (x, n) (countRelated paper (extractKeywords (paperText paper)) index)
  <-> n = overlapCount paper index x /\ (0 < n)%nat.
Proof.
  pose proof (countRelated_lookup paper index x) as G. simpl in G.
  split.
  - intros Hin.
    apply get_of_entry in Hin; [|apply countRelated_NoDup].
    rewrite Hin in G. destruct (overlapCount paper index x) as [|c]; simpl in G;
      [discriminate|]. inversion G. split; [reflexivity | lia].
  - intros [E Hpos]. subst n. apply get_In.
    rewrite G. destruct (overlapCount paper index x); simpl; [lia | reflexivity].
Qed.

Lemma find_id_Some papers x :
  In x (map id papers) -> Js.find (fun p => String.eqb (id p) x) papers <> None.
Proof.
  intros H. apply in_map_iff in H. destruct H as [q [E Hq]].
  unfold Js.find. intros F.
  apply (find_none _ _ F) in Hq. simpl in Hq. rewrite E, String.eqb_refl in Hq. discriminate.
Qed.

Lemma find_id_In papers x q :
  Js.find (fun p => String.eqb (id p) x) papers = Some q -> In x (map id papers).
Proof.
  unfold Js.find. intros F. apply find_some in F. destruct F as [Hq E].
  apply String.eqb_eq in E. subst x. now apply in_map.
Qed.

(** The content relationships, one by one. *)
Lemma findContentRelationships_In papers index r :
  In r (findContentRelationships papers index)
  <-> exists paper,
        In paper papers /\ In (targetId r) (map id papers)
        /\ (3 <= overlapCount paper index (targetId r))%nat
        /\ r = {| sourceId := id paper;
                  targetId := targetId r;
                  relationshipType := RelationshipType.content;
                  strength := Js.Math_min 0.8
                                (PrimFloat.mul
                                   (Js.ofNat (overlapCount paper index (targetId r))) 0.1);
                  metadata :=
                    Some (Metadata.mk
                            (Some (Js.slice (extractKeywords (paperText paper)) 0 5))
                            None None None None) |}.
Proof.
  unfold findContentRelationships. rewrite in_flat_map. split.
  - intros [paper [Hp Hr]]. cbv zeta in Hr. apply in_flat_map in Hr.
    destruct Hr as [[x n] [Hin Hr]].
    apply countRelated_entry in Hin. destruct Hin as [En Hpos].
    destruct (Nat.leb_spec 3 n) as [H3|H3]; [|contradiction].
    destruct (Js.find _ papers) as [q|] eqn:F; [|contradiction].
    destruct Hr as [Hr|[]]. subst r. simpl. exists paper.
    split; [exact Hp|]. split; [eapply find_id_In; eassumption|].
    rewrite <- En. split; [exact H3 | reflexivity].
  - intros [paper [Hp [Hx [H3 Er]]]]. exists paper. split; [exact Hp|]. cbv zeta.
    apply in_flat_map. exists (targetId r, overlapCount paper index (targetId r)).
    split; [apply countRelated_entry; split; [reflexivity | lia]|].
    destruct (Nat.leb_spec 3 (overlapCount paper index (targetId r))) as [_|H]; [|lia].
    destruct (Js.find _ papers) eqn:F; [|now apply find_id_Some in Hx].
    left. now symmetry.
Qed.

End ContentFacts.

Module DetectorMoreFacts.
Import Vocabulary MoreVocabulary ListFacts JsFacts MapFacts IndexFacts IndexMoreFacts.
Import DetectorFacts ContentFacts RelationshipService.

Lemma list_sum_pos {A} (f : A -> nat) l :
  (0 < list_sum (map f l))%nat -> exists x, In x l /\ (0 < f x)%nat.
Proof.
  induction l as [|x r IH]; simpl; [lia|]. intros H.
  destruct (f x) eqn:E.
  - destruct (IH H) as [y [Hy Hf]]. exists y. split; [now right | exact Hf].
  - exists x. split; [now left | lia].
Qed.

(** A positive overlap count comes from a keyword of the paper that is also
    a keyword of an input paper with the other id. *)
Lemma overlapCount_shared papers paper x :
  (0 < overlapCount paper (buildKeywordIndex papers) x)%nat ->
  exists keyword otherPaper,
    In keyword (extractKeywords (paperText paper))
    /\ In otherPaper papers /\ id otherPaper = x /\ id paper <> id otherPaper
    /\ In keyword (extractKeywords (paperText otherPaper)).
Proof.
  intros H. apply list_sum_pos in H. destruct H as [w [Hw Hpos]].
  destruct (filter _ (bucket w (buildKeywordIndex papers))) as [|o rest] eqn:F;
    [simpl in Hpos; lia|].
  assert (Ho : In o (filter (fun otherPaper =>
                               negb (String.eqb (id paper) (id otherPaper))
                               && String.eqb (id otherPaper) x)
                            (bucket w (buildKeywordIndex papers)))).
  { rewrite F. now left. }
  apply filter_In in Ho. destruct Ho as [Ho Hc].
  apply andb_prop in Hc. destruct Hc as [Hne He].
  apply String.eqb_eq in He. apply negb_true_iff, String.eqb_neq in Hne.
  rewrite buildKeywordIndex_bucket in Ho. apply in_flat_map in Ho.
  destruct Ho as [q [Hq Hin]]. apply (in_pushed (fun k => k)) in Hin.
  destruct Hin as [E [k [Hk Ek]]]. subst q k.
  exists w, o. auto.
Qed.

(** The author relationships, one by one. *)
Lemma findAuthorRelationships_In papers index r :
  In r (findAuthorRelationships papers index)
  <-> exists paper author otherPaper,
        In paper papers /\ In author (authors paper)
        /\ In otherPaper (bucket (Js.toLowerCase author) index)
        /\ id paper <> id otherPaper
        /\ sharedAuthorsOf paper otherPaper <> []
        /\ r = {| sourceId := id paper;
                  targetId := id otherPaper;
                  relationshipType := RelationshipType.author;
                  strength :=
                    Js.Math_min 0.9
                      (PrimFloat.mul
                         (Js.ofNat (List.length (sharedAuthorsOf paper otherPaper))) 0.3);
                  metadata :=
                    Some (Metadata.mk None (Some (sharedAuthorsOf paper otherPaper))
                                      None None None) |}.
Proof.
  unfold findAuthorRelationships. rewrite in_flat_map. split.
  - intros [paper [Hp Hr]]. apply in_flat_map in Hr. destruct Hr as [a [Ha Hr]].
    apply in_flat_map in Hr. destruct Hr as [other [Ho Hr]].
    destruct (String.eqb_spec (id paper) (id other)) as [E|E]; [contradiction|].
    simpl in Hr. cbv zeta in Hr.
    destruct (Nat.ltb_spec 0 (List.length (sharedAuthorsOf paper other))) as [Hl|Hl];
      [|contradiction].
    destruct Hr as [Hr|[]]. exists paper, a, other.
    repeat (split; [assumption|]). split; [|now symmetry].
    intros Hnil. rewrite Hnil in Hl. simpl in Hl. lia.
  - intros [paper [a [other [Hp [Ha [Ho [Hne [Hsh Er]]]]]]]].
    exists paper. split; [exact Hp|]. apply in_flat_map. exists a. split; [exact Ha|].
    apply in_flat_map. exists other. split; [exact Ho|].
    destruct (String.eqb_spec (id paper) (id other)) as [E|E]; [contradiction|].
    simpl. cbv zeta.
    destruct (Nat.ltb_spec 0 (List.length (sharedAuthorsOf paper other))) as [Hl|Hl].
    + left. now symmetry.
    + destruct (sharedAuthorsOf paper other); [contradiction | simpl in Hl; lia].
Qed.

Lemma sharedAuthorsOf_In paper otherPaper a :
  In a (sharedAuthorsOf paper otherPaper)
  <-> In a (authors paper)
      /\ exists b, In b (authors otherPaper) /\ Js.toLowerCase b = Js.toLowerCase a.
Proof.
  unfold sharedAuthorsOf. rewrite filter_In, existsb_exists. split.
  - intros [Ha [b [Hb E]]]. apply String.eqb_eq in E. split; [exact Ha|]. now exists b.
  - intros [Ha [b [Hb E]]]. split; [exact Ha|]. exists b. split; [exact Hb|].
    now apply String.eqb_eq.
Qed.

(** What the venue detector pushes. *)
Lemma findVenueRelationships_shape papers index s :
  Forall (fun r => exists paper otherPaper v,
            In paper papers /\ truthyString (venue paper) = Some v
            /\ In otherPaper (bucket (Js.toLowerCase v) index)
            /\ id paper <> id otherPaper
            /\ r = {| sourceId := id paper;
                      targetId := id otherPaper;
                      relationshipType := RelationshipType.venue;
                      strength := 0.4%float;
                      metadata := Some (Metadata.mk None None None None (Some true)) |})
         (fst (findVenueRelationships papers index s)).
Proof.
  revert s. unfold findVenueRelationships.
  apply StFacts.flatMapM_Forall. intros paper s Hp.
  destruct (truthyString (venue paper)) as [v|] eqn:Ev; [|constructor].
  revert s. apply StFacts.flatMapM_Forall. intros other s Ho.
  destruct (String.eqb_spec (id paper) (id other)) as [E|E]; simpl; [constructor|].
  rewrite StFacts.bind_run. simpl.
  destruct (PrimFloat.ltb _ _); simpl; constructor; [|constructor].
  exists paper, other, v. auto.
Qed.

End DetectorMoreFacts.

Module DetectorExtras.
Import Vocabulary MoreVocabulary Examples MoreExamples ListFacts JsFacts MapFacts.
Import IndexFacts IndexMoreFacts DetectorFacts PipelineFacts PipelineMoreFacts.
Import ContentFacts DetectorMoreFacts RelationshipService.

(** An author relationship that is returned goes from a sampled paper to
    an input paper with another id; the two have an author in common, up
    to case; the strength is [min(0.9, n * 0.3)] for the [n] authors of the
    source that the target shares, and the metadata lists them. *)
Theorem author_relationships_share_an_author (papers : list Paper) (s : Random.Source) :
  Forall (fun r =>
            relationshipType r = RelationshipType.author ->
            exists paper otherPaper a b,
              In paper (sampledPapers papers) /\ In otherPaper papers
              /\ id paper <> id otherPaper
              /\ In a (authors paper) /\ In b (authors otherPaper)
              /\ Js.toLowerCase b = Js.toLowerCase a
              /\ r = {| sourceId := id paper;
                        targetId := id otherPaper;
                        relationshipType := RelationshipType.author;
                        strength :=
                          Js.Math_min 0.9
                            (PrimFloat.mul
                               (Js.ofNat (List.length (sharedAuthorsOf paper otherPaper)))
                               0.3);
                        metadata :=
                          Some (Metadata.mk None (Some (sharedAuthorsOf paper otherPaper))
                                            None None None) |})
         (fst (analyzeRelationships papers s)).
Proof.
  apply Forall_forall. intros r Hr Ht.
  apply analyzeRelationships_candidate, candidate_by_type in Hr. rewrite Ht in Hr.
  apply findAuthorRelationships_In in Hr.
  destruct Hr as [paper [a0 [other [Hp [_ [Ho [Hne [Hsh Er]]]]]]]].
  destruct (sharedAuthorsOf paper other) as [|a rest] eqn:Es; [contradiction|].
  assert (Ha : In a (sharedAuthorsOf paper other)) by (rewrite Es; now left).
  apply sharedAuthorsOf_In in Ha. destruct Ha as [Ha [b [Hb E]]].
  exists paper, other, a, b. rewrite Es.
  split; [exact Hp|]. split.
  - apply bucket_stored in Ho.
    exact (proj1 (Forall_forall _ _) (buildAuthorIndex_stored papers) other Ho).
  - auto.
Qed.

(** The author detector finds every pair it should: for a sampled paper
    and an input paper with another id that have an author in common, up
    to case, the relationship is among the candidates, provided the name
    has no white space around it in the sampled paper (the index is built
    with trimmed names and read with untrimmed ones). *)
Theorem author_relationship_found (papers : list Paper) (s : Random.Source)
    (paper otherPaper : Paper) (a b : string) :
  In paper (sampledPapers papers) -> In otherPaper papers ->
  id paper <> id otherPaper ->
  In a (authors paper) -> In b (authors otherPaper) ->
  Js.toLowerCase b = Js.toLowerCase a ->
  Js.trim (Js.toLowerCase a) = Js.toLowerCase a ->
  In {| sourceId := id paper;
        targetId := id otherPaper;
        relationshipType := RelationshipType.author;
        strength :=
          Js.Math_min 0.9
            (PrimFloat.mul (Js.ofNat (List.length (sharedAuthorsOf paper otherPaper))) 0.3);
        metadata :=
          Some (Metadata.mk None (Some (sharedAuthorsOf paper otherPaper))
                            None None None) |}
     (fst (candidateRelationships papers s)).
Proof.
  intros Hp Ho Hne Ha Hb E Ht.
  rewrite candidateRelationships_run. apply in_or_app. left.
  apply findAuthorRelationships_In. exists paper, a, otherPaper.
  split; [exact Hp|]. split; [exact Ha|]. split.
  - rewrite buildAuthorIndex_bucket. apply in_flat_map. exists otherPaper.
    split; [exact Ho|]. apply (in_pushed normalized). split; [reflexivity|].
    exists b. split; [exact Hb|]. unfold normalized. now rewrite E.
  - split; [exact Hne|]. split; [|reflexivity].
    assert (Hin : In a (sharedAuthorsOf paper otherPaper)).
    { apply sharedAuthorsOf_In. split; [exact Ha|]. now exists b. }
    intros Hnil. now rewrite Hnil in Hin.
Qed.

(** Paper ["A"] of the four example papers is sampled and shares
    ["J. Smith"] with paper ["C"], which is not. *)
Lemma author_relationship_found_witness :
  exists r,
    In r (fst (candidateRelationships fourPapers (always 0)))
    /\ sourceId r = "A" /\ targetId r = "C"
    /\ relationshipType r = RelationshipType.author.
Proof.
  eexists. split.
  - apply (author_relationship_found fourPapers (always 0)
             (paperOf "A" ["J. Smith"] 2020 9) (paperOf "C" ["j. smith"] 2020 1)
             "J. Smith" "j. smith").
    + vm_compute. now left.
    + simpl. auto.
    + discriminate.
    + now left.
    + now left.
    + reflexivity.
    + reflexivity.
  - repeat split.
Defined.

(** A venue relationship that is returned goes from a sampled paper to an
    input paper with another id; both have a venue, and the lower-cased,
    trimmed venue of the target is the lower-cased venue of the source.
    The strength is 0.4. *)
Theorem venue_relationships_same_venue (papers : list Paper) (s : Random.Source) :
  Forall (fun r =>
            relationshipType r = RelationshipType.venue ->
            exists paper otherPaper v ov,
              In paper (sampledPapers papers) /\ In otherPaper papers
              /\ id paper <> id otherPaper
              /\ truthyString (venue paper) = Some v
              /\ truthyString (venue otherPaper) = Some ov
              /\ normalized ov = Js.toLowerCase v
              /\ r = {| sourceId := id paper;
                        targetId := id otherPaper;
                        relationshipType := RelationshipType.venue;
                        strength := 0.4%float;
                        metadata :=
                          Some (Metadata.mk None None None None (Some true)) |})
         (fst (analyzeRelationships papers s)).
Proof.
  apply Forall_forall. intros r Hr Ht.
  apply analyzeRelationships_candidate, candidate_by_type in Hr. rewrite Ht in Hr.
  pose proof (proj1 (Forall_forall _ _)
                (findVenueRelationships_shape (sampledPapers papers)
                   (buildVenueIndex papers) s) r Hr)
    as [paper [other [v [Hp [Hv [Ho [Hne Er]]]]]]].
  rewrite buildVenueIndex_bucket in Ho. apply filter_In in Ho. destruct Ho as [Ho Hov].
  destruct (truthyString (venue other)) as [ov|] eqn:Eov; [|discriminate].
  apply String.eqb_eq in Hov.
  exists paper, other, v, ov. auto 10.
Qed.

(** A content relationship that is returned goes from a sampled paper to
    the id of another sampled paper. Its overlap count is at least 3: the
    count adds one for every keyword of the source and every input paper
    with the target id indexed under that keyword; so some keyword of the
    source is a keyword of an input paper with the target id. The strength
    is [min(0.8, count * 0.1)] and the metadata holds the first five
    keywords of the source. *)
Theorem content_relationships_overlap (papers : list Paper) (s : Random.Source) :
  Forall (fun r =>
            relationshipType r = RelationshipType.content ->
            exists paper,
              In paper (sampledPapers papers)
              /\ In (targetId r) (map id (sampledPapers papers))
              /\ id paper <> targetId r
              /\ (3 <= overlapCount paper (buildKeywordIndex papers) (targetId r))%nat
              /\ (exists keyword otherPaper,
                    In keyword (extractKeywords (paperText paper))
                    /\ In otherPaper papers /\ id otherPaper = targetId r
                    /\ In keyword (extractKeywords (paperText otherPaper)))
              /\ r = {| sourceId := id paper;
                        targetId := targetId r;
                        relationshipType := RelationshipType.content;
                        strength :=
                          Js.Math_min 0.8
                            (PrimFloat.mul
                               (Js.ofNat (overlapCount paper (buildKeywordIndex papers)
                                            (targetId r)))
                               0.1);
                        metadata :=
                          Some (Metadata.mk
                                  (Some (Js.slice (extractKeywords (paperText paper)) 0 5))
                                  None None None None) |})
         (fst (analyzeRelationships papers s)).
Proof.
  apply Forall_forall. intros r Hr Ht.
  apply analyzeRelationships_candidate, candidate_by_type in Hr. rewrite Ht in Hr.
  apply findContentRelationships_In in Hr.
  destruct Hr as [paper [Hp [Hx [H3 Er]]]].
  destruct (overlapCount_shared papers paper (targetId r) ltac:(lia))
    as [w [o [Hw [Ho [Eo [Hne Hwo]]]]]].
  exists paper. split; [exact Hp|]. split; [exact Hx|].
  split; [congruence|]. split; [exact H3|]. split; [|exact Er].
  exists w, o. auto.
Qed.

(** The content detector finds every pair it should: for a sampled paper
    and the id of a sampled paper with an overlap count of at least 3, the
    relationship is among the candidates. *)
Theorem content_relationship_found (papers : list Paper) (s : Random.Source)
    (paper : Paper) (otherId : string) :
  In paper (sampledPapers papers) ->
  In otherId (map id (sampledPapers papers)) ->
  (3 <= overlapCount paper (buildKeywordIndex papers) otherId)%nat ->
  In {| sourceId := id paper;
        targetId := otherId;
        relationshipType := RelationshipType.content;
        strength :=
          Js.Math_min 0.8
            (PrimFloat.mul (Js.ofNat (overlapCount paper (buildKeywordIndex papers) otherId))
                           0.1);
        metadata :=
          Some (Metadata.mk (Some (Js.slice (extractKeywords (paperText paper)) 0 5))
                            None None None None) |}
     (fst (candidateRelationships papers s)).
Proof.
  intros Hp Hx H3. rewrite candidateRelationships_run.
  apply in_or_app. right. apply in_or_app. right. apply in_or_app. left.
  apply findContentRelationships_In. exists paper. simpl. auto.
Qed.

(** Two papers with the keywords graph, neural, network and models. *)
Lemma content_relationship_found_witness :
  exists r,
    In r (fst (candidateRelationships graphPapers (always 0)))
    /\ sourceId r = "G1" /\ targetId r = "G2"
    /\ relationshipType r = RelationshipType.content.
Proof.
  eexists. split.
  - apply (content_relationship_found graphPapers (always 0)
             (titled "G1" "Graph neural network models") "G2").
    + vm_compute. now left.
    + vm_compute. auto.
    + vm_compute. lia.
  - repeat split.
Defined.

End DetectorExtras.

Module KeyFacts.
Import Vocabulary MoreVocabulary DedupFacts DedupMoreFacts RelationshipService.

(** A hyphen-free prefix is determined by the whole string. *)
Lemma dash_split a : forall a' r r',
  dashFree a = true -> dashFree a' = true ->
  (a ++ "-" ++ r)%string = (a' ++ "-" ++ r')%string -> a = a' /\ r = r'.
Proof.
  induction a as [|c t IH]; intros [|c' t'] r r' Ha Ha' E; simpl in *.
  - inversion E. auto.
  - inversion E; subst c'. discriminate.
  - inversion E; subst c. discriminate.
  - inversion E; subst c'.
    apply andb_prop in Ha, Ha'. destruct Ha as [_ Ha]. destruct Ha' as [_ Ha'].
    destruct (IH t' r r' Ha Ha' H1) as [E1 E2]. subst. auto.
Qed.

Lemma name_inj k k' : RelationshipType.name k = RelationshipType.name k' -> k = k'.
Proof. destruct k, k'; simpl; intros E; try reflexivity; discriminate. Qed.

Lemma relKey_inj a b k a' b' k' :
  dashFree a = true -> dashFree a' = true -> dashFree b = true -> dashFree b' = true ->
  relKey a b k = relKey a' b' k' -> a = a' /\ b = b' /\ k = k'.
Proof.
  unfold relKey. intros Ha Ha' Hb Hb' E.
  apply dash_split in E; [|assumption|assumption]. destruct E as [E1 E].
  apply dash_split in E; [|assumption|assumption]. destruct E as [E2 E].
  apply name_inj in E. auto.
Qed.

(** Every relationship is kept or has one of its keys taken. *)
Lemma deduplicateFrom_represents rels : forall seen r,
  In r rels ->
  (inStrings (key1 r) seen = true \/ inStrings (key2 r) seen = true)
  \/ exists r', In r' (deduplicateFrom seen rels)
                /\ (key1 r' = key1 r \/ key1 r' = key2 r).
Proof.
  induction rels as [|rel rest IH]; intros seen r Hr; [contradiction|].
  simpl. fold (key1 rel). fold (key2 rel).
  destruct Hr as [Hr|Hr].
  - subst rel. destruct (inStrings (key1 r) seen) eqn:E1; [now left; left|].
    destruct (inStrings (key2 r) seen) eqn:E2; [now left; right|].
    right. exists r. simpl. auto.
  - destruct (negb (inStrings (key1 rel) seen) && negb (inStrings (key2 rel) seen)).
    + destruct (IH (key1 rel :: seen) r Hr) as [[H|H]|[r' [H1 H2]]].
      * unfold inStrings in H. simpl in H. apply orb_prop in H. destruct H as [H|H].
        -- apply String.eqb_eq in H. right. exists rel. split; [now left | left; now symmetry].
        -- now left; left.
      * unfold inStrings in H. simpl in H. apply orb_prop in H. destruct H as [H|H].
        -- apply String.eqb_eq in H. right. exists rel. split; [now left | right; now symmetry].
        -- now left; right.
      * right. exists r'. split; [now right | exact H2].
    + destruct (IH seen r Hr) as [H|[r' [H1 H2]]]; [now left|].
      right. now exists r'.
Qed.

End KeyFacts.

Module DedupExtras.
Import Vocabulary MoreVocabulary DedupFacts DedupMoreFacts KeyFacts RelationshipService.

(** Deduplication loses no pair of endpoints: every relationship of the
    input has a kept relationship whose first key is one of its two keys;
    when no id contains a hyphen, the kept relationship joins the same two
    papers with the same type. *)
Theorem deduplicateRelationships_represents (relationships : list PaperRelationship) :
  (forall r, In r relationships ->
             exists r', In r' (deduplicateRelationships relationships)
                        /\ (key1 r' = key1 r \/ key1 r' = key2 r))
  /\ (Forall (fun r => dashFree (sourceId r) = true /\ dashFree (targetId r) = true)
             relationships ->
      forall r, In r relationships ->
                exists r', In r' (deduplicateRelationships relationships)
                           /\ sameEdge r' r).
Proof.
  assert (H : forall r, In r relationships ->
                exists r', In r' (deduplicateRelationships relationships)
                           /\ (key1 r' = key1 r \/ key1 r' = key2 r)).
  { intros r Hr.
    destruct (deduplicateFrom_represents relationships [] r Hr) as [[H|H]|H];
      [discriminate | discriminate | exact H]. }
  split; [exact H|]. intros Hd r Hr.
  destruct (H r Hr) as [r' [Hin Hk]]. exists r'. split; [exact Hin|].
  rewrite Forall_forall in Hd.
  destruct (Hd r Hr) as [Ds Dt].
  destruct (Hd r' (Subseq_In _ _ _ (deduplicateFrom_Subseq relationships []) Hin))
    as [Ds' Dt'].
  unfold key1, key2 in Hk. destruct Hk as [E|E]; apply relKey_inj in E; try assumption;
    destruct E as [E1 [E2 E3]]; split; auto.
Qed.

End DedupExtras.

Module StringFacts.

Lemma substring_0_length n : forall s, (String.length (substring 0 n s) <= n)%nat.
Proof.
  induction n as [|n IH]; intros [|c s]; simpl; try lia.
  specialize (IH s). lia.
Qed.

Lemma append_length s1 s2 :
  String.length (s1 ++ s2)%string = (String.length s1 + String.length s2)%nat.
Proof. induction s1 as [|c s1 IH]; simpl; [reflexivity|]. now rewrite IH. Qed.

(** The first [n] characters of a string that [a] starts, for [a] of at
    least [n] characters. *)
Lemma substring_0_append n : forall a b,
  (n <= String.length a)%nat -> substring 0 n (a ++ b)%string = substring 0 n a.
Proof.
  induction n as [|n IH]; intros [|c a] b H; simpl in *; try reflexivity; try lia.
  - now destruct b.
  - rewrite IH by lia. reflexivity.
Qed.

Lemma substring_0_nonempty n c s : substring 0 (S n) (String c s) <> EmptyString.
Proof. simpl. discriminate. Qed.

End StringFacts.

Module MapMFacts.
Import St StFacts.

Lemma mapM_length {S A B} (f : A -> M S B) l : forall s,
  List.length (fst (mapM f l s)) = List.length l.
Proof.
  induction l as [|x r IH]; intros s; simpl; [reflexivity|].
  rewrite !bind_run. simpl. now rewrite IH.
Qed.

Lemma mapM_Forall {S A B} (P : B -> Prop) (f : A -> M S B) l :
  (forall x s, In x l -> P (fst (f x s))) ->
  forall s, Forall P (fst (mapM f l s)).
Proof.
  induction l as [|x r IH]; intros H s; simpl; [constructor|].
  rewrite !bind_run. simpl. constructor.
  - apply H. now left.
  - apply IH. intros y s' Hy. apply H. now right.
Qed.

(** A loop whose body does not touch the state. *)
Lemma mapM_pure {S A B} (f : A -> M S B) (g : A -> B) l :
  (forall x s, In x l -> f x s = (g x, s)) ->
  forall s, mapM f l s = (map g l, s).
Proof.
  induction l as [|x r IH]; intros H s; simpl; [reflexivity|].
  rewrite bind_run, (H x s (or_introl eq_refl)). simpl.
  rewrite bind_run, (IH (fun y s' Hy => H y s' (or_intror Hy))). reflexivity.
Qed.

(** A loop whose body keeps an invariant of the state. *)
Lemma mapM_inv {S A B} (I : S -> Prop) (f : A -> M S B) l :
  (forall x s, I s -> I (snd (f x s))) ->
  forall s, I s -> I (snd (mapM f l s)).
Proof.
  intros H. induction l as [|x r IH]; intros s Hs; simpl; [exact Hs|].
  rewrite !bind_run. simpl. apply IH, H, Hs.
Qed.

End MapMFacts.

Module NodeFacts.
Import Vocabulary St StFacts JsFacts StringFacts MapMFacts DetectorFacts Research.

Lemma stringOr_nonempty s d : d <> EmptyString -> stringOr s d <> EmptyString.
Proof.
  intros Hd. unfold stringOr. destruct (String.eqb_spec s EmptyString); assumption.
Qed.

Lemma indexed_map_snd {A B} (f : A -> B) (l : list A) :
  map (fun e => f (snd e)) (RS.indexed l) = map f l.
Proof.
  unfold RS.indexed. generalize 0%nat. induction l as [|x r IH]; intros a; simpl;
    [reflexivity|]. now rewrite IH.
Qed.

End NodeFacts.

Module NodeExtras.
Import Vocabulary St StFacts JsFacts StringFacts MapMFacts DetectorFacts NodeFacts Research.

(** The nodes sent to the front end, for papers that have an [authors]
    array: one for every paper, in order, each with at most 3 authors, an
    abstract of at most 303 characters, and an id, a title, an abstract
    and a venue that are not empty; a year is never 0. When every paper
    has an id, the ids of the nodes are the ids of the papers and the clock
    is not read. Strings are sequences of ASCII characters here, for which
    [String.length] is the [length] of JavaScript. *)
Theorem optimizePapersForFrontend_nodes (papers : list RS.Paper) (clk : Clock.Source) :
  List.length (fst (optimizePapersForFrontend papers clk)) = List.length papers
  /\ Forall (fun node =>
               (List.length (authors node) <= 3)%nat
               /\ (String.length (abstract node) <= 303)%nat
               /\ id node <> EmptyString /\ title node <> EmptyString
               /\ abstract node <> EmptyString /\ venue node <> EmptyString
               /\ year node <> Some 0%Z)
            (fst (optimizePapersForFrontend papers clk))
  /\ (Forall (fun paper => RS.id paper <> EmptyString) papers ->
      map id (fst (optimizePapersForFrontend papers clk)) = map RS.id papers
      /\ snd (optimizePapersForFrontend papers clk) = clk).
Proof.
  unfold optimizePapersForFrontend. split; [|split].
  - rewrite mapM_length. unfold RS.indexed.
    rewrite length_combine, length_seq. lia.
  - apply mapM_Forall. intros [i paper] s _. rewrite bind_run. simpl.
    split; [|split; [|split; [|split; [|split; [|split]]]]].
    + apply (slice_nat_length _ 3).
    + unfold RS.truthyString. destruct (RS.abstract paper) as [a|]; [|simpl; lia].
      destruct (String.eqb a EmptyString); [simpl; lia|].
      rewrite append_length. pose proof (substring_0_length 300 a).
      destruct (300 <? String.length a)%nat; simpl; lia.
    + destruct (String.eqb_spec (RS.id paper) EmptyString) as [E|E].
      * rewrite bind_run. simpl. discriminate.
      * exact E.
    + apply stringOr_nonempty. discriminate.
    + unfold RS.truthyString. destruct (RS.abstract paper) as [a|]; [|discriminate].
      destruct (String.eqb_spec a EmptyString) as [E|E]; [discriminate|].
      destruct a as [|c a]; [contradiction|]. simpl. discriminate.
    + apply stringOr_nonempty. discriminate.
    + unfold RS.truthyNumber. destruct (RS.year paper) as [y|]; [|discriminate].
      destruct (Z.eqb_spec y 0); [discriminate|]. congruence.
  - intros Hids.
    rewrite (mapM_pure _ (fun entry : nat * RS.Paper =>
               let '(index, paper) := entry in
               {| id := RS.id paper;
                  title := stringOr (RS.title paper) "Untitled Paper";
                  authors := Js.slice (RS.authors paper) 0 3;
                  year := RS.truthyNumber (RS.year paper);
                  citationCount := RS.numberOr (RS.citationCount paper) 0;
                  abstract :=
                    match RS.truthyString (RS.abstract paper) with
                    | Some a => (substring 0 300 a
                                 ++ (if (300 <? String.length a)%nat
                                     then "..." else EmptyString))%string
                    | None => "No abstract available"
                    end;
                  venue := stringOr (RS.stringOrEmpty (RS.venue paper))
                                    "Unknown Venue" |})).
    + simpl. split; [|reflexivity]. rewrite map_map.
      rewrite <- (indexed_map_snd RS.id papers). apply map_ext. now intros [i paper].
    + intros [i paper] s Hin. rewrite bind_run.
      assert (Hp : In paper papers).
      { apply indexed_nth in Hin. eapply nth_error_In; eassumption. }
      rewrite Forall_forall in Hids. specialize (Hids paper Hp).
      destruct (String.eqb_spec (RS.id paper) EmptyString); [contradiction|]. reflexivity.
Qed.

End NodeExtras.

Module ConnectionFacts.
Import Vocabulary St StFacts JsFacts Research.

Ltac case_if :=
  match goal with
  | |- context [fst ((if ?c then _ else _) _)] => destruct c eqn:?
  | |- context [fst (if ?c then _ else _)] => destruct c eqn:?
  end.

Lemma maxConnections_nonneg n : (0 <= maxConnections n)%Z.
Proof. unfold maxConnections. lia. Qed.

(** The inner loop pushes only below the bound. *)
Lemma connectFrom_length n i paper1 rest : forall k connections s,
  (Z.of_nat (List.length connections) <= maxConnections n)%Z ->
  (Z.of_nat (List.length (fst (connectFrom n i paper1 rest k connections s)))
   <= maxConnections n)%Z.
Proof.
  induction rest as [|[j paper2] rest IH]; intros k connections s Hlen; [exact Hlen|].
  cbn [connectFrom]. cbv zeta.
  destruct (k <? maxConnectionsPerPaper n)%Z; cbn [andb]; [|exact Hlen].
  destruct (Z.ltb_spec (Z.of_nat (List.length connections)) (maxConnections n)) as [Hlt|_];
    [|exact Hlen].
  assert (Hpush : forall c,
            (Z.of_nat (List.length (connections ++ [c])) <= maxConnections n)%Z).
  { intros c. rewrite length_app. simpl. lia. }
  case_if; [now apply IH|].
  case_if; [now apply IH|].
  case_if; [now apply IH|].
  case_if; [|now apply IH].
  rewrite bind_run. cbn [Random.Math_random fst snd].
  case_if; now apply IH.
Qed.

Lemma connectAll_length n todo : forall connections s,
  (Z.of_nat (List.length connections) <= maxConnections n)%Z ->
  (Z.of_nat (List.length (fst (connectAll n todo connections s))) <= maxConnections n)%Z.
Proof.
  induction todo as [|[i paper1] rest IH]; intros connections s Hlen; simpl; [exact Hlen|].
  destruct (_ <? _)%Z; [|exact Hlen].
  rewrite bind_run. apply IH. now apply connectFrom_length.
Qed.

Section Kinds.
Variable Q : Connection -> Prop.
Variable I : Random.Source -> Prop.
Hypothesis Q_author : forall a b,
  Q {| source := a; target := b; type := "shared_author"; strength := 0.8%float |}.
Hypothesis Q_temporal : forall a b,
  Q {| source := a; target := b; type := "temporal_proximity"; strength := 0.4%float |}.
Hypothesis Q_title : forall a b m, (2 <= m)%nat ->
  Q {| source := a; target := b; type := "title_overlap";
       strength := Js.Math_min 0.7 (PrimFloat.mul (Js.ofNat m) 0.15) |}.
Hypothesis Q_random : forall a b s, I s -> PrimFloat.ltb (s 0%nat) 0.01 = true ->
  Q {| source := a; target := b; type := "random_link"; strength := 0.1%float |}.
Hypothesis I_tail : forall s, I s -> I (fun k => s (S k)).

Lemma connectFrom_kinds n i paper1 rest : forall k connections s,
  I s -> Forall Q connections ->
  Forall Q (fst (connectFrom n i paper1 rest k connections s))
  /\ I (snd (connectFrom n i paper1 rest k connections s)).
Proof.
  induction rest as [|[j paper2] rest IH]; intros k connections s Hs Hq; [now split|].
  cbn [connectFrom]. cbv zeta.
  match goal with
  | |- context [if ?c then _ else ret connections] => destruct c; [|now split]
  end.
  assert (Hpush : forall c, Q c -> Forall Q (connections ++ [c])).
  { intros c Hc. apply Forall_app. split; [exact Hq | now constructor]. }
  case_if; [apply IH; [exact Hs | apply Hpush, Q_author]|].
  case_if; [apply IH; [exact Hs | apply Hpush, Q_temporal]|].
  destruct (Nat.leb_spec 2 (List.length
              (filter (fun word => RS.inStrings word (titleWords paper2))
                      (titleWords paper1)))) as [H2|_];
    [apply IH; [exact Hs | now apply Hpush, Q_title]|].
  case_if; [|now apply IH].
  rewrite bind_run. cbn [Random.Math_random fst snd].
  destruct (PrimFloat.ltb (s 0%nat) 0.01) eqn:Hr; cbn [andb].
  - case_if.
    + apply IH; [now apply I_tail | eapply Hpush, Q_random; eassumption].
    + apply IH; [now apply I_tail | exact Hq].
  - apply IH; [now apply I_tail | exact Hq].
Qed.

Lemma connectAll_kinds n todo : forall connections s,
  I s -> Forall Q connections ->
  Forall Q (fst (connectAll n todo connections s)).
Proof.
  induction todo as [|[i paper1] rest IH]; intros connections s Hs Hq; simpl; [exact Hq|].
  destruct (_ <? _)%Z; [|exact Hq].
  rewrite bind_run.
  destruct (connectFrom_kinds n i paper1 rest 0 connections s Hs Hq) as [H1 H2].
  now apply IH.
Qed.

End Kinds.

End ConnectionFacts.

Module ConnectionExtras.
Import Vocabulary St StFacts JsFacts ConnectionFacts Research.

(** The additional connections are at most [min(1000, 2 * papers.length)].
    Each is a shared_author link of strength 0.8, a temporal_proximity
    link of strength 0.4, a title_overlap link of strength
    [min(0.7, n * 0.15)] for [n >= 2] common words, or a random_link of
    strength 0.1; a random_link needs a draw below 0.01. *)
Theorem generateGraphConnections_bounded (papers : list RS.Paper) (s : Random.Source) :
  (Z.of_nat (List.length (fst (generateGraphConnections papers s)))
   <= Z.min 1000 (Z.of_nat (List.length papers) * 2))%Z
  /\ Forall (fun c =>
               (type c = "shared_author" /\ strength c = 0.8%float)
               \/ (type c = "temporal_proximity" /\ strength c = 0.4%float)
               \/ (type c = "title_overlap"
                   /\ exists n, (2 <= n)%nat
                                /\ strength c
                                   = Js.Math_min 0.7 (PrimFloat.mul (Js.ofNat n) 0.15))
               \/ (type c = "random_link" /\ strength c = 0.1%float))
            (fst (generateGraphConnections papers s))
  /\ ((forall k, PrimFloat.ltb (s k) 0.01 = false) ->
      Forall (fun c => type c <> "random_link")
             (fst (generateGraphConnections papers s))).
Proof.
  unfold generateGraphConnections. split; [|split].
  - apply connectAll_length. simpl. apply maxConnections_nonneg.
  - apply (connectAll_kinds _ (fun _ => True)); try (intros; exact Logic.I).
    + intros a b. left. split; reflexivity.
    + intros a b. right; left. split; reflexivity.
    + intros a b m Hm. right; right; left. split; [reflexivity|]. now exists m.
    + intros a b s' _ _. right; right; right. split; reflexivity.
    + constructor.
  - intros Hs.
    apply (connectAll_kinds _ (fun s => forall k, PrimFloat.ltb (s k) 0.01 = false)).
    + discriminate.
    + discriminate.
    + discriminate.
    + intros a b s' Hs' Hr. rewrite Hs' in Hr. discriminate.
    + intros s' Hs' k. apply Hs'.
    + exact Hs.
    + constructor.
Qed.

End ConnectionExtras.

Module HandlerFacts.
Import Vocabulary St StFacts JsFacts StringFacts MapMFacts CacheFacts CacheOps CacheOpsFacts.
Import PipelineFacts ConnectionFacts RouteFacts Research.

Lemma usingRandom_run {A} (c : Random.Rand A) w :
  usingRandom c w
  = (fst (c (randoms w)),
     {| randoms := snd (c (randoms w)); clock := clock w; graphCache := graphCache w |}).
Proof. unfold usingRandom. now destruct (c (randoms w)). Qed.

Lemma usingClock_run {A} (c : M Clock.Source A) w :
  usingClock c w
  = (fst (c (clock w)),
     {| randoms := randoms w; clock := snd (c (clock w)); graphCache := graphCache w |}).
Proof. unfold usingClock. now destruct (c (clock w)). Qed.

Lemma onGraphCache_run {A}
    (f : InstantCache.t ResponseBody -> M Clock.Source (A * InstantCache.t ResponseBody)) w :
  onGraphCache f w
  = (fst (fst (f (graphCache w) (clock w))),
     {| randoms := randoms w;
        clock := snd (f (graphCache w) (clock w));
        graphCache := snd (fst (f (graphCache w) (clock w))) |}).
Proof.
  unfold onGraphCache. destruct (f (graphCache w) (clock w)) as [[a c] k]. reflexivity.
Qed.

(** The response of a fresh build and the world after it. *)
Lemma buildAndCache_run cacheKey currentTopic papers w :
  let limitedPapers := Js.slice papers 0 500 in
  let ra := RS.analyzeRelationships limitedPapers (randoms w) in
  let rb := generateGraphConnections limitedPapers (snd ra) in
  let rc := optimizePapersForFrontend limitedPapers (clock w) in
  let allConnections := map toConnection (fst ra) ++ fst rb in
  let responseData :=
    {| success := true;
       message := ("Knowledge graph built with "
                     ++ Js.numberToString (Z.of_nat (List.length limitedPapers))
                     ++ " nodes and "
                     ++ Js.numberToString (Z.of_nat (List.length allConnections))
                     ++ " connections")%string;
       data := {| topic := currentTopic;
                  relationshipsFromService := fst ra;
                  graphNodes := fst rc;
                  graphEdges := allConnections;
                  databaseStored := true;
                  totalPapersProvided := Z.of_nat (List.length papers);
                  papersInGraph := Z.of_nat (List.length limitedPapers);
                  cached := false |} |} in
  buildAndCache cacheKey currentTopic papers w
  = (Status200 responseData,
     {| randoms := snd rb;
        clock := snd (InstantCache.set cacheKey responseData 60 (graphCache w) (snd rc));
        graphCache :=
          fst (InstantCache.set cacheKey responseData 60 (graphCache w) (snd rc)) |}).
Proof.
  cbv zeta. unfold buildAndCache. cbv zeta.
  rewrite bind_run, usingRandom_run. cbn [fst snd].
  rewrite bind_run, usingRandom_run. cbn [fst snd randoms clock graphCache].
  rewrite bind_run, usingClock_run. cbn [fst snd randoms clock graphCache].
  rewrite bind_run, onGraphCache_run. cbn [fst snd randoms clock graphCache].
  rewrite bind_run. reflexivity.
Qed.

Lemma slice_500_length {A} (l : list A) :
  Z.of_nat (List.length (Js.slice l 0 500)) = Z.min 500 (Z.of_nat (List.length l)).
Proof.
  rewrite slice_from_0 by lia. rewrite length_firstn. lia.
Qed.

Lemma optimizePapersForFrontend_length papers clk :
  List.length (fst (optimizePapersForFrontend papers clk)) = List.length papers.
Proof.
  unfold optimizePapersForFrontend. rewrite mapM_length. unfold RS.indexed.
  rewrite length_combine, length_seq. lia.
Qed.

Lemma append_assoc (a b c : string) : ((a ++ b) ++ c)%string = (a ++ b ++ c)%string.
Proof. induction a as [|x a IH]; simpl; [reflexivity|]. now rewrite IH. Qed.

(** The key of a long topic is cut inside the topic. *)
Lemma graphCacheKey_long currentTopic papers :
  (93 <= String.length currentTopic)%nat ->
  graphCacheKey currentTopic papers
  = substring 0 100 ("graph_" ++ currentTopic ++ "_")%string.
Proof.
  intros H. unfold graphCacheKey, Js.strSlice0.
  replace ("graph_" ++ currentTopic ++ "_"
             ++ Js.join "_" (Js.sort Js.defaultGt (map RS.id papers)))%string
    with (("graph_" ++ currentTopic ++ "_")
            ++ Js.join "_" (Js.sort Js.defaultGt (map RS.id papers)))%string.
  - apply substring_0_append. rewrite !append_length.
    change (String.length "graph_") with 6%nat. change (String.length "_") with 1%nat. lia.
  - now rewrite !append_assoc.
Qed.

(** A fresh build leaves its response in the cache. *)
Lemma fresh_build_stored p ps T w body1 w1 :
  buildKnowledgeGraph {| papers := Some (p :: ps); requestTopic := T |} w
  = (Status200 body1, w1) ->
  cached (data body1) = false ->
  exists ts,
    Js.get String.eqb (graphCacheKey (currentTopicOf T) (p :: ps))
           (InstantCache.cache (graphCache w1))
    = Some {| InstantCache.data := body1; InstantCache.timestamp := ts;
              InstantCache.ttl := 60 * 60 * 1000 |}.
Proof.
  intros H Hc. unfold buildKnowledgeGraph in H.
  cbn [Research.papers Research.requestTopic] in H. cbv zeta in H.
  rewrite bind_run in H.
  destruct (fst (onGraphCache (InstantCache.get _) w)) as [cachedBody|].
  - inversion H; subst. discriminate.
  - destruct (buildAndCache_stores (graphCacheKey (currentTopicOf T) (p :: ps))
                (currentTopicOf T) (p :: ps)
                (snd (onGraphCache
                        (InstantCache.get (graphCacheKey (currentTopicOf T) (p :: ps))) w)))
      as [body [w' [ts [Hrun [_ Hget]]]]].
    rewrite Hrun in H. inversion H; subst. now exists ts.
Qed.

End HandlerFacts.

Module HandlerExtras.
Import Vocabulary MoreVocabulary Examples MoreExamples RouteExamples CacheExamples.
Import St StFacts JsFacts StringFacts MapMFacts CacheFacts CacheOps CacheOpsFacts.
Import PipelineFacts ConnectionFacts RouteFacts HandlerFacts Research.

(** A graph that was built, not taken from the cache: the request had a
    non-empty paper list; the graph has the first 500 papers as nodes, at
    most 200 relationships from the service, and as edges these
    relationships followed by at most [min(1000, 2 * nodes)] additional
    connections, so at most 1200 edges. *)
Theorem fresh_graph_shape (request : RequestBody) (w w1 : World) (body : ResponseBody) :
  buildKnowledgeGraph request w = (Status200 body, w1) ->
  cached (data body) = false ->
  exists p ps additionalConnections,
    papers request = Some (p :: ps)
    /\ success body = true
    /\ topic (data body) = currentTopicOf (requestTopic request)
    /\ totalPapersProvided (data body) = Z.of_nat (List.length (p :: ps))
    /\ papersInGraph (data body) = Z.min 500 (totalPapersProvided (data body))
    /\ Z.of_nat (List.length (graphNodes (data body))) = papersInGraph (data body)
    /\ (List.length (relationshipsFromService (data body)) <= 200)%nat
    /\ graphEdges (data body)
       = map toConnection (relationshipsFromService (data body)) ++ additionalConnections
    /\ (Z.of_nat (List.length additionalConnections)
        <= Z.min 1000 (papersInGraph (data body) * 2))%Z
    /\ (List.length (graphEdges (data body)) <= 1200)%nat.
Proof.
  intros H Hc. unfold buildKnowledgeGraph in H.
  destruct (papers request) as [[|p ps]|]; [discriminate| |discriminate].
  cbv zeta in H. rewrite bind_run in H.
  destruct (fst (onGraphCache (InstantCache.get _) w)) as [cachedBody|].
  - inversion H; subst. discriminate.
  - rewrite buildAndCache_run in H. injection H as Hbody _. subst body. clear Hc.
    cbn [data success topic totalPapersProvided papersInGraph graphNodes
         relationshipsFromService graphEdges].
    set (limited := Js.slice (p :: ps) 0 500).
    set (w' := snd (onGraphCache _ w)).
    assert (Hl : Z.of_nat (List.length limited)
                 = Z.min 500 (Z.of_nat (List.length (p :: ps)))) by apply slice_500_length.
    assert (Hr : (List.length (fst (RS.analyzeRelationships limited (randoms w'))) <= 200)%nat).
    { rewrite analyzeRelationships_run. apply (slice_from_0_length _ 200). lia. }
    assert (He : (Z.of_nat (List.length
                    (fst (generateGraphConnections limited
                            (snd (RS.analyzeRelationships limited (randoms w'))))))
                  <= Z.min 1000 (Z.of_nat (List.length limited) * 2))%Z).
    { apply connectAll_length. simpl. apply maxConnections_nonneg. }
    exists p, ps. eexists.
    split; [reflexivity|]. split; [reflexivity|]. split; [reflexivity|].
    split; [reflexivity|]. split; [exact Hl|].
    split; [now rewrite optimizePapersForFrontend_length|].
    split; [exact Hr|]. split; [reflexivity|]. split; [exact He|].
    rewrite length_app, length_map. lia.
Qed.

(** The four example papers on a fresh process. *)
Lemma fresh_graph_shape_witness :
  exists body w1,
    buildKnowledgeGraph fourPaperRequest freshWorld = (Status200 body, w1)
    /\ cached (data body) = false
    /\ papersInGraph (data body) = 4%Z
    /\ (List.length (graphEdges (data body)) <= 1200)%nat.
Proof.
  eexists. eexists.
  eassert (H : buildKnowledgeGraph fourPaperRequest freshWorld = (Status200 _, _))
    by (vm_compute; reflexivity).
  split; [exact H|]. split; [reflexivity|].
  destruct (fresh_graph_shape _ _ _ _ H eq_refl)
    as [p [ps [extra [_ [_ [_ [Ht [Hp [_ [_ [_ [_ He]]]]]]]]]]]].
  split; [|exact He]. reflexivity.
Defined.

(** The cache key is at most 100 characters long, and a topic of 93
    characters or more fills it: then the key is the same for every paper
    list. *)
Theorem graphCacheKey_prefix (currentTopic : string) (papers : list RS.Paper) :
  (String.length (graphCacheKey currentTopic papers) <= 100)%nat
  /\ ((93 <= String.length currentTopic)%nat ->
      forall others, graphCacheKey currentTopic others = graphCacheKey currentTopic papers).
Proof.
  split; [apply substring_0_length|].
  intros H others. now rewrite !graphCacheKey_long.
Qed.

(** Two requests with the same cache key share one graph: after a fresh
    build for the first request, the cache holds its response under the
    key, and the second request, made before the entry expires, is
    answered with the response of the first marked as cached: the nodes,
    the edges, the relationships of the service and the other fields of
    the answer are those of the first response, and [cached] is [true]. *)
Theorem same_key_serves_cached_graph (p q : RS.Paper) (ps qs : list RS.Paper)
    (T U : option string) (w w1 : World) (body1 : ResponseBody) :
  graphCacheKey (currentTopicOf T) (p :: ps) = graphCacheKey (currentTopicOf U) (q :: qs) ->
  buildKnowledgeGraph {| papers := Some (p :: ps); requestTopic := T |} w
  = (Status200 body1, w1) ->
  cached (data body1) = false ->
  exists item,
    Js.get String.eqb (graphCacheKey (currentTopicOf U) (q :: qs))
           (InstantCache.cache (graphCache w1)) = Some item
    /\ InstantCache.data item = body1
    /\ InstantCache.ttl item = (60 * 60 * 1000)%Z
    /\ (InstantCache.expired (clock w1 0%nat) item = false ->
        exists body2,
          buildKnowledgeGraph {| papers := Some (q :: qs); requestTopic := U |} w1
          = (Status200 body2, afterRead w1)
          /\ body2 = markCached body1
          /\ graphNodes (data body2) = graphNodes (data body1)
          /\ graphEdges (data body2) = graphEdges (data body1)
          /\ relationshipsFromService (data body2) = relationshipsFromService (data body1)
          /\ topic (data body2) = topic (data body1)
          /\ totalPapersProvided (data body2) = totalPapersProvided (data body1)
          /\ papersInGraph (data body2) = papersInGraph (data body1)
          /\ databaseStored (data body2) = databaseStored (data body1)
          /\ success body2 = success body1 /\ message body2 = message body1
          /\ cached (data body2) = true).
Proof.
  intros Hk H Hc. destruct (fresh_build_stored p ps T w body1 w1 H Hc) as [ts Hg].
  rewrite Hk in Hg. eexists. split; [exact Hg|]. split; [reflexivity|].
  split; [reflexivity|]. intros He.
  exists (markCached body1).
  split; [exact (buildKnowledgeGraph_hit q qs U w1 _ Hg He)|].
  repeat split.
Qed.

(** On a fresh process, a request with the long topic and the four example
    papers, then one with the same topic and the two twins: the twins get
    the nodes and edges of the four papers. *)
Lemma same_key_serves_cached_graph_witness :
  exists body1 w1 body2,
    buildKnowledgeGraph (longTopicRequest fourPapers) freshWorld = (Status200 body1, w1)
    /\ cached (data body1) = false
    /\ buildKnowledgeGraph (longTopicRequest twins) w1 = (Status200 body2, afterRead w1)
    /\ graphNodes (data body2) = graphNodes (data body1)
    /\ graphEdges (data body2) = graphEdges (data body1)
    /\ cached (data body2) = true.
Proof.
  eexists. eexists.
  eassert (H : buildKnowledgeGraph (longTopicRequest fourPapers) freshWorld
               = (Status200 _, _))
    by (vm_compute; reflexivity).
  assert (Hk : graphCacheKey (currentTopicOf (Some longTopic)) fourPapers
               = graphCacheKey (currentTopicOf (Some longTopic)) twins)
    by (vm_compute; reflexivity).
  destruct (same_key_serves_cached_graph _ _ _ _ _ _ _ _ _ Hk H eq_refl)
    as [item [Hg [Hd [Ht Hagain]]]].
  destruct Hagain as [body2 [H2 [_ [Hn [He [_ [_ [_ [_ [_ [_ [_ Hcached]]]]]]]]]]]].
  { vm_compute in Hg. inversion Hg as [Hitem]. reflexivity. }
  exists body2. split; [exact H|]. split; [reflexivity|]. auto.
Defined.

End HandlerExtras.

Module OrderFacts.
Import Vocabulary JsFacts.

Lemma compare_refl s : String.compare s s = Eq.
Proof.
  induction s as [|c s IH]; simpl; [reflexivity|].
  unfold Ascii.compare. now rewrite N.compare_refl.
Qed.

Lemma compare_lt_trans a : forall b c,
  String.compare a b = Lt -> String.compare b c = Lt -> String.compare a c = Lt.
Proof.
  induction a as [|x a IH]; intros [|y b] [|z c]; simpl; try discriminate; auto.
  destruct (Ascii.compare x y) eqn:Hxy; try discriminate;
    destruct (Ascii.compare y z) eqn:Hyz; try discriminate; intros H1 H2.
  - apply Ascii.compare_eq_iff in Hxy, Hyz. subst y z.
    unfold Ascii.compare. rewrite N.compare_refl. now apply (IH b c).
  - apply Ascii.compare_eq_iff in Hxy. subst y. now rewrite Hyz.
  - apply Ascii.compare_eq_iff in Hyz. subst z. now rewrite Hxy.
  - unfold Ascii.compare in *. rewrite N.compare_lt_iff in Hxy, Hyz.
    assert (H : (N_of_ascii x ?= N_of_ascii z)%N = Lt) by (apply N.compare_lt_iff; lia).
    now rewrite H.
Qed.

(** [a] does not come after [b] in the order of the default sort. *)
Lemma defaultGt_false a b :
  Js.defaultGt a b = false <-> String.compare a b <> Gt.
Proof.
  unfold Js.defaultGt, String.ltb. rewrite (String.compare_antisym a b).
  destruct (String.compare b a); simpl; split; intros H; try reflexivity;
    try discriminate; congruence.
Qed.

Lemma defaultGt_trans a b c :
  Js.defaultGt a b = false -> Js.defaultGt b c = false -> Js.defaultGt a c = false.
Proof.
  rewrite !defaultGt_false. intros H1 H2 H3.
  rewrite String.compare_antisym in H3.
  destruct (String.compare c a) eqn:Hca; try discriminate. clear H3.
  destruct (String.compare a b) eqn:Hab; [| |congruence].
  - apply String.compare_eq_iff in Hab. subst b.
    rewrite String.compare_antisym, Hca in H2. simpl in H2. congruence.
  - pose proof (compare_lt_trans _ _ _ Hca Hab) as Hcb.
    rewrite String.compare_antisym, Hcb in H2. simpl in H2. congruence.
Qed.

Lemma defaultGt_antisym a b :
  Js.defaultGt a b = false -> Js.defaultGt b a = false -> a = b.
Proof.
  rewrite !defaultGt_false. intros H1 H2.
  rewrite String.compare_antisym in H2.
  destruct (String.compare a b) eqn:E; simpl in H2; try congruence.
  now apply String.compare_eq_iff.
Qed.

Lemma defaultGt_true a b : Js.defaultGt a b = true -> Js.defaultGt b a = false.
Proof.
  unfold Js.defaultGt, String.ltb. rewrite (String.compare_antisym a b).
  destruct (String.compare b a); simpl; intros H; try discriminate; reflexivity.
Qed.

Lemma insert_default_sorted x l :
  StronglySorted (fun a b => Js.defaultGt a b = false) l ->
  StronglySorted (fun a b => Js.defaultGt a b = false) (Js.insert Js.defaultGt x l).
Proof.
  induction 1 as [|y r Hr IH Hy]; simpl.
  - repeat constructor.
  - destruct (Js.defaultGt x y) eqn:E.
    + constructor; [exact IH|].
      apply Forall_forall. intros z Hz.
      apply (Permutation_in _ (insert_perm Js.defaultGt x r)) in Hz.
      destruct Hz as [Hz|Hz].
      * subst z. now apply defaultGt_true.
      * rewrite Forall_forall in Hy. now apply Hy.
    + constructor; [now constructor|]. constructor; [exact E|].
      eapply Forall_impl; [|exact Hy]. intros z Hz. simpl in Hz.
      eapply defaultGt_trans; eassumption.
Qed.

Lemma sort_default_sorted l :
  StronglySorted (fun a b => Js.defaultGt a b = false) (Js.sort Js.defaultGt l).
Proof.
  induction l as [|x r IH]; simpl; [constructor|]. now apply insert_default_sorted.
Qed.

(** Two sorted lists with the same elements are equal. *)
Lemma sorted_unique l1 : forall l2,
  StronglySorted (fun a b => Js.defaultGt a b = false) l1 ->
  StronglySorted (fun a b => Js.defaultGt a b = false) l2 ->
  Permutation l1 l2 -> l1 = l2.
Proof.
  induction l1 as [|x r IH]; intros l2 H1 H2 Hp.
  - apply Permutation_nil in Hp. now subst.
  - destruct l2 as [|y r2]; [apply Permutation_sym, Permutation_nil in Hp; discriminate|].
    inversion H1 as [|? ? Hr1 Hx]; subst. inversion H2 as [|? ? Hr2 Hy]; subst.
    rewrite Forall_forall in Hx, Hy.
    assert (E : x = y).
    { assert (Hyin : In y (x :: r)).
      { apply (Permutation_in _ (Permutation_sym Hp)). now left. }
      assert (Hxin : In x (y :: r2)).
      { apply (Permutation_in _ Hp). now left. }
      destruct Hyin as [E|Hyin]; [exact E|].
      destruct Hxin as [E|Hxin]; [now symmetry|].
      apply defaultGt_antisym; [now apply Hx | now apply Hy]. }
    subst y. f_equal. apply IH; try assumption.
    now apply Permutation_cons_inv in Hp.
Qed.

Lemma sort_default_perm l1 l2 :
  Permutation l1 l2 -> Js.sort Js.defaultGt l1 = Js.sort Js.defaultGt l2.
Proof.
  intros Hp. apply sorted_unique; try apply sort_default_sorted.
  rewrite (sort_perm Js.defaultGt l1), (sort_perm Js.defaultGt l2). exact Hp.
Qed.

End OrderFacts.

Module KeyExtras.
Import Vocabulary Examples JsFacts OrderFacts Research.

(** The cache key does not depend on the order of the papers: two paper
    lists with the same ids, in any order, have the same key for a
    topic. *)
Theorem graphCacheKey_ignores_order (currentTopic : string) (papers others : list RS.Paper) :
  Permutation (map RS.id papers) (map RS.id others) ->
  graphCacheKey currentTopic papers = graphCacheKey currentTopic others.
Proof.
  intros Hp. unfold graphCacheKey. now rewrite (sort_default_perm _ _ Hp).
Qed.

(** The four example papers, and the same papers in reverse order. *)
Lemma graphCacheKey_ignores_order_witness :
  graphCacheKey "graphs" fourPapers = graphCacheKey "graphs" (rev fourPapers).
Proof.
  apply graphCacheKey_ignores_order.
  rewrite map_rev. apply Permutation_rev.
Defined.

End KeyExtras.

Module FloatFacts.
Import SpecFloat FloatAxioms FloatOps MoreVocabulary.

Lemma shr_1_nonneg mrs : (0 <= shr_m mrs)%Z -> (0 <= shr_m (shr_1 mrs))%Z.
Proof.
  destruct mrs as [m r s]. simpl. intros H.
  destruct m as [|p|p]; [simpl; lia | destruct p; simpl; lia | lia].
Qed.

Lemma iter_shr_1_nonneg p : forall mrs,
  (0 <= shr_m mrs)%Z -> (0 <= shr_m (iter_pos shr_1 p mrs))%Z.
Proof.
  induction p as [p IH|p IH|]; intros mrs H; simpl.
  - apply IH, IH, shr_1_nonneg, H.
  - apply IH, IH, H.
  - apply shr_1_nonneg, H.
Qed.

Lemma shr_fexp_nonneg m e l :
  (0 <= m)%Z -> (0 <= shr_m (fst (shr_fexp prec emax m e l)))%Z.
Proof.
  intros H. unfold shr_fexp, shr.
  assert (H0 : (0 <= shr_m (shr_record_of_loc m l))%Z).
  { destruct l as [|[| |]]; exact H. }
  destruct (fexp prec emax (Zdigits2 m + e) - e)%Z; simpl; try exact H0.
  now apply iter_shr_1_nonneg.
Qed.

Lemma round_nearest_even_nonneg m l :
  (0 <= m)%Z -> (0 <= round_nearest_even m l)%Z.
Proof.
  intros H. unfold round_nearest_even.
  destruct l as [|[| |]]; try exact H.
  - destruct (IntDef.Z.even m); [exact H|]. destruct m; simpl; lia.
  - destruct m; simpl; lia.
Qed.

Lemma binary_round_aux_nonneg mx ex lx :
  (0 <= mx)%Z -> nonNegative (binary_round_aux prec emax false mx ex lx).
Proof.
  intros H. unfold nonNegative, binary_round_aux.
  pose proof (shr_fexp_nonneg mx ex lx H) as H1.
  destruct (shr_fexp prec emax mx ex lx) as [mrs' e']. simpl in H1.
  pose proof (shr_fexp_nonneg _ e' loc_Exact
                (round_nearest_even_nonneg _ (loc_of_shr_record mrs') H1)) as H2.
  destruct (shr_fexp prec emax _ e' loc_Exact) as [mrs'' e'']. simpl in H2.
  destruct (shr_m mrs'') as [|m|m]; simpl; [reflexivity| |lia].
  destruct (e'' <=? _)%Z; exact eq_refl.
Qed.

Lemma ofNat_nonneg n : nonNegative (Prim2SF (Js.ofNat n)).
Proof.
  unfold Js.ofNat. rewrite of_uint63_spec. unfold binary_normalize.
  pose proof (Uint63.to_Z_bounded (Uint63.of_Z (Z.of_nat n))) as Hb.
  destruct (Uint63.to_Z (Uint63.of_Z (Z.of_nat n))) as [|m|m]; [exact eq_refl| |lia].
  unfold binary_round.
  destruct (shl_align m 0 (fexp prec emax (Z.pos (digits2_pos m) + 0))) as [mz ez].
  clear Hb. apply binary_round_aux_nonneg, Pos2Z.is_nonneg.
Qed.

Lemma mul_nonneg x y m e :
  nonNegative (Prim2SF x) -> Prim2SF y = S754_finite false m e ->
  nonNegative (Prim2SF (x * y)).
Proof.
  intros Hx Hy. rewrite mul_spec, Hy. unfold SF64mul, SFmul.
  destruct (Prim2SF x) as [s|s| |s mx ex]; unfold nonNegative in Hx; try contradiction;
    subst s; simpl; try exact eq_refl.
  apply binary_round_aux_nonneg, Pos2Z.is_nonneg.
Qed.

Lemma nonNegative_number x : nonNegative (Prim2SF x) -> Js.isNaN x = false.
Proof.
  intros H. unfold Js.isNaN. rewrite eqb_spec. unfold SFeqb.
  destruct (Prim2SF x) as [s|s| |s m e]; unfold nonNegative in H; try contradiction;
    subst; simpl; try reflexivity.
  rewrite Z.compare_refl.
  change (PosDef.Pos.compare_cont Eq m m) with (Pos.compare m m).
  now rewrite Pos.compare_refl.
Qed.

Lemma zero_leb x : nonNegative (Prim2SF x) -> PrimFloat.leb 0 x = true.
Proof.
  intros H. rewrite leb_spec. change (Prim2SF 0) with (S754_zero false).
  destruct (Prim2SF x) as [s|s| |s m e]; unfold nonNegative in H; try contradiction;
    subst; reflexivity.
Qed.

(** A number that is not above a positive bound is not above a larger
    one. *)
Lemma not_above c b x mc ec mb eb :
  Prim2SF c = S754_finite false mc ec -> Prim2SF b = S754_finite false mb eb ->
  (ec < eb)%Z \/ (ec = eb /\ (mc <= mb)%positive) ->
  nonNegative (Prim2SF x) ->
  PrimFloat.ltb c x = false -> PrimFloat.leb x b = true.
Proof.
  intros Hc Hb Hcb Hx Hlt. rewrite ltb_spec, Hc in Hlt. rewrite leb_spec, Hb.
  unfold SFltb in Hlt. unfold SFleb.
  destruct (Prim2SF x) as [s|s| |s m e]; unfold nonNegative in Hx; try contradiction;
    subst s; simpl in *; try reflexivity; try discriminate.
  change (PosDef.Pos.compare_cont Eq mc m) with (Pos.compare mc m) in Hlt.
  change (PosDef.Pos.compare_cont Eq m mb) with (Pos.compare m mb).
  destruct (Z.compare_spec ec e) as [E|E|E]; try discriminate.
  - subst e. destruct (Pos.compare_spec mc m) as [E'|E'|E']; try discriminate.
    + subst m. destruct Hcb as [Hcb|[Hcb Hm]].
      * destruct (Z.compare_spec ec eb); try lia; reflexivity.
      * subst eb. rewrite Z.compare_refl.
        destruct (Pos.compare_spec mc mb); try lia; reflexivity.
    + destruct Hcb as [Hcb|[Hcb Hm]].
      * destruct (Z.compare_spec ec eb); try lia; reflexivity.
      * subst eb. rewrite Z.compare_refl.
        destruct (Pos.compare_spec m mb); try lia; reflexivity.
  - destruct (Z.compare_spec e eb); try lia; reflexivity.
Qed.

(** [Math.min(c, x)] for a positive constant [c] and a number [x] that is
    not negative lies between 0 and every bound from [c] on. *)
Lemma Math_min_bounds c b x mc ec mb eb :
  Prim2SF c = S754_finite false mc ec -> Prim2SF b = S754_finite false mb eb ->
  (ec < eb)%Z \/ (ec = eb /\ (mc <= mb)%positive) ->
  nonNegative (Prim2SF x) ->
  PrimFloat.leb 0 (Js.Math_min c x) = true /\ PrimFloat.leb (Js.Math_min c x) b = true.
Proof.
  intros Hc Hb Hcb Hx.
  assert (Hcn : nonNegative (Prim2SF c)) by (rewrite Hc; exact eq_refl).
  unfold Js.Math_min.
  rewrite (nonNegative_number c Hcn), (nonNegative_number x Hx). simpl.
  assert (Hcc : PrimFloat.leb c b = true).
  { apply (not_above c b c mc ec mb eb Hc Hb Hcb Hcn).
    rewrite ltb_spec, Hc. unfold SFltb. simpl. rewrite Z.compare_refl.
    change (PosDef.Pos.compare_cont Eq mc mc) with (Pos.compare mc mc).
    now rewrite Pos.compare_refl. }
  destruct (PrimFloat.ltb c x) eqn:E1.
  - split; [now apply zero_leb | exact Hcc].
  - pose proof (not_above c b x mc ec mb eb Hc Hb Hcb Hx E1) as Hxb.
    destruct (PrimFloat.ltb x c).
    + split; [now apply zero_leb | exact Hxb].
    + destruct (PrimFloat.is_zero c && PrimFloat.get_sign c).
      * split; [now apply zero_leb | exact Hcc].
      * split; [now apply zero_leb | exact Hxb].
Qed.

End FloatFacts.

Module StrengthExtras.
Import SpecFloat FloatAxioms FloatOps Vocabulary MoreVocabulary FloatFacts StrengthFacts.
Import RelationshipService.

(** The strength of every returned relationship is a number between 0 and
    0.9, so between 0 and 1. *)
Theorem strength_within_bounds (papers : list Paper) (s : Random.Source) :
  Forall (fun r => PrimFloat.leb 0 (strength r) = true
                   /\ PrimFloat.leb (strength r) 0.9 = true
                   /\ PrimFloat.leb (strength r) 1 = true)
         (fst (analyzeRelationships papers s)).
Proof.
  eapply Forall_impl; [|apply returned_strength]. intros r Hr. simpl in Hr.
  assert (H9 : Prim2SF 0.9 = S754_finite false 8106479329266893 (-53)) by reflexivity.
  assert (H8 : Prim2SF 0.8 = S754_finite false 7205759403792794 (-53)) by reflexivity.
  assert (H1 : Prim2SF 1 = S754_finite false 4503599627370496 (-52)) by reflexivity.
  assert (H3 : Prim2SF 0.3 = S754_finite false 5404319552844595 (-54)) by reflexivity.
  assert (H01 : Prim2SF 0.1 = S754_finite false 7205759403792794 (-56)) by reflexivity.
  destruct (relationshipType r).
  - rewrite Hr. repeat split; reflexivity.
  - destruct Hr as [n [_ Hr]]. rewrite Hr.
    pose proof (mul_nonneg _ _ _ _ (ofNat_nonneg n) H01) as Hx.
    destruct (Math_min_bounds 0.8 0.9 _ _ _ _ _ H8 H9 ltac:(right; split; lia) Hx) as [A B].
    destruct (Math_min_bounds 0.8 1 _ _ _ _ _ H8 H1 ltac:(left; lia) Hx) as [_ C].
    auto.
  - destruct Hr as [n [_ Hr]]. rewrite Hr.
    pose proof (mul_nonneg _ _ _ _ (ofNat_nonneg n) H3) as Hx.
    destruct (Math_min_bounds 0.9 0.9 _ _ _ _ _ H9 H9 ltac:(right; split; lia) Hx) as [A B].
    destruct (Math_min_bounds 0.9 1 _ _ _ _ _ H9 H1 ltac:(left; lia) Hx) as [_ C].
    auto.
  - rewrite Hr. repeat split; reflexivity.
  - rewrite Hr. repeat split; reflexivity.
Qed.

End StrengthExtras.

Module SelfCitationFacts.
Import Vocabulary MoreVocabulary ListFacts JsFacts IndexFacts DetectorFacts DedupFacts.
Import PipelineFacts DedupMoreFacts KeyFacts RelationshipService.

(** Both endpoints of a candidate are ids of input papers. *)
Lemma candidate_ends papers s r :
  In r (fst (candidateRelationships papers s)) ->
  In (sourceId r) (map id papers) /\ In (targetId r) (map id papers).
Proof.
  intros Hr. apply candidate_cases in Hr.
  destruct Hr as [H|[H|[[H _]|[H|[H _]]]]].
  - apply FromBucket_ends in H; [|apply buildAuthorIndex_stored].
    destruct H as [_ [Hs [Hd _]]]. split; [now apply sampled_id_In | exact Hd].
  - apply FromBucket_ends in H; [|apply buildVenueIndex_stored].
    destruct H as [_ [Hs [Hd _]]]. split; [now apply sampled_id_In | exact Hd].
  - destruct H as [_ [Hs Hd]]. split; now apply sampled_id_In.
  - apply FromLater_FromList in H. destruct H as [_ [Hs Hd]].
    split; now apply sampled_id_In.
  - destruct H as [_ [Hs Hd]]. split; now apply sampled_id_In.
Qed.

(** A sampled paper that lists its own id yields the citation edge from
    the id to itself. *)
Lemma self_citation_candidate papers s p :
  In p (sampledPapers papers) ->
  In (id p) (orNone (references p)) \/ In (id p) (orNone (citations p)) ->
  In (citationEdge (id p) (id p) p) (fst (candidateRelationships papers s)).
Proof.
  intros Hp Hself. rewrite candidateRelationships_run.
  repeat (apply in_or_app; right).
  apply findCitationRelationships_In. exists p. split; [exact Hp|].
  destruct Hself as [H|H]; [left|right]; exists (id p);
    (split; [exact H|]); (split; [now apply in_map | reflexivity]).
Qed.

(** When at most 200 relationships are left after deduplication, all of
    them are returned. *)
Lemma analyzeRelationships_keeps_all papers s r :
  (List.length (deduplicateRelationships (fst (candidateRelationships papers s))) <= 200)%nat ->
  In r (deduplicateRelationships (fst (candidateRelationships papers s))) ->
  In r (fst (analyzeRelationships papers s)).
Proof.
  intros Hlen Hr. rewrite analyzeRelationships_run.
  rewrite slice_from_0 by lia. rewrite firstn_all2.
  - unfold rankRelationships. now apply sort_In.
  - unfold rankRelationships.
    rewrite (Permutation_length (sort_perm _ _)).
    change (Z.to_nat 200) with 200%nat. exact Hlen.
Qed.

(** With ids free of hyphens, the self-citation survives deduplication:
    the kept relationship with its key is a citation from the id to
    itself. *)
Lemma self_citation_kept papers s p :
  Forall (fun q => dashFree (id q) = true) papers ->
  In (citationEdge (id p) (id p) p) (fst (candidateRelationships papers s)) ->
  exists r, In r (deduplicateRelationships (fst (candidateRelationships papers s)))
            /\ relationshipType r = RelationshipType.citation
            /\ sourceId r = id p /\ targetId r = id p.
Proof.
  intros Hd Hin.
  assert (Hfree : forall x, In x (map id papers) -> dashFree x = true).
  { intros x Hx. apply in_map_iff in Hx. destruct Hx as [q [E Hq]]. subst x.
    rewrite Forall_forall in Hd. now apply Hd. }
  destruct (deduplicateFrom_represents _ [] _ Hin) as [[H|H]|[r [Hr Hk]]];
    [discriminate H | discriminate H |].
  exists r. split; [exact Hr|].
  assert (Hc : In r (fst (candidateRelationships papers s))).
  { exact (Subseq_In _ _ _ (deduplicateFrom_Subseq _ []) Hr). }
  destruct (candidate_ends _ _ _ Hc) as [Hs Ht].
  destruct (candidate_ends _ _ _ Hin) as [Hp _]. cbn [citationEdge sourceId] in Hp.
  unfold key1, key2 in Hk. cbn [citationEdge sourceId targetId relationshipType] in Hk.
  destruct Hk as [E|E]; apply relKey_inj in E; auto;
    destruct E as [E1 [E2 E3]]; auto.
Qed.

End SelfCitationFacts.

Module EvictionFacts.
Import Vocabulary St StFacts JsFacts CacheFacts CacheOpsFacts MapMFacts RouteFacts HandlerFacts.
Import Examples CacheExamples EvictionExamples Research.

Lemma word_inj width : forall n m,
  (n < 2 ^ N.of_nat width)%N -> (m < 2 ^ N.of_nat width)%N ->
  word width n = word width m -> n = m.
Proof.
  induction width as [|w IH]; intros n m Hn Hm E.
  - simpl in Hn, Hm. lia.
  - rewrite Nnat.Nat2N.inj_succ, N.pow_succ_r' in Hn, Hm. simpl in E.
    injection E as Ec Et.
    assert (Hd : N.div2 n = N.div2 m).
    { apply IH; [| |exact Et]; rewrite N.div2_div;
        apply N.Div0.div_lt_upper_bound; lia. }
    assert (Ho : N.odd n = N.odd m).
    { destruct (N.odd n), (N.odd m); try reflexivity; discriminate. }
    rewrite (N.div2_odd n), (N.div2_odd m), Hd, Ho. reflexivity.
Qed.

(** The cache key of a request for one paper of the family. *)
Lemma fillerKey n :
  graphCacheKey (currentTopicOf (Some "t")) [filler n]
  = ("graph_t_f" ++ word 14 n)%string.
Proof. vm_compute. reflexivity. Qed.

Lemma append_inj_l p : forall a b, (p ++ a)%string = (p ++ b)%string -> a = b.
Proof.
  induction p as [|c p IH]; intros a b E; simpl in E; [exact E|].
  injection E as E. now apply IH.
Qed.

Lemma fillerKey_inj n m :
  (n < 16384)%N -> (m < 16384)%N ->
  ("graph_t_f" ++ word 14 n)%string = ("graph_t_f" ++ word 14 m)%string -> n = m.
Proof.
  intros Hn Hm E. apply (word_inj 14); [exact Hn | exact Hm|].
  exact (append_inj_l _ _ _ E).
Qed.

(** A request for one paper of the family draws no random number and does
    not read the clock before it stores its graph. *)
Lemma filler_draws n r :
  RS.analyzeRelationships (Js.slice [filler n] 0 500) r = ([], r)
  /\ generateGraphConnections (Js.slice [filler n] 0 500) r = ([], r).
Proof. split; vm_compute; reflexivity. Qed.

Lemma filler_nodes n clk :
  snd (optimizePapersForFrontend (Js.slice [filler n] 0 500) clk) = clk.
Proof. vm_compute. reflexivity. Qed.

(** A request for one paper of the family whose key is not in the cache. *)
Lemma filler_miss n r clk c :
  Js.get String.eqb ("graph_t_f" ++ word 14 n)%string (InstantCache.cache c) = None ->
  exists body,
    buildKnowledgeGraph (fillerRequest n)
      {| randoms := r; clock := clk; graphCache := c |}
    = (Status200 body,
       {| randoms := r;
          clock := snd (InstantCache.set ("graph_t_f" ++ word 14 n)%string body 60 c clk);
          graphCache :=
            fst (InstantCache.set ("graph_t_f" ++ word 14 n)%string body 60 c clk) |}).
Proof.
  intros G. unfold fillerRequest.
  rewrite buildKnowledgeGraph_absent by (rewrite fillerKey; exact G).
  rewrite buildAndCache_run. cbn [randoms clock graphCache].
  rewrite fillerKey.
  destruct (filler_draws n r) as [Ea Eg]. rewrite Ea. cbn [fst snd]. rewrite Eg.
  cbn [fst snd]. rewrite filler_nodes.
  eexists. reflexivity.
Qed.

Lemma mapM_snd_cons {S A B} (f : A -> M S B) x l s :
  snd (mapM f (x :: l) s) = snd (mapM f l (snd (f x s))).
Proof. simpl. rewrite !bind_run. reflexivity. Qed.

Lemma mapM_snd_app {S A B} (f : A -> M S B) l1 : forall l2 s,
  snd (mapM f (l1 ++ l2) s) = snd (mapM f l2 (snd (mapM f l1 s))).
Proof.
  induction l1 as [|x r IH]; intros l2 s; [reflexivity|].
  rewrite <- app_comm_cons, !mapM_snd_cons. apply IH.
Qed.

(** Entries with one timestamp are sorted as they stand. *)
Lemma sort_same_stamp {D} t (m : Js.Map string (InstantCache.CacheItem D)) :
  Forall (fun e => InstantCache.timestamp (snd e) = t) m ->
  Js.sort InstantCache.newerThan m = m.
Proof.
  induction 1 as [|x r Hx Hr IH]; simpl; [reflexivity|].
  rewrite IH. destruct r as [|y r']; [reflexivity|]. simpl.
  pose proof (Forall_inv Hr) as Hy. simpl in Hy. unfold InstantCache.newerThan.
  cbn [snd]. rewrite Hx, Hy, Z.sub_diag. reflexivity.
Qed.

(** A [set] on a cache one entry above its maximum, all of whose entries
    were stored at the reading of the clock: the first entry goes. *)
Lemma set_evicts_head {D} (value : D) t key ttlMinutes (c : InstantCache.t D) k0 item0 rest :
  (0 <= ttlMinutes)%Z -> storedAt t c ->
  InstantCache.cache c = (k0, item0) :: rest ->
  InstantCache.size c = (InstantCache.maxSize c + 1)%Z ->
  (0 <= InstantCache.maxSize c)%Z ->
  ~ In key (Js.keys rest) ->
  InstantCache.set key value ttlMinutes c (frozenClock t)
  = ({| InstantCache.cache :=
          rest ++ [(key, {| InstantCache.data := value; InstantCache.timestamp := t;
                            InstantCache.ttl := ttlMinutes * 60 * 1000 |})];
        InstantCache.maxSize := InstantCache.maxSize c |},
     frozenClock t).
Proof.
  intros Httl Hs Hc Hsz Hmax Hk.
  assert (Hkeep : filter (fun entry : string * InstantCache.CacheItem D =>
                            negb (InstantCache.expired (frozenClock t 0%nat) (snd entry)))
                         (InstantCache.cache c) = InstantCache.cache c).
  { apply filter_keeps. eapply Forall_impl; [|exact Hs]. intros e [Ht Hl].
    unfold InstantCache.expired, frozenClock. rewrite Ht, Z.sub_diag.
    destruct (Z.ltb_spec (InstantCache.ttl (snd e)) 0); [lia | reflexivity]. }
  assert (Hsort : Js.sort InstantCache.newerThan (InstantCache.cache c)
                  = InstantCache.cache c).
  { apply (sort_same_stamp t). eapply Forall_impl; [|exact Hs]. now intros e [Ht _]. }
  assert (Hlen : Z.of_nat (List.length rest) = InstantCache.maxSize c).
  { unfold InstantCache.size, Js.size in Hsz. rewrite Hc in Hsz. simpl in Hsz. lia. }
  assert (Hclean : InstantCache.cleanup c (frozenClock t)
                   = (InstantCache.withCache c rest, frozenClock t)).
  { unfold InstantCache.cleanup. rewrite bind_run.
    cbn [Clock.Date_now fst snd]. rewrite Hkeep, Hsort.
    unfold InstantCache.size, Js.size in Hsz.
    destruct (Z.ltb_spec (InstantCache.maxSize c)
                         (Z.of_nat (Js.size (InstantCache.cache c)))) as [_|Hle];
      [|unfold Js.size in Hle; lia].
    rewrite Hc. unfold ret. f_equal. f_equal.
    cbn [InstantCache.evictFrom]. unfold Js.size. cbn [List.length].
    destruct (Z.ltb_spec (Z.of_nat 0)
                         (Z.of_nat (S (List.length rest)) - InstantCache.maxSize c));
      [|lia].
    cbn [Js.delete]. rewrite String.eqb_refl.
    destruct rest as [|[k1 item1] rest']; [reflexivity|].
    cbn [InstantCache.evictFrom]. unfold Js.size.
    destruct (Z.ltb_spec (Z.of_nat 1)
                         (Z.of_nat (List.length ((k1, item1) :: rest'))
                          - InstantCache.maxSize c)); [lia | reflexivity]. }
  unfold InstantCache.set. rewrite bind_run.
  destruct (Z.leb_spec (InstantCache.maxSize c) (InstantCache.size c)); [|lia].
  rewrite Hclean. cbn [fst snd]. rewrite bind_run.
  cbn [Clock.Date_now fst snd frozenClock InstantCache.withCache InstantCache.cache
       InstantCache.maxSize].
  unfold ret, InstantCache.withCache. cbn [InstantCache.cache InstantCache.maxSize].
  now rewrite set_fresh.
Qed.

Lemma NoDup_map_on {A B} (f : A -> B) (l : list A) :
  (forall x y, In x l -> In y l -> f x = f y -> x = y) -> NoDup l -> NoDup (map f l).
Proof.
  intros Hf. induction 1 as [|x r Hx Hr IH]; simpl; constructor.
  - intros Hin. apply in_map_iff in Hin. destruct Hin as [y [E Hy]].
    apply Hx. rewrite <- (Hf y x); [exact Hy | now right | now left | exact E].
  - apply IH. intros a b Ha Hb. apply Hf; now right.
Qed.

(** Requests for papers of the family whose keys are new, on a cache with
    room for them, at a clock that stands still: each appends its entry. *)
Lemma fill t r ks : forall c,
  storedAt t c ->
  (forall k, In k ks -> (k < 16384)%N) -> NoDup ks ->
  (forall k, In k ks ->
             ~ In ("graph_t_f" ++ word 14 k)%string (Js.keys (InstantCache.cache c))) ->
  (InstantCache.size c + Z.of_nat (List.length ks) <= InstantCache.maxSize c + 1)%Z ->
  exists entries,
    snd (mapM buildKnowledgeGraph (map fillerRequest ks)
           {| randoms := r; clock := frozenClock t; graphCache := c |})
    = {| randoms := r; clock := frozenClock t;
         graphCache := {| InstantCache.cache := InstantCache.cache c ++ entries;
                          InstantCache.maxSize := InstantCache.maxSize c |} |}
    /\ Js.keys entries = map (fun k => ("graph_t_f" ++ word 14 k)%string) ks
    /\ Forall (fun e => InstantCache.timestamp (snd e) = t
                        /\ (0 <= InstantCache.ttl (snd e))%Z) entries.
Proof.
  induction ks as [|k ks IH]; intros c Hs Hb Hn Hk Hsz.
  - exists []. simpl. rewrite app_nil_r. destruct c. auto.
  - inversion Hn as [|? ? Hnot Hn']; subst.
    destruct (filler_miss k r (frozenClock t) c) as [body Hrun].
    { apply get_absent. apply Hk. now left. }
    rewrite (set_fresh_key body t) in Hrun.
    + cbn [fst snd] in Hrun.
      destruct (IH {| InstantCache.cache :=
                        InstantCache.cache c
                        ++ [(("graph_t_f" ++ word 14 k)%string,
                             {| InstantCache.data := body; InstantCache.timestamp := t;
                                InstantCache.ttl := 60 * 60 * 1000 |})];
                      InstantCache.maxSize := InstantCache.maxSize c |})
        as [entries [Hrest [Hkeys Hst]]].
      * unfold storedAt. cbn [InstantCache.cache]. apply Forall_app. split; [exact Hs|].
        constructor; [|constructor]. cbn [snd InstantCache.timestamp InstantCache.ttl].
        split; [reflexivity | lia].
      * intros k' Hk'. apply Hb. now right.
      * exact Hn'.
      * intros k' Hk'. cbn [InstantCache.cache]. unfold Js.keys. rewrite map_app.
        intros Hin. apply in_app_or in Hin. destruct Hin as [Hin|Hin].
        -- apply (Hk k'); [now right | exact Hin].
        -- destruct Hin as [E|[]]. cbn [fst] in E.
           apply fillerKey_inj in E; [| apply Hb; now left | apply Hb; now right].
           subst k'. contradiction.
      * unfold InstantCache.size, Js.size in *. cbn [InstantCache.cache InstantCache.maxSize].
        rewrite length_app. cbn [List.length] in *. lia.
      * exists ((("graph_t_f" ++ word 14 k)%string,
                 {| InstantCache.data := body; InstantCache.timestamp := t;
                    InstantCache.ttl := 60 * 60 * 1000 |}) :: entries).
        split; [|split].
        -- cbn [map]. rewrite mapM_snd_cons, Hrun. cbn [snd]. rewrite Hrest.
           cbn [InstantCache.cache InstantCache.maxSize]. now rewrite <- app_assoc.
        -- cbn [Js.keys map fst]. f_equal. exact Hkeys.
        -- constructor; [|exact Hst]. cbn [snd InstantCache.timestamp InstantCache.ttl].
           split; [reflexivity | lia].
    + lia.
    + exact Hs.
    + cbn [List.length] in Hsz. lia.
    + apply Hk. now left.
Qed.

(** The world after the first request for the pair and the requests for
    [S m] papers of the family, with [m] the maximum of the cache: the
    entry of the pair is gone, the clock still stands at 0 and the draws
    are all 0. *)
Lemma busy_hour m :
  Z.of_nat m = 10000%Z ->
  exists entries,
    snd (mapM buildKnowledgeGraph (fillerRequests (S m))
           (snd (buildKnowledgeGraph pairRequest startWorld)))
    = {| randoms := fun _ => 0%float; clock := frozenClock 0;
         graphCache := {| InstantCache.cache := entries;
                          InstantCache.maxSize := 10000 |} |}
    /\ Js.keys entries
       = map (fun k => ("graph_t_f" ++ word 14 k)%string) (map N.of_nat (seq 0 (S m))).
Proof.
  intros Hm.
  destruct (buildKnowledgeGraph pairRequest startWorld) as [resp1 w1] eqn:H1.
  vm_compute in H1. injection H1 as _ Hw1. subst w1. cbn [snd].
  unfold fillerRequests. rewrite seq_S, map_app, mapM_snd_app. cbn [map Nat.add].
  rewrite <- (map_map N.of_nat fillerRequest).
  match goal with
  | |- context [mapM buildKnowledgeGraph (map fillerRequest _)
                  {| randoms := ?r; clock := ?k; graphCache := ?c |}] =>
      destruct (fill 0 r (map N.of_nat (seq 0 m)) c) as [entries [Hrun [Hkeys Hst]]]
  end.
  - repeat constructor. cbn. lia.
  - intros k Hk. apply in_map_iff in Hk. destruct Hk as [i [E Hi]]. apply in_seq in Hi.
    subst k. lia.
  - apply NoDup_map_on; [|apply seq_NoDup]. intros x y _ _ E. lia.
  - intros k _ [E|[]]. cbn in E. discriminate E.
  - unfold InstantCache.size, Js.size. cbn [InstantCache.cache InstantCache.maxSize List.length].
    rewrite length_map, length_seq. lia.
  - change (fun _ : nat => 0%Z) with (frozenClock 0). rewrite Hrun. clear Hrun.
    cbn [InstantCache.cache InstantCache.maxSize app].
    rewrite mapM_snd_cons. cbn [mapM ret snd].
    match goal with
    | |- context [buildKnowledgeGraph (fillerRequest ?n)
                    {| randoms := ?r; clock := ?k; graphCache := ?c |}] =>
        destruct (filler_miss n r k c) as [body Hlast]
    end.
    { apply get_absent. cbn [InstantCache.cache]. unfold Js.keys in *. cbn [map fst].
      rewrite Hkeys.
      intros [E|Hin]; [discriminate E|].
      apply in_map_iff in Hin. destruct Hin as [k [E Hk]].
      apply in_map_iff in Hk. destruct Hk as [i [Ei Hi]]. apply in_seq in Hi. subst k.
      apply fillerKey_inj in E; lia. }
    rewrite Hlast. cbn [snd].
    match goal with
    | |- context [InstantCache.set ?key body 60
                    {| InstantCache.cache := (?k0, ?i0) :: entries;
                       InstantCache.maxSize := ?mx |} (frozenClock 0)] =>
        rewrite (set_evicts_head body 0 key 60
                   {| InstantCache.cache := (k0, i0) :: entries;
                      InstantCache.maxSize := mx |} k0 i0 entries)
    end.
    + cbn [fst snd]. eexists. split; [reflexivity|].
      unfold Js.keys in *. rewrite !map_app, Hkeys. reflexivity.
    + lia.
    + constructor; [cbn; lia | exact Hst].
    + reflexivity.
    + unfold InstantCache.size, Js.size. cbn [InstantCache.cache InstantCache.maxSize List.length].
      rewrite <- (length_map fst entries). change (map fst entries) with (Js.keys entries).
      rewrite Hkeys, !length_map, length_seq. lia.
    + cbn. lia.
    + rewrite Hkeys. intros Hin.
      apply in_map_iff in Hin. destruct Hin as [k [E Hk]].
      apply in_map_iff in Hk. destruct Hk as [i [Ei Hi]]. apply in_seq in Hi. subst k.
      apply fillerKey_inj in E; lia.
Qed.

End EvictionFacts.

(* ===================================================================== *)
(** ** The claims of the specification *)
(* ===================================================================== *)

Module Claims.

Import Vocabulary St ListFacts JsFacts MapFacts StFacts IndexFacts SampleFacts.
Import DetectorFacts DedupFacts PipelineFacts CacheFacts RouteFacts.
Import Examples FailureExamples CacheExamples RouteExamples.
Import MoreVocabulary SelfCitationFacts CacheOpsFacts HandlerFacts.
Import EvictionExamples EvictionFacts.

Section Service.
Import RelationshipService.

(** C4. For every input paper list and every stream of random draws, the
    list returned by [analyzeRelationships] has at most 200 elements. *)
Theorem analyzeRelationships_at_most_200 (papers : list Paper) (s : Random.Source) :
  (List.length (fst (analyzeRelationships papers s)) <= 200)%nat.
Proof.
  rewrite analyzeRelationships_run.
  apply (slice_from_0_length _ 200). lia.
Qed.

(** C8. For every paper list and every target size (a count), the
    stratified sampler returns at most [min targetSize papers.length]
    papers; in [analyzeRelationships], where the target size is
    [floor(min(papers.length, sqrt(50000)))], that is at most
    [min 223 papers.length]. *)
Theorem stratifiedSample_length (papers : list Paper) (targetSize : nat) :
  (List.length (stratifiedSample papers (Z.of_nat targetSize))
   <= Nat.min targetSize (List.length papers))%nat
  /\ (List.length (sampledPapers papers) <= Nat.min 223 (List.length papers))%nat.
Proof.
  split; apply Nat.min_glb.
  - apply slice_nat_length.
  - apply SubPerm_length, stratifiedSample_SubPerm.
  - unfold sampledPapers, stratifiedSample.
    assert (Hs : (0 <= sampleSizeFor papers <= 223)%Z).
    { unfold sampleSizeFor. change (Z.sqrt maxComparisons) with 223%Z. lia. }
    etransitivity; [apply slice_from_0_length; lia | lia].
  - apply SubPerm_length, sampledPapers_SubPerm.
Qed.


(** C6, as the code has it. The citation detector emits an edge from [src]
    to [tgt] exactly when both ids belong to papers of the sampled list and
    either [tgt] is among the references of a paper with id [src], or [src]
    is among the [citations] of a paper with id [tgt] (the edge runs from
    the citing paper to the cited one). Every such edge has type citation
    and strength 0.9, and the citation candidates of a run are the output
    of the citation detector on the sample, whatever the random draws. *)
Theorem citation_edges_exact (sampled : list Paper) :
  (forall src tgt,
      (exists r, In r (findCitationRelationships sampled)
                 /\ sourceId r = src /\ targetId r = tgt)
      <->
      (In src (map id sampled) /\ In tgt (map id sampled)
       /\ ((exists p, In p sampled /\ id p = src /\ In tgt (orNone (references p)))
           \/ (exists p, In p sampled /\ id p = tgt /\ In src (orNone (citations p))))))
  /\ Forall (fun r => relationshipType r = RelationshipType.citation
                      /\ strength r = 0.9%float)
            (findCitationRelationships sampled)
  /\ (forall papers s,
        filter (fun r => RelationshipType.eqb (relationshipType r) RelationshipType.citation)
               (fst (candidateRelationships papers s))
        = findCitationRelationships (sampledPapers papers)).
Proof.
  split; [|split].
  - intros src tgt. split.
    + intros [r [Hr [Hs Ht]]]. apply findCitationRelationships_In in Hr.
      destruct Hr as [p [Hp [[x [Hx [Hi Hr]]]|[x [Hx [Hi Hr]]]]]]; subst r; simpl in *; subst.
      * split; [now apply in_map|]. split; [exact Hi|]. left. exists p. auto.
      * split; [exact Hi|]. split; [now apply in_map|]. right. exists p. auto.
    + intros [Hs [Ht [[p [Hp [Hid Hin]]]|[p [Hp [Hid Hin]]]]]].
      * exists (citationEdge (id p) tgt p). split; [|simpl; auto].
        apply findCitationRelationships_In. exists p. split; [exact Hp|]. left.
        exists tgt. auto.
      * exists (citationEdge src (id p) p). split; [|simpl; auto].
        apply findCitationRelationships_In. exists p. split; [exact Hp|]. right.
        exists src. auto.
  - eapply Forall_impl; [|apply findCitationRelationships_from].
    intros r [[Ht _] Hs]. auto.
  - intros papers s. rewrite candidateRelationships_run.
    rewrite !filter_app.
    rewrite (filter_none RelationshipType.author), (filter_none RelationshipType.venue),
            (filter_none RelationshipType.content), (filter_none RelationshipType.temporal);
      try discriminate.
    + simpl. apply filter_all.
      eapply Forall_impl; [|apply findCitationRelationships_from]. intros r [[Ht _] _]. exact Ht.
    + eapply Forall_impl; [|apply findTemporalRelationships_from]. intros r [Ht _]. exact Ht.
    + eapply Forall_impl; [|apply findContentRelationships_from]. intros r [[Ht _] _]. exact Ht.
    + eapply Forall_impl; [|apply findVenueRelationships_from]. intros r [Ht _]. exact Ht.
    + eapply Forall_impl; [|apply findAuthorRelationships_from]. intros r [Ht _]. exact Ht.
Qed.

(** C6, counterexample. ["X"] and ["Y"] are both sampled and ["Y"] is in
    the [citations] list of ["X"], so the claim asks for a citation edge
    with source ["X"] and target ["Y"]; the detector emits the edge from
    ["Y"] to ["X"] and no other. *)
Lemma citation_direction_counterexample :
  (exists p, In p citedPair /\ id p = "X" /\ In "Y" (orNone (citations p)))
  /\ In "X" (map id citedPair) /\ In "Y" (map id citedPair)
  /\ ~ (exists r, In r (findCitationRelationships citedPair)
                  /\ sourceId r = "X" /\ targetId r = "Y")
  /\ map (fun r => (sourceId r, targetId r)) (findCitationRelationships citedPair)
     = [("Y", "X")].
Proof.
  split; [|split; [|split; [|split]]].
  - eexists. split; [left; reflexivity|]. simpl. auto.
  - simpl. auto.
  - simpl. auto.
  - intros [r [Hr [Hs Ht]]]. vm_compute in Hr.
    destruct Hr as [Hr|[]]. subst r. discriminate Hs.
  - reflexivity.
Qed.

(** C3, as the code has it. The three indexes are built over the whole
    input list, before sampling. Every returned relationship has its source
    among the sampled papers and its target among the input papers; for
    content, temporal and citation relationships the target is among the
    sampled papers too. *)
Theorem analyzeRelationships_endpoints (papers : list Paper) (s : Random.Source) :
  Forall (fun r =>
            In (sourceId r) (map id (sampledPapers papers))
            /\ In (targetId r) (map id papers)
            /\ (relationshipType r = RelationshipType.content
                \/ relationshipType r = RelationshipType.temporal
                \/ relationshipType r = RelationshipType.citation ->
                In (targetId r) (map id (sampledPapers papers))))
         (fst (analyzeRelationships papers s)).
Proof.
  apply Forall_forall. intros r Hr.
  apply analyzeRelationships_candidate, candidate_cases in Hr.
  destruct Hr as [H|[H|[[H _]|[H|[H _]]]]].
  - apply FromBucket_ends in H; [|apply buildAuthorIndex_stored].
    destruct H as [Ht [Hs [Hd _]]]. repeat split; auto.
    rewrite Ht. intros [E|[E|E]]; discriminate.
  - apply FromBucket_ends in H; [|apply buildVenueIndex_stored].
    destruct H as [Ht [Hs [Hd _]]]. repeat split; auto.
    rewrite Ht. intros [E|[E|E]]; discriminate.
  - destruct H as [_ [Hs Hd]]. repeat split; auto. now apply sampled_id_In.
  - apply FromLater_FromList in H. destruct H as [_ [Hs Hd]].
    repeat split; auto. now apply sampled_id_In.
  - destruct H as [_ [Hs Hd]]. repeat split; auto. now apply sampled_id_In.
Qed.

(** C3, counterexample. Of [fourPapers] the sample keeps ["A"], ["B"] and
    ["D"]; the author index, built over all four, still holds ["C"], and
    the returned author relationship from ["A"] has target ["C"]. *)
Lemma analyzeRelationships_endpoints_counterexample :
  map id (sampledPapers fourPapers) = ["A"; "B"; "D"]
  /\ map id (bucket "j. smith" (buildAuthorIndex fourPapers)) = ["A"; "C"]
  /\ exists r, In r (fst (analyzeRelationships fourPapers (always 0)))
               /\ sourceId r = "A" /\ targetId r = "C"
               /\ ~ In (targetId r) (map id (sampledPapers fourPapers)).
Proof.
  split; [vm_compute; reflexivity|]. split; [vm_compute; reflexivity|].
  eexists. split; [vm_compute; left; reflexivity|]. simpl.
  split; [reflexivity|]. split; [reflexivity|].
  vm_compute. intros [H|[H|[H|[]]]]; discriminate.
Qed.

(** C10, as the code has it. A returned author, venue or content
    relationship never joins an id with itself: these three detectors skip
    a paper whose id equals the one of the paper at hand. The temporal
    detector has no such test; it pairs a paper with the papers at later
    positions, so a returned temporal relationship has distinct endpoints
    whenever the ids of the input papers are pairwise distinct. The
    citation detector has no test either: for every sampled paper that
    lists its own id among its references or citations, the citation edge
    from the id to itself is among the relationships the detectors push;
    it is returned when no id of the input contains a hyphen (so that the
    keys of the deduplication tell the pairs apart) and deduplication
    leaves at most 200 relationships (so that the cut after ranking drops
    none). [selfCiting] is such an input, for every stream of draws. *)
Theorem analyzeRelationships_self_pairs :
  (forall papers s,
      Forall (fun r =>
                (relationshipType r = RelationshipType.author
                 \/ relationshipType r = RelationshipType.venue
                 \/ relationshipType r = RelationshipType.content ->
                 sourceId r <> targetId r)
                /\ (NoDup (map id papers) ->
                    relationshipType r = RelationshipType.temporal ->
                    sourceId r <> targetId r))
             (fst (analyzeRelationships papers s)))
  /\ (forall papers s p,
        In p (sampledPapers papers) ->
        In (id p) (orNone (references p)) \/ In (id p) (orNone (citations p)) ->
        In (citationEdge (id p) (id p) p) (fst (candidateRelationships papers s))
        /\ (Forall (fun q => dashFree (id q) = true) papers ->
            (List.length (deduplicateRelationships (fst (candidateRelationships papers s)))
             <= 200)%nat ->
            exists r, In r (fst (analyzeRelationships papers s))
                      /\ relationshipType r = RelationshipType.citation
                      /\ sourceId r = id p /\ targetId r = id p))
  /\ (forall s,
        exists r, In r (fst (analyzeRelationships selfCiting s))
                  /\ relationshipType r = RelationshipType.citation
                  /\ sourceId r = "Z" /\ targetId r = "Z").
Proof.
  split; [|split].
  - intros papers s. apply Forall_forall. intros r Hr.
    apply analyzeRelationships_candidate, candidate_cases in Hr.
    destruct Hr as [H|[H|[[H Hne]|[H|[H _]]]]].
    + destruct H as [Ht [p [o [_ [_ [Es [Et Hne]]]]]]].
      split; [intros _; congruence|]. rewrite Ht. discriminate.
    + destruct H as [Ht [p [o [_ [_ [Es [Et Hne]]]]]]].
      split; [intros _; congruence|]. rewrite Ht. discriminate.
    + destruct H as [Ht _]. split; [auto|]. rewrite Ht. discriminate.
    + destruct H as [Ht [i [p [o [Hp [Ho [Es Et]]]]]]].
      split; [rewrite Ht; intros [E|[E|E]]; discriminate|].
      intros Hn _. rewrite Es, Et.
      eapply (NoDup_later id); [|eassumption|eassumption].
      eapply SubPerm_NoDup; [|exact Hn]. apply SubPerm_map, sampledPapers_SubPerm.
    + destruct H as [Ht _]. split; rewrite Ht; [intros [E|[E|E]]|]; discriminate.
  - intros papers s p Hp Hself.
    pose proof (self_citation_candidate papers s p Hp Hself) as Hin.
    split; [exact Hin|]. intros Hd Hlen.
    destruct (self_citation_kept papers s p Hd Hin) as [r [Hr Hprops]].
    exists r. split; [|exact Hprops].
    now apply analyzeRelationships_keeps_all.
  - intros s. eexists. split.
    + rewrite analyzeRelationships_run, candidateRelationships_run.
      vm_compute. left. reflexivity.
    + simpl. repeat split; reflexivity.
Qed.

(** C10, counterexample. [twins] holds two records with the same id and
    year; when the draw exceeds 0.7 the temporal detector pairs the first
    with the second and the returned temporal relationship joins ["p"]
    with itself. *)
Lemma temporal_self_pair_counterexample :
  exists r, In r (fst (analyzeRelationships twins (always 0.75)))
            /\ relationshipType r = RelationshipType.temporal
            /\ sourceId r = targetId r.
Proof.
  eexists. split; [vm_compute; left; reflexivity|]. simpl. split; reflexivity.
Qed.

End Service.

Section Failure.
Import RelationshipService DetectorFailure.

(** C1, as the code has it. [analyzeRelationships] calls the five detectors
    one after the other outside any [try]: the first detector that throws
    ends the call with its error, and the relationships of the detectors
    that ran before it are dropped with the local array. A result is
    returned when all five return, and it is the deduplicated, ranked and
    truncated concatenation of their results. With the detectors of the
    class, which return on every input, this is [analyzeRelationships]. *)
Theorem analyzeRelationshipsWith_propagates (d : Detectors) (papers : list Paper)
    (s : Random.Source) :
  let sampled := sampledPapers papers in
  let run := analyzeRelationshipsWith d papers s in
  let r1 := authorDetector d sampled (buildAuthorIndex papers) s in
  let r2 := venueDetector d sampled (buildVenueIndex papers) (snd r1) in
  let r3 := contentDetector d sampled (buildKeywordIndex papers) (snd r2) in
  let r4 := temporalDetector d sampled (snd r3) in
  let r5 := citationDetector d sampled (snd r4) in
  match fst r1, fst r2, fst r3, fst r4, fst r5 with
  | Thrown e, _, _, _, _ => run = (Thrown e, snd r1)
  | Returned _, Thrown e, _, _, _ => run = (Thrown e, snd r2)
  | Returned _, Returned _, Thrown e, _, _ => run = (Thrown e, snd r3)
  | Returned _, Returned _, Returned _, Thrown e, _ => run = (Thrown e, snd r4)
  | Returned _, Returned _, Returned _, Returned _, Thrown e => run = (Thrown e, snd r5)
  | Returned a, Returned v, Returned c, Returned t, Returned ci =>
      run = (Returned (Js.slice (rankRelationships
                                   (deduplicateRelationships (a ++ v ++ c ++ t ++ ci)))
                                0 200),
             snd r5)
  end
  /\ analyzeRelationshipsWith ownDetectors papers s
     = (Returned (fst (analyzeRelationships papers s)), snd (analyzeRelationships papers s)).
Proof.
  cbv zeta. split.
  - unfold analyzeRelationshipsWith, andThen. cbv zeta.
    destruct (authorDetector d _ _ s) as [[a|e] s1]; simpl; [|reflexivity].
    destruct (venueDetector d _ _ s1) as [[v|e] s2]; simpl; [|reflexivity].
    destruct (contentDetector d _ _ s2) as [[c|e] s3]; simpl; [|reflexivity].
    destruct (temporalDetector d _ s3) as [[t|e] s4]; simpl; [|reflexivity].
    destruct (citationDetector d _ s4) as [[ci|e] s5]; simpl; reflexivity.
  - unfold analyzeRelationshipsWith, analyzeRelationships, candidateRelationships,
      andThen, ownDetectors, returning. cbv zeta. simpl.
    rewrite !bind_run. simpl. rewrite !bind_run. simpl.
    destruct (findVenueRelationships _ _ s) as [v s2]; simpl.
    destruct (findTemporalRelationships _ s2) as [t s4]; simpl.
    reflexivity.
Qed.

(** C1, counterexample. With a venue detector that throws, the call on
    [fourPapers] returns no result: it ends with the detector's error,
    although the author detector, called before, had found a relationship. *)
Lemma detector_failure_counterexample :
  (exists a s', authorDetector venueFails (sampledPapers fourPapers)
                  (buildAuthorIndex fourPapers) (always 0) = (Returned a, s')
                /\ a <> [])
  /\ fst (analyzeRelationshipsWith venueFails fourPapers (always 0))
     = Thrown "venue detector failed"
  /\ ~ (exists l, fst (analyzeRelationshipsWith venueFails fourPapers (always 0))
                  = Returned l).
Proof.
  split; [|split].
  - eexists. eexists. split; [vm_compute; reflexivity|]. discriminate.
  - vm_compute. reflexivity.
  - intros [l H]. vm_compute in H. discriminate H.
Qed.

End Failure.

Section Route.
Import Research.

(** C9 at its failing input. On a new cache, 10001 calls of [set] with
    pairwise different keys, none of which expires in between, leave 10001
    entries: one more than [maxSize]. The 10001st call finds the cache at
    [maxSize]; its [cleanup] sweeps nothing and evicts nothing, because the
    eviction is guarded by [size > maxSize]. *)
Theorem cache_exceeds_maxSize :
  InstantCache.size
    (fst (setEach (keysUpTo (Z.to_nat 10001)) tt InstantCache.new (frozenClock 0)))
  = 10001%Z
  /\ InstantCache.maxSize
       (fst (setEach (keysUpTo (Z.to_nat 10001)) tt InstantCache.new (frozenClock 0)))
     = 10000%Z.
Proof.
  assert (Hn : Z.of_nat (Z.to_nat 10001) = 10001%Z) by (apply Z2Nat.id; lia).
  generalize dependent (Z.to_nat 10001). intros n Hn.
  destruct (setEach_fresh tt 0 (keysUpTo n) InstantCache.new) as [E1 E2].
  - apply keysUpTo_NoDup.
  - intros k _ [].
  - constructor.
  - unfold keysUpTo. rewrite length_map, length_seq.
    change (InstantCache.size InstantCache.new) with 0%Z.
    change (InstantCache.maxSize InstantCache.new) with 10000%Z. lia.
  - split; [|exact E2].
    unfold InstantCache.size, Js.size.
    rewrite <- (length_map fst).
    change (map fst ?m) with (Js.keys m).
    rewrite E1. change (Js.keys (InstantCache.cache InstantCache.new)) with (@nil string).
    rewrite app_nil_l. unfold keysUpTo. rewrite length_map, length_seq. exact Hn.
Qed.

(** C2, as the code has it. A request whose paper list is empty is
    answered with status 400 and the message that a non-empty array is
    required; nothing is computed, cached or drawn. The relationship
    service itself, called with no papers, returns no relationships. *)
Theorem buildKnowledgeGraph_rejects_empty (requestTopic : option string) (w : World) :
  buildKnowledgeGraph {| papers := Some []; requestTopic := requestTopic |} w
  = (Status400 "Papers array (non-empty) is required", w)
  /\ forall s, RS.analyzeRelationships [] s = ([], s).
Proof. split; reflexivity. Qed.

(** C2, counterexample. On a fresh process the request with an empty array
    gets the 400 answer, not a graph. *)
Lemma empty_request_counterexample :
  fst (buildKnowledgeGraph emptyRequest freshWorld)
  = Status400 "Papers array (non-empty) is required"
  /\ ~ (exists body, fst (buildKnowledgeGraph emptyRequest freshWorld) = Status200 body).
Proof.
  split; [reflexivity|]. intros [body H]. discriminate H.
Qed.

(** C7, as the code has it. Let a call of the handler with papers [P] and
    topic [T] complete with a graph. Then the graph cache holds an entry
    under the key of [(T, P)] (after a fresh build: the response itself,
    with a TTL of 60 minutes). A later call with the same [(P, T)] that
    still finds this entry, and reads the clock before the entry has
    expired, answers with the body of the first call in which [cached] is
    [true]: the same nodes, the same edges, the same relationships, topic,
    counts and message. It draws no random number, leaves the cache as it
    is and only reads the clock once: none of the sampling, index, detector
    or ranking work is done again. That the entry is still there does not
    follow from the TTL alone, since [cleanup] evicts the oldest entries
    of a cache over its maximum size. *)
Theorem buildKnowledgeGraph_idempotent (P : list RS.Paper) (T : option string)
    (w w1 : World) (body1 : ResponseBody) :
  buildKnowledgeGraph {| papers := Some P; requestTopic := T |} w = (Status200 body1, w1) ->
  exists item,
    Js.get String.eqb (graphCacheKey (currentTopicOf T) P)
           (InstantCache.cache (graphCache w1)) = Some item
    /\ markCached (InstantCache.data item) = markCached body1
    /\ (cached (data body1) = false ->
        InstantCache.data item = body1
        /\ InstantCache.ttl item = (60 * 60 * 1000)%Z)
    /\ (forall w2,
          Js.get String.eqb (graphCacheKey (currentTopicOf T) P)
                 (InstantCache.cache (graphCache w2)) = Some item ->
          InstantCache.expired (clock w2 0) item = false ->
          exists body2,
            buildKnowledgeGraph {| papers := Some P; requestTopic := T |} w2
            = (Status200 body2, afterRead w2)
            /\ body2 = markCached body1
            /\ graphNodes (data body2) = graphNodes (data body1)
            /\ graphEdges (data body2) = graphEdges (data body1)
            /\ relationshipsFromService (data body2) = relationshipsFromService (data body1)
            /\ topic (data body2) = topic (data body1)
            /\ totalPapersProvided (data body2) = totalPapersProvided (data body1)
            /\ papersInGraph (data body2) = papersInGraph (data body1)
            /\ databaseStored (data body2) = databaseStored (data body1)
            /\ success body2 = success body1
            /\ message body2 = message body1
            /\ cached (data body2) = true).
Proof.
  intros H. destruct P as [|p ps]; [discriminate H|].
  assert (Hhit : forall item w2,
            markCached (InstantCache.data item) = markCached body1 ->
            Js.get String.eqb (graphCacheKey (currentTopicOf T) (p :: ps))
                   (InstantCache.cache (graphCache w2)) = Some item ->
            InstantCache.expired (clock w2 0) item = false ->
            exists body2,
              buildKnowledgeGraph {| papers := Some (p :: ps); requestTopic := T |} w2
              = (Status200 body2, afterRead w2)
              /\ body2 = markCached body1
              /\ graphNodes (data body2) = graphNodes (data body1)
              /\ graphEdges (data body2) = graphEdges (data body1)
              /\ relationshipsFromService (data body2) = relationshipsFromService (data body1)
              /\ topic (data body2) = topic (data body1)
              /\ totalPapersProvided (data body2) = totalPapersProvided (data body1)
              /\ papersInGraph (data body2) = papersInGraph (data body1)
              /\ databaseStored (data body2) = databaseStored (data body1)
              /\ success body2 = success body1
              /\ message body2 = message body1
              /\ cached (data body2) = true).
  { intros item w2 Hm Hg2 Hne. exists (markCached body1).
    split; [rewrite (buildKnowledgeGraph_hit p ps T w2 _ Hg2 Hne), Hm; reflexivity|].
    repeat split. }
  assert (Hfresh : forall w',
            buildAndCache (graphCacheKey (currentTopicOf T) (p :: ps)) (currentTopicOf T)
                          (p :: ps) w' = (Status200 body1, w1) ->
            exists item,
              Js.get String.eqb (graphCacheKey (currentTopicOf T) (p :: ps))
                     (InstantCache.cache (graphCache w1)) = Some item
              /\ markCached (InstantCache.data item) = markCached body1
              /\ (cached (data body1) = false ->
                  InstantCache.data item = body1
                  /\ InstantCache.ttl item = (60 * 60 * 1000)%Z)).
  { intros w' Hb.
    destruct (buildAndCache_stores (graphCacheKey (currentTopicOf T) (p :: ps))
                (currentTopicOf T) (p :: ps) w') as [body [w1' [ts [Hb' [Hc Hg]]]]].
    rewrite Hb in Hb'. inversion Hb'; subst body w1'.
    eexists. split; [exact Hg|]. split; [reflexivity|]. intros _; split; reflexivity. }
  assert (Hitem : exists item,
              Js.get String.eqb (graphCacheKey (currentTopicOf T) (p :: ps))
                     (InstantCache.cache (graphCache w1)) = Some item
              /\ markCached (InstantCache.data item) = markCached body1
              /\ (cached (data body1) = false ->
                  InstantCache.data item = body1
                  /\ InstantCache.ttl item = (60 * 60 * 1000)%Z)).
  { destruct (Js.get String.eqb (graphCacheKey (currentTopicOf T) (p :: ps))
                     (InstantCache.cache (graphCache w))) as [item|] eqn:G.
    - destruct (InstantCache.expired (clock w 0) item) eqn:E.
      + destruct (buildKnowledgeGraph_expired p ps T w item G E) as [w' Hw'].
        rewrite Hw' in H. now apply (Hfresh w').
      + rewrite (buildKnowledgeGraph_hit p ps T w item G E) in H.
        inversion H; subst body1 w1.
        exists item. split; [exact G|]. split; [reflexivity|].
        intros Hc; discriminate Hc.
    - rewrite (buildKnowledgeGraph_absent p ps T w G) in H. now apply (Hfresh w). }
  destruct Hitem as [item [Hg [Hm Hc]]].
  exists item. split; [exact Hg|]. split; [exact Hm|]. split; [exact Hc|].
  intros w2. apply Hhit. exact Hm.
Qed.

(** C7 on a fresh process: the first call with four papers builds the
    graph, and the second gets the same nodes and edges from the cache. *)
Lemma buildKnowledgeGraph_idempotent_witness :
  exists body1 w1 body2,
    buildKnowledgeGraph fourPaperRequest freshWorld = (Status200 body1, w1)
    /\ cached (data body1) = false
    /\ buildKnowledgeGraph fourPaperRequest w1 = (Status200 body2, afterRead w1)
    /\ graphNodes (data body2) = graphNodes (data body1)
    /\ graphEdges (data body2) = graphEdges (data body1)
    /\ cached (data body2) = true.
Proof.
  eexists. eexists.
  eassert (H : buildKnowledgeGraph fourPaperRequest freshWorld = (Status200 _, _))
    by (vm_compute; reflexivity).
  destruct (buildKnowledgeGraph_idempotent _ _ _ _ _ H) as [item [Hg [_ [_ Hagain]]]].
  destruct (Hagain _ Hg) as [body2 [Hrun [_ [Hn [He [_ [_ [_ [_ [_ [_ [_ Hc]]]]]]]]]]]].
  { vm_compute in Hg. inversion Hg as [Hitem]. reflexivity. }
  exists body2.
  split; [exact H|]. split; [reflexivity|].
  split; [exact Hrun|]. split; [exact Hn|]. split; [exact He|exact Hc].
Defined.

(** C7, counterexample. On a fresh process the request for [pair] is
    answered with a graph of two edges, stored with a TTL of 60 minutes.
    Then 10001 requests for other papers are answered, each stored under a
    key of its own; the clock stands still throughout, so no entry expires.
    The 10001st of these finds 10001 entries in a cache of maximum size
    10000 and evicts the oldest, the entry of [pair]. The same request
    for [pair] is then built anew, with new draws: it is answered with
    [cached] being [false] and with one edge only. *)
Lemma rebuilt_within_ttl_counterexample :
  exists body1 w1 item w2 body2 w3,
    buildKnowledgeGraph pairRequest startWorld = (Status200 body1, w1)
    /\ Js.get String.eqb (graphCacheKey (currentTopicOf (Some "graphs")) pair)
              (InstantCache.cache (graphCache w1)) = Some item
    /\ InstantCache.data item = body1
    /\ snd (mapM buildKnowledgeGraph (fillerRequests (Z.to_nat 10001)) w1) = w2
    /\ Js.get String.eqb (graphCacheKey (currentTopicOf (Some "graphs")) pair)
              (InstantCache.cache (graphCache w2)) = None
    /\ InstantCache.expired (clock w2 0) item = false
    /\ buildKnowledgeGraph pairRequest w2 = (Status200 body2, w3)
    /\ cached (data body2) = false
    /\ List.length (graphEdges (data body1)) = 2%nat
    /\ List.length (graphEdges (data body2)) = 1%nat
    /\ graphEdges (data body2) <> graphEdges (data body1).
Proof.
  assert (Hn : exists m, Z.to_nat 10001 = S m /\ Z.of_nat m = 10000%Z).
  { exists (Z.to_nat 10000). split.
    - change 10001%Z with (Z.succ 10000). apply Z2Nat.inj_succ. lia.
    - apply Z2Nat.id. lia. }
  destruct Hn as [m [Em Hm]]. rewrite Em. clear Em.
  destruct (busy_hour m Hm) as [entries [Hrun Hkeys]].
  eassert (H : buildKnowledgeGraph pairRequest startWorld = (Status200 _, _))
    by (vm_compute; reflexivity).
  rewrite H in Hrun. cbn [snd] in Hrun.
  assert (Hgone : Js.get String.eqb (graphCacheKey (currentTopicOf (Some "graphs")) pair)
                         entries = None).
  { apply get_absent. rewrite Hkeys.
    intros Hin. apply in_map_iff in Hin. destruct Hin as [k [E _]].
    vm_compute in E. discriminate E. }
  eexists. eexists. eexists. eexists. eexists. eexists.
  split; [exact H|].
  split; [vm_compute; reflexivity|].
  split; [reflexivity|].
  split; [exact Hrun|].
  split; [exact Hgone|].
  split; [reflexivity|].
  split.
  - unfold pairRequest, pair.
    rewrite buildKnowledgeGraph_absent by exact Hgone.
    rewrite buildAndCache_run. reflexivity.
  - split; [reflexivity|]. split; [vm_compute; reflexivity|].
    split; [vm_compute; reflexivity|].
    vm_compute. intros E. discriminate E.
Qed.

End Route.

End Claims.
